(** * Perfmon_Scripts: the Linux, AIX and macOS monitoring scripts

    A shallow embedding of [Perfmon_linux.py], [Perfmon_AIX.py] and
    [Perfmon_macos.py].  The three scripts share one shape: a [run_command]
    helper around [subprocess.run], a handful of collection functions that
    log what the commands print, and a [main] that repeats them until
    [RUN_DURATION] seconds have passed, sleeping [CHECK_INTERVAL] seconds
    between passes.

    - Module [Py] models the part of the Python runtime the scripts use:
      [str] and [bytes], UTF-8 decoding, exceptions, the [logging] records,
      a clock, [subprocess.run], [time.sleep] and signal delivery.
    - Modules [Linux], [AIX] and [MacOS] translate the scripts function by
      function.
    - The theorems follow the definitions. *)

From Stdlib Require Import ZArith NArith QArith List String Ascii Bool Lia.
Import ListNotations.
Open Scope Z_scope.

Module Py.

(** ** Strings and bytes *)

(** A Python [str] is a sequence of Unicode code points, a [bytes] object a
    sequence of bytes. *)
Definition str := list N.
Definition bytes := list Byte.byte.

(** An ASCII literal of the source as a [str]. *)
Definition lit (s : string) : str :=
  map N_of_ascii (list_ascii_of_string s).

Definition str_eqb (a b : str) : bool :=
  if list_eq_dec N.eq_dec a b then true else false.

(** [bytes.decode('utf-8')], strict: [None] stands for [UnicodeDecodeError].
    Overlong forms, surrogates and code points above U+10FFFF are refused. *)
Definition continuation (b : N) : bool :=
  ((0x80 <=? b) && (b <=? 0xBF))%N.

Definition low6 (b : N) : N := N.land b 0x3F.

Definition cp2 (b0 b1 : N) : N :=
  N.lor (N.shiftl (N.land b0 0x1F) 6) (low6 b1).

Definition cp3 (b0 b1 b2 : N) : N :=
  N.lor (N.shiftl (N.land b0 0x0F) 12) (N.lor (N.shiftl (low6 b1) 6) (low6 b2)).

Definition cp4 (b0 b1 b2 b3 : N) : N :=
  N.lor (N.shiftl (N.land b0 0x07) 18)
    (N.lor (N.shiftl (low6 b1) 12) (N.lor (N.shiftl (low6 b2) 6) (low6 b3))).

Definition surrogate (cp : N) : bool :=
  ((0xD800 <=? cp) && (cp <=? 0xDFFF))%N.

Fixpoint utf8_decode (bs : list N) : option str :=
  match bs with
  | [] => Some []
  | b0 :: r0 =>
    if (b0 <? 0x80)%N then option_map (cons b0) (utf8_decode r0)
    else if (b0 <? 0xC2)%N then None
    else if (b0 <? 0xE0)%N then
      match r0 with
      | b1 :: r1 =>
        if continuation b1
        then option_map (cons (cp2 b0 b1)) (utf8_decode r1)
        else None
      | _ => None
      end
    else if (b0 <? 0xF0)%N then
      match r0 with
      | b1 :: b2 :: r2 =>
        let cp := cp3 b0 b1 b2 in
        if continuation b1 && continuation b2
           && (0x800 <=? cp)%N && negb (surrogate cp)
        then option_map (cons cp) (utf8_decode r2)
        else None
      | _ => None
      end
    else if (b0 <? 0xF5)%N then
      match r0 with
      | b1 :: b2 :: b3 :: r3 =>
        let cp := cp4 b0 b1 b2 b3 in
        if continuation b1 && continuation b2 && continuation b3
           && (0x10000 <=? cp)%N && (cp <=? 0x10FFFF)%N
        then option_map (cons cp) (utf8_decode r3)
        else None
      | _ => None
      end
    else None
  end.

Definition decode (b : bytes) : option str :=
  utf8_decode (map Byte.to_N b).

(** [str.isspace] for one code point: the characters [str.strip()] and
    [str.split()] treat as white space. *)
Definition isspace (c : N) : bool :=
  (((0x09 <=? c) && (c <=? 0x0D)) || ((0x1C <=? c) && (c <=? 0x20))
   || (c =? 0x85) || (c =? 0xA0) || (c =? 0x1680)
   || ((0x2000 <=? c) && (c <=? 0x200A))
   || (c =? 0x2028) || (c =? 0x2029) || (c =? 0x202F) || (c =? 0x205F)
   || (c =? 0x3000))%N.

Fixpoint lstrip (s : str) : str :=
  match s with
  | c :: r => if isspace c then lstrip r else s
  | [] => []
  end.

Definition rstrip (s : str) : str := rev (lstrip (rev s)).

(** [s.strip()] *)
Definition strip (s : str) : str := rstrip (lstrip s).

(** Line boundaries of [str.splitlines()]. *)
Definition linebreak (c : N) : bool :=
  (((0x0A <=? c) && (c <=? 0x0D)) || ((0x1C <=? c) && (c <=? 0x1E))
   || (c =? 0x85) || (c =? 0x2028) || (c =? 0x2029))%N.

Fixpoint splitlines_from (cur : str) (s : str) : list str :=
  match s with
  | [] => match cur with [] => [] | _ => [rev cur] end
  | c :: r =>
    if (c =? 0x0D)%N then
      match r with
      | c' :: r' =>
        if (c' =? 0x0A)%N then rev cur :: splitlines_from [] r'
        else rev cur :: splitlines_from [] r
      | [] => rev cur :: splitlines_from [] r
      end
    else if linebreak c then rev cur :: splitlines_from [] r
    else splitlines_from (c :: cur) r
  end.

(** [s.splitlines()] *)
Definition splitlines (s : str) : list str := splitlines_from [] s.

Fixpoint split_from (cur : str) (s : str) : list str :=
  match s with
  | [] => match cur with [] => [] | _ => [rev cur] end
  | c :: r =>
    if isspace c
    then match cur with [] => split_from [] r | _ => rev cur :: split_from [] r end
    else split_from (c :: cur) r
  end.

(** [s.split()], splitting on runs of white space. *)
Definition split (s : str) : list str := split_from [] s.

Fixpoint prefixb (p s : str) : bool :=
  match p, s with
  | [], _ => true
  | a :: p', b :: s' => (a =? b)%N && prefixb p' s'
  | _ :: _, [] => false
  end.

(** [sub in s] *)
Fixpoint contains (sub s : str) : bool :=
  prefixb sub s || match s with [] => false | _ :: r => contains sub r end.

(** ** Exceptions, log records, state *)

(** What ends a call abruptly: the exceptions the scripts can meet, and
    [Killed], the death of the process by a signal nobody handles. *)
Inductive exn :=
| CalledProcessError (returncode : Z) (cmd : str) (stdout stderr : bytes)
| TimeoutExpired (cmd : str) (timeout : Z)
| UnicodeDecodeError
| IndexError
| TypeError
| ValueError
| OSError
| PermissionError
| KeyboardInterrupt
| SystemExit (code : Z)
| Killed (signum : Z).

(** The value of an f-string or of a logged object, piece by piece:
    literal text and interpolated [str] values, integers, floats (with
    [repr] or with [:.2f]), an exception, or [None]. *)
Inductive piece :=
| Str (s : str)
| Int (z : Z)
| Float (q : Q)
| Fixed2 (q : Q)
| Exc (e : exn)
| PyNone.

Definition message := list piece.

Inductive level := INFO | WARNING | ERROR.

Inductive thread_id := MainThread | Worker (target : string).

(** The attributes of a [logging.LogRecord] the development looks at. *)
Record LogRecord := mkRecord {
  levelname : level;
  threadName : thread_id;
  funcName : string;
  created : Z;
  msg : message
}.

(** The state of the run: the clock in seconds, the log file, the signal
    that is still to arrive (arrival time and number), and the thread that
    is running. *)
Record state := mkState {
  clock : Z;
  log : list LogRecord;
  pending : option (Z * Z);
  thread : thread_id
}.

(** A call returns a value, raises, or never returns. *)
Inductive outcome (A : Type) :=
| Returned (a : A) (s : state)
| Raised (e : exn) (s : state)
| Blocked (s : state).
Arguments Returned {A} a s.
Arguments Raised {A} e s.
Arguments Blocked {A} s.

Definition M (A : Type) := state -> outcome A.

Definition final {A} (o : outcome A) : state :=
  match o with
  | Returned _ s => s
  | Raised _ s => s
  | Blocked s => s
  end.

Definition ret {A} (a : A) : M A := fun s => Returned a s.

Definition bind {A B} (m : M A) (k : A -> M B) : M B :=
  fun s =>
    match m s with
    | Returned a s' => k a s'
    | Raised e s' => Raised e s'
    | Blocked s' => Blocked s'
    end.

Definition raise {A} (e : exn) : M A := fun s => Raised e s.

(** [try: m except ...: h]; [h e = None] when no clause matches [e]. *)
Definition try_except {A} (m : M A) (h : exn -> option (M A)) : M A :=
  fun s =>
    match m s with
    | Raised e s' => match h e with Some k => k s' | None => Raised e s' end
    | o => o
    end.

Declare Scope py_scope.
Delimit Scope py_scope with py.
Notation "x <- m ;; k" := (bind m (fun x => k))
  (at level 61, m at next level, right associativity) : py_scope.
Notation "m ;; k" := (bind m (fun _ => k))
  (at level 61, right associativity) : py_scope.
Open Scope py_scope.

(** [for x in xs: body x] *)
Fixpoint for_each {A} (xs : list A) (body : A -> M unit) : M unit :=
  match xs with
  | [] => ret tt
  | x :: r => body x ;; for_each r body
  end.

(** [if c: m] *)
Definition when (c : bool) (m : M unit) : M unit :=
  if c then m else ret tt.

(** Appending one record to the log, stamped with the clock and the running
    thread. *)
Definition emit (lvl : level) (fn : string) (m : message) : M unit :=
  fun s =>
    Returned tt
      (mkState (clock s)
               (log s ++ [mkRecord lvl (thread s) fn (clock s) m])
               (pending s) (thread s)).

(** ** Processes and the host *)

(** What a shell command does once started: it exits after [duration]
    seconds with a status and what it wrote, or it never exits. *)
Inductive process :=
| Exits (duration : N) (returncode : Z) (stdout stderr : bytes)
| NeverExits.

(** The host: what a command does when started at a given time, and whether
    [shutil.which] finds a program. *)
Record world := mkWorld {
  spawn : str -> Z -> process;
  which : str -> bool
}.

Record CompletedProcess := mkCompleted {
  cp_returncode : Z;
  cp_stdout : bytes;
  cp_stderr : bytes
}.

Section Runtime.

(** The host, and the Python-level handler of the signals the script
    traps. *)
Variable w : world.
Variable on_signal : Z -> M unit.

Definition take_signal (now : Z) (signum : Z) : M unit :=
  fun s => on_signal signum (mkState now (log s) None (thread s)).

(** The signal to handle now: one that is pending and arrives before
    [deadline], if the main thread is running. *)
Definition due (deadline : option Z) (s : state) : option (Z * Z) :=
  match pending s, thread s with
  | Some (at_, signum), MainThread =>
    match deadline with
    | Some t => if at_ <? t then Some (at_, signum) else None
    | None => Some (at_, signum)
    end
  | _, _ => None
  end.

(** Python runs a signal handler in the main thread, between two
    instructions: here before each call into the runtime, for a signal whose
    arrival time is not later than the clock (the clock counts whole
    seconds, so that is [at_ < clock + 1]). *)
Definition checkpoint : M unit :=
  fun s =>
    match due (Some (clock s + 1)) s with
    | Some (_, signum) => take_signal (clock s) signum s
    | None => Returned tt s
    end.

(** The clock moves on to [t], unless it is already later. *)
Definition advance (t : Z) : M unit :=
  fun s => Returned tt (mkState (Z.max t (clock s)) (log s) (pending s) (thread s)).

(** Blocking for [d] seconds; a signal that arrives meanwhile runs its
    handler at once, and the wait goes on if the handler returns. *)
Definition wait (d : Z) : M unit :=
  fun s =>
    let until := clock s + d in
    match due (Some until) s with
    | Some (at_, signum) =>
      (take_signal (Z.max (clock s) at_) signum ;; advance until) s
    | None => advance until s
    end.

(** Blocking on something that never happens. *)
Definition wait_forever {A} : M A :=
  fun s =>
    match due None s with
    | Some (at_, signum) =>
      (take_signal (Z.max (clock s) at_) signum ;; fun s' => Blocked s') s
    | None => Blocked s
    end.

(** [logging.info], [logging.warning], [logging.error] *)
Definition logging_log (lvl : level) (fn : string) (m : message) : M unit :=
  checkpoint ;; emit lvl fn m.

Definition logging_info := logging_log INFO.
Definition logging_warning := logging_log WARNING.
Definition logging_error := logging_log ERROR.

(** [time.time()] *)
Definition time_time : M Z :=
  checkpoint ;; fun s => Returned (clock s) s.

(** [time.sleep(secs)] *)
Definition time_sleep (secs : Z) : M unit :=
  checkpoint ;;
  if secs <? 0 then raise ValueError else wait secs.

(** [shutil.which(name)], as a truth value. *)
Definition shutil_which (name : str) : M bool :=
  checkpoint ;; ret (which w name).

(** [subprocess.run(cmd, shell=True, check=check, stdout=PIPE, ...,
    timeout=timeout)]: waits for the command, for at most [timeout] seconds
    when one is given. *)
Definition subprocess_run (cmd : str) (check : bool) (timeout : option Z)
  : M CompletedProcess :=
  checkpoint ;;
  fun s =>
    let finish d rc out err :=
      (wait (Z.of_N d) ;;
       if check && negb (rc =? 0)
       then raise (CalledProcessError rc cmd out err)
       else ret (mkCompleted rc out err)) in
    let expire T := (wait (Z.max 0 T) ;; raise (TimeoutExpired cmd T)) in
    match spawn w cmd (clock s), timeout with
    | Exits d rc out err, None => finish d rc out err s
    | Exits d rc out err, Some T =>
      if Z.of_N d <=? T then finish d rc out err s else expire T s
    | NeverExits, None => wait_forever s
    | NeverExits, Some T => expire T s
    end.

(** One way the records of two threads reach the log: [true] takes the next
    record of the first thread, [false] of the second; when the choices run
    out, what is left of the first thread comes first. *)
Fixpoint interleave (sched : list bool) (a b : list LogRecord) : list LogRecord :=
  match sched with
  | [] => a ++ b
  | true :: sched' =>
    match a with
    | x :: a' => x :: interleave sched' a' b
    | [] => interleave sched' [] b
    end
  | false :: sched' =>
    match b with
    | y :: b' => y :: interleave sched' a b'
    | [] => interleave sched' a []
    end
  end.

(** A [threading.Thread(target=...)], started: it runs the target on its
    own, from the current time, and no signal handler runs in it. *)
Definition started (target : string) (body : M unit) (s : state) : outcome unit :=
  body (mkState (clock s) [] None (Worker target)).

(** Two threads are started and then joined one after the other (the loops
    of [parallel_tasks]).  The caller goes on when both have ended, however
    they ended: an exception ends its thread only.  A signal that arrives
    while the caller waits runs its handler in the caller. *)
Definition start_and_join (sched : list bool)
    (target1 : string) (body1 : M unit)
    (target2 : string) (body2 : M unit) : M unit :=
  fun s =>
    let o1 := started target1 body1 s in
    let o2 := started target2 body2 s in
    let records (keep : LogRecord -> bool) :=
      interleave sched (filter keep (log (final o1))) (filter keep (log (final o2))) in
    let ends :=
      match o1, o2 with
      | Blocked _, _ | _, Blocked _ => None
      | _, _ => Some (Z.max (clock (final o1)) (clock (final o2)))
      end in
    let joined (keep : LogRecord -> bool) : M unit :=
      fun s' =>
        let s'' := mkState (clock s') (log s' ++ records keep) (pending s') (thread s') in
        match ends with
        | Some t => advance t s''
        | None => Blocked s''
        end in
    match due ends s with
    | Some (at_, signum) =>
      let now := Z.max (clock s) at_ in
      (on_signal signum ;; joined (fun r => negb (created r <? now)))
        (mkState now (log s ++ records (fun r => created r <? now)) None (thread s))
    | None => joined (fun _ => true) s
    end.

End Runtime.

(** [exit(code)] *)
Definition exit {A} (code : Z) : M A := raise (SystemExit code).

End Py.

Import Py.
Open Scope string_scope.
Open Scope list_scope.
Open Scope Z_scope.

(** [a < b] on the rationals, as Python compares a float with a number. *)
Definition Qltb (a b : Q) : bool := negb (Qle_bool b a).

(** [size / (1024 ** k)] *)
Definition per (size : Z) (unit : Z) : Q := (inject_Z size / inject_Z unit)%Q.

Definition GiB : Z := 1024 ^ 3.
Definition MiB : Z := 1024 ^ 2.

Definition SIGHUP : Z := 1.
Definition SIGINT : Z := 2.
Definition SIGTERM : Z := 15.

(** * Perfmon_linux.py *)
Module Linux.

(** The module-level configuration constants. *)
Record config := mkConfig {
  RUN_DURATION : Z;
  CHECK_INTERVAL : Z;
  CPU_ALERT_THRESHOLD : Q;
  MEMORY_ALERT_THRESHOLD : Q
}.

Definition default_config : config := mkConfig 60 10 (90 # 1) (90 # 1).

(** What [psutil] reports. *)
Record svmem := mkSvmem {
  vm_total : Z; vm_used : Z; vm_available : Z; vm_percent : Q
}.

Record sdiskpart := mkDiskpart { device : str; mountpoint : str }.

Record sdiskusage := mkDiskusage {
  du_total : Z; du_used : Z; du_free : Z; du_percent : Q
}.

Record snetio := mkNetio { bytes_sent : Z; bytes_recv : Z }.

Record sswap := mkSwap {
  sw_total : Z; sw_used : Z; sw_free : Z; sw_sin : Z; sw_sout : Z
}.

(** [proc.info] for the attributes asked of [process_iter]; an attribute
    [psutil] could not read holds [None]. *)
Record pinfo := mkPinfo {
  pid : Z;
  name : str;
  cpu_percent : option Q;
  memory_percent : option Q
}.

(** The Linux host: the commands, [psutil]'s readings at a given time, and
    the lines of [/proc/mounts] ([None] when the file cannot be opened). *)
Record host := mkHost {
  os : world;
  psutil_cpu_percent : Z -> Q;
  psutil_virtual_memory : Z -> svmem;
  psutil_disk_partitions : Z -> list sdiskpart;
  psutil_disk_usage : str -> Z -> option sdiskusage;
  psutil_net_io_counters : Z -> snetio;
  psutil_process_iter : Z -> list pinfo;
  psutil_swap_memory : Z -> sswap;
  proc_mounts : Z -> option (list str)
}.

(** [cleanup], lines 100-101. *)
Definition cleanup : M unit :=
  emit INFO "cleanup" [Str (lit "Cleaning up resources before exiting.")].

(** [signal_handler], lines 90-93, installed for SIGINT, SIGTERM and SIGHUP
    (lines 96-97).  No second signal is modelled, so its logging calls need
    no checkpoint of their own. *)
Definition signal_handler (signum : Z) : M unit :=
  emit INFO "signal_handler"
       [Str (lit "Received signal "); Int signum; Str (lit ", cleaning up...")] ;;
  cleanup ;;
  exit 1.

Section Script.

Variable cfg : config.
Variable h : host.

Local Abbreviation checkpoint := (Py.checkpoint signal_handler).
Local Abbreviation wait := (Py.wait signal_handler).
Local Abbreviation logging_info := (Py.logging_info signal_handler).
Local Abbreviation logging_warning := (Py.logging_warning signal_handler).
Local Abbreviation logging_error := (Py.logging_error signal_handler).
Local Abbreviation subprocess_run := (Py.subprocess_run (os h) signal_handler).
Local Abbreviation shutil_which := (Py.shutil_which (os h) signal_handler).
Local Abbreviation time_time := (Py.time_time signal_handler).
Local Abbreviation time_sleep := (Py.time_sleep signal_handler).

(** Reading a value off the host at the current time. *)
Definition sample {A} (reading : Z -> A) : M A :=
  checkpoint ;; fun s => Returned (reading (clock s)) s.

(** [bytes.decode('utf-8')] *)
Definition decode_utf8 (b : bytes) : M str :=
  match decode b with
  | Some s => ret s
  | None => raise UnicodeDecodeError
  end.

(** [run_command], lines 104-110. *)
Definition run_command (command : str) : M unit :=
  try_except
    (result <- subprocess_run command true None ;;
     output <- decode_utf8 (cp_stdout result) ;;
     logging_info "run_command" [Str output])
    (fun e =>
       match e with
       | CalledProcessError _ _ _ _ =>
         Some (logging_error "run_command" [Str (lit "Command failed: "); Exc e])
       | _ => None
       end).

(** [cpu_memory_stats], lines 113-131; [psutil.cpu_percent(interval=1)]
    blocks for one second. *)
Definition cpu_memory_stats : M unit :=
  logging_info "cpu_memory_stats" [Str (lit "CPU and Memory Stats:")] ;;
  cpu_percent <- sample (psutil_cpu_percent h) ;;
  wait 1 ;;
  memory <- sample (psutil_virtual_memory h) ;;
  logging_info "cpu_memory_stats"
    [Str (lit "CPU Usage: "); Float cpu_percent; Str (lit "%")] ;;
  logging_info "cpu_memory_stats"
    [Str (lit "Total Memory: "); Fixed2 (per (vm_total memory) GiB); Str (lit " GB")] ;;
  logging_info "cpu_memory_stats"
    [Str (lit "Used Memory: "); Fixed2 (per (vm_used memory) GiB); Str (lit " GB")] ;;
  logging_info "cpu_memory_stats"
    [Str (lit "Available Memory: "); Fixed2 (per (vm_available memory) GiB); Str (lit " GB")] ;;
  when (Qltb (CPU_ALERT_THRESHOLD cfg) cpu_percent)
    (logging_warning "cpu_memory_stats"
       [Str (lit "ALERT: CPU usage is high at "); Float cpu_percent; Str (lit "%")]) ;;
  when (Qltb (MEMORY_ALERT_THRESHOLD cfg) (vm_percent memory))
    (logging_warning "cpu_memory_stats"
       [Str (lit "ALERT: Memory usage is high at "); Float (vm_percent memory); Str (lit "%")]) ;;
  run_command (lit "cat /proc/stat | head -n 5").

(** [psutil.disk_usage(path)]; the reading [None] is [PermissionError]. *)
Definition disk_usage (path : str) : M sdiskusage :=
  r <- sample (psutil_disk_usage h path) ;;
  match r with
  | Some usage => ret usage
  | None => raise PermissionError
  end.

(** [disk_stats], lines 134-152. *)
Definition disk_stats : M unit :=
  logging_info "disk_stats" [Str (lit "Disk Usage Stats:")] ;;
  partitions <- sample (psutil_disk_partitions h) ;;
  for_each partitions (fun partition =>
    try_except
      (usage <- disk_usage (mountpoint partition) ;;
       logging_info "disk_stats" [Str (lit "Disk "); Str (device partition); Str (lit ":")] ;;
       logging_info "disk_stats"
         [Str (lit "  Total: "); Fixed2 (per (du_total usage) GiB); Str (lit " GB")] ;;
       logging_info "disk_stats"
         [Str (lit "  Used: "); Fixed2 (per (du_used usage) GiB); Str (lit " GB")] ;;
       logging_info "disk_stats"
         [Str (lit "  Free: "); Fixed2 (per (du_free usage) GiB); Str (lit " GB")] ;;
       logging_info "disk_stats"
         [Str (lit "  Percent Used: "); Float (du_percent usage); Str (lit "%")])
      (fun e =>
         match e with
         | PermissionError =>
           Some (logging_warning "disk_stats"
                   [Str (lit "Permission denied for "); Str (mountpoint partition)])
         | _ => None
         end)) ;;
  found <- shutil_which (lit "iostat") ;;
  if found then run_command (lit "iostat -xm 1 5")
  else run_command (lit "vmstat 1 5").

(** [network_stats], lines 155-163. *)
Definition network_stats : M unit :=
  logging_info "network_stats" [Str (lit "Network Stats:")] ;;
  net_io <- sample (psutil_net_io_counters h) ;;
  logging_info "network_stats"
    [Str (lit "Bytes Sent: "); Fixed2 (per (bytes_sent net_io) MiB); Str (lit " MB")] ;;
  logging_info "network_stats"
    [Str (lit "Bytes Received: "); Fixed2 (per (bytes_recv net_io) MiB); Str (lit " MB")] ;;
  run_command (lit "netstat -i") ;;
  run_command (lit "ss -s").

(** [x > limit] where [x] may be [None]: Python 3 raises [TypeError] when it
    compares [None] with a number. *)
Definition greater (x : option Q) (limit : Q) : M bool :=
  match x with
  | Some v => ret (Qltb limit v)
  | None => raise TypeError
  end.

Definition optional (x : option Q) : piece :=
  match x with
  | Some v => Float v
  | None => PyNone
  end.

(** The record of line 173. *)
Definition high_cpu_message (p : pinfo) : message :=
  [Str (lit "High CPU Usage: PID: "); Int (pid p);
   Str (lit ", Name: "); Str (name p);
   Str (lit ", CPU: "); optional (cpu_percent p);
   Str (lit "%, Mem: "); optional (memory_percent p); Str (lit "%")].

(** The body of the loop of lines 169-175.  Nothing in the [try] block
    raises [psutil.AccessDenied]: [proc.info] was filled when the process
    was listed. *)
Definition check_process (proc_info : pinfo) : M unit :=
  try_except
    (high <- greater (cpu_percent proc_info) (50 # 1) ;;
     when high (logging_warning "process_stats" (high_cpu_message proc_info)))
    (fun _ => None).

(** [process_stats], lines 166-184. *)
Definition process_stats : M unit :=
  logging_info "process_stats" [Str (lit "Process Monitoring:")] ;;
  procs <- sample (psutil_process_iter h) ;;
  for_each procs check_process ;;
  run_command (lit "top -bn1") ;;
  run_command (lit "lsof") ;;
  run_command (lit "pstree").

(** [paging_stats], lines 187-197. *)
Definition paging_stats : M unit :=
  logging_info "paging_stats" [Str (lit "Paging and Swap Stats:")] ;;
  swap <- sample (psutil_swap_memory h) ;;
  logging_info "paging_stats"
    [Str (lit "Total Swap: "); Fixed2 (per (sw_total swap) GiB); Str (lit " GB")] ;;
  logging_info "paging_stats"
    [Str (lit "Used Swap: "); Fixed2 (per (sw_used swap) GiB); Str (lit " GB")] ;;
  logging_info "paging_stats"
    [Str (lit "Free Swap: "); Fixed2 (per (sw_free swap) GiB); Str (lit " GB")] ;;
  logging_info "paging_stats"
    [Str (lit "Swap In: "); Fixed2 (per (sw_sin swap) MiB); Str (lit " MB")] ;;
  logging_info "paging_stats"
    [Str (lit "Swap Out: "); Fixed2 (per (sw_sout swap) MiB); Str (lit " MB")] ;;
  run_command (lit "vmstat 1 5").

(** [filesystem_stats], lines 200-204. *)
Definition filesystem_stats : M unit :=
  logging_info "filesystem_stats" [Str (lit "Filesystem Stats:")] ;;
  run_command (lit "df -h") ;;
  run_command (lit "mount") ;;
  run_command (lit "du -sh /var").

(** [nfs_stats], lines 207-217. *)
Definition nfs_stats : M unit :=
  logging_info "nfs_stats" [Str (lit "NFS Stats:")] ;;
  try_except
    (found <- shutil_which (lit "nfsstat") ;;
     if found then
       run_command (lit "nfsstat -s") ;;
       run_command (lit "nfsstat -c")
     else
       logging_warning "nfs_stats" [Str (lit "nfsstat command not found.")])
    (fun e =>
       match e with
       | CalledProcessError _ _ _ _ =>
         Some (logging_error "nfs_stats" [Str (lit "Failed to get NFS stats: "); Exc e])
       | _ => None
       end).

(** [open("/proc/mounts", "r")] and the lines read from it. *)
Definition read_proc_mounts : M (list str) :=
  r <- sample (proc_mounts h) ;;
  match r with
  | Some lines => ret lines
  | None => raise OSError
  end.

(** [except Exception] catches every exception but [SystemExit] and
    [KeyboardInterrupt]; the death of the process is no exception at all. *)
Definition is_Exception (e : exn) : bool :=
  match e with
  | SystemExit _ | KeyboardInterrupt | Killed _ => false
  | _ => true
  end.

(** [check_nfs_mounts], lines 220-230. *)
Definition check_nfs_mounts : M unit :=
  logging_info "check_nfs_mounts" [Str (lit "Checking active NFS mounts:")] ;;
  try_except
    (lines <- read_proc_mounts ;;
     let nfs_mounts := filter (contains (lit "nfs")) lines in
     match nfs_mounts with
     | _ :: _ =>
       logging_info "check_nfs_mounts"
         [Str (lit "NFS Mounts:" ++ [10%N])%list; Str (List.concat nfs_mounts)]
     | [] => logging_info "check_nfs_mounts" [Str (lit "No NFS mounts found.")]
     end)
    (fun e =>
       if is_Exception e
       then Some (logging_error "check_nfs_mounts"
                    [Str (lit "Error checking NFS mounts: "); Exc e])
       else None).

(** [log_monitoring], lines 233-237. *)
Definition log_monitoring : M unit :=
  logging_info "log_monitoring" [Str (lit "System Logs:")] ;;
  run_command (lit "tail -n 50 /var/log/syslog") ;;
  run_command (lit "tail -n 50 /var/log/messages").

(** [system_info], lines 240-243. *)
Definition system_info : M unit :=
  logging_info "system_info" [Str (lit "System Info:")] ;;
  run_command (lit "uname -a") ;;
  run_command (lit "lsb_release -a").

(** The nine collection calls of one pass, lines 258-266. *)
Definition collect : M unit :=
  cpu_memory_stats ;;
  disk_stats ;;
  network_stats ;;
  process_stats ;;
  paging_stats ;;
  filesystem_stats ;;
  nfs_stats ;;
  check_nfs_mounts ;;
  log_monitoring.

Definition collecting_message : message := [Str (lit "Collecting system stats...")].

(** The body of the [while] loop, lines 255-269. *)
Definition cycle : M unit :=
  logging_info "main" collecting_message ;;
  collect ;;
  logging_info "main"
    [Str (lit "Sleeping for "); Int (CHECK_INTERVAL cfg); Str (lit " seconds...")] ;;
  time_sleep (CHECK_INTERVAL cfg).

(** The [while] loop of line 254, unrolled at most [fuel] times; the value
    [None] says the fuel ran out before the loop ended. *)
Fixpoint monitor (fuel : nat) (start_time : Z) : M (option unit) :=
  match fuel with
  | O => ret None
  | S fuel' =>
    now <- time_time ;;
    if now - start_time <? RUN_DURATION cfg
    then cycle ;; monitor fuel' start_time
    else ret (Some tt)
  end.

(** [main], lines 246-271. *)
Definition main (fuel : nat) : M (option unit) :=
  logging_info "main" [Str (lit "Starting Linux performance monitoring...")] ;;
  system_info ;;
  start_time <- time_time ;;
  done <- monitor fuel start_time ;;
  match done with
  | None => ret None
  | Some _ =>
    logging_info "main"
      [Str (lit "Linux performance monitoring completed after the set duration.")] ;;
    ret (Some tt)
  end.

(** The [__main__] block, lines 273-278. *)
Definition program (fuel : nat) : M (option unit) :=
  try_except (main fuel)
    (fun e =>
       match e with
       | KeyboardInterrupt =>
         Some (cleanup ;;
               logging_info "<module>" [Str (lit "Monitoring stopped by user.")] ;;
               ret (Some tt))
       | _ => None
       end).

End Script.

End Linux.

(** * Perfmon_AIX.py *)
Module AIX.

Record config := mkConfig {
  RUN_DURATION : Z;
  CHECK_INTERVAL : Z
}.

Definition default_config : config := mkConfig 30 5.

(** The AIX host: the commands, and the order in which the records of the
    two threads of a pass started at a given time reach the log. *)
Record host := mkHost {
  os : world;
  schedule : Z -> list bool
}.

(** [cleanup], lines 105-106. *)
Definition cleanup : M unit :=
  emit INFO "cleanup" [Str (lit "Cleaning up resources before exiting.")].

(** [signal_handler], lines 95-98, installed for SIGINT, SIGTERM and SIGHUP
    (lines 101-102). *)
Definition signal_handler (signum : Z) : M unit :=
  emit INFO "signal_handler"
       [Str (lit "Received signal "); Int signum; Str (lit ", cleaning up...")] ;;
  cleanup ;;
  exit 1.

Section Script.

Variable cfg : config.
Variable h : host.

Local Abbreviation logging_info := (Py.logging_info signal_handler).
Local Abbreviation logging_warning := (Py.logging_warning signal_handler).
Local Abbreviation logging_error := (Py.logging_error signal_handler).
Local Abbreviation subprocess_run := (Py.subprocess_run (os h) signal_handler).
Local Abbreviation time_time := (Py.time_time signal_handler).
Local Abbreviation time_sleep := (Py.time_sleep signal_handler).

(** [bytes.decode('utf-8')] *)
Definition decode_utf8 (b : bytes) : M str :=
  match decode b with
  | Some s => ret s
  | None => raise UnicodeDecodeError
  end.

(** [run_command], lines 109-120; callers that give no timeout get 60. *)
Definition run_command (command : str) (timeout : Z) : M unit :=
  try_except
    (result <- subprocess_run command true (Some timeout) ;;
     output <- decode_utf8 (cp_stdout result) ;;
     logging_info "run_command" [Str output])
    (fun e =>
       match e with
       | TimeoutExpired _ _ =>
         Some (logging_warning "run_command"
                 [Str (lit "Command '"); Str command; Str (lit "' timed out after ");
                  Int timeout; Str (lit " seconds.")])
       | CalledProcessError _ _ _ _ =>
         Some (logging_error "run_command"
                 [Str (lit "Command '"); Str command; Str (lit "' failed: "); Exc e])
       | _ => None
       end).

(** [system_info], lines 123-137. *)
Definition system_info : M unit :=
  logging_info "system_info" [Str (lit "System Information:")] ;;
  run_command (lit "uname -a") 60 ;;
  run_command (lit "oslevel -s") 60 ;;
  run_command (lit "lsattr -El sys0") 60 ;;
  run_command (lit "pmcycles -d") 60 ;;
  run_command (lit "lparstat -i") 60.

(** [cpu_memory_stats], lines 140-152. *)
Definition cpu_memory_stats : M unit :=
  logging_info "cpu_memory_stats" [Str (lit "CPU and Memory Stats:")] ;;
  run_command (lit "vmstat 1 3") 60 ;;
  run_command (lit "lsattr -El sys0") 60 ;;
  run_command (lit "mpstat 1 3") 60 ;;
  run_command (lit "svmon -G -O affinity=on | head -n 20") 60.

(** [subprocess.run(cmd, shell=True, stdout=subprocess.PIPE)] followed by
    [.stdout.decode('utf-8').splitlines()]: no [check], no timeout. *)
Definition output_lines (cmd : str) : M (list str) :=
  result <- subprocess_run cmd false None ;;
  text <- decode_utf8 (cp_stdout result) ;;
  ret (splitlines text).

(** [line.split()[0]] *)
Definition first_word (line : str) : M str :=
  match split line with
  | word :: _ => ret word
  | [] => raise IndexError
  end.

(** [disk_stats], lines 155-175. *)
Definition disk_stats : M unit :=
  logging_info "disk_stats" [Str (lit "Collecting Disk Stats:")] ;;
  run_command (lit "lspv") 60 ;;
  disks <- output_lines (lit "lspv") ;;
  for_each disks (fun disk =>
    disk_name <- first_word disk ;;
    logging_info "disk_stats" [Str (lit "Collecting information for disk: "); Str disk_name] ;;
    run_command (lit "lsattr -El " ++ disk_name) 60 ;;
    run_command (lit "iostat -DlR " ++ disk_name ++ lit " 1 1") 30).

(** [volume_group_stats], lines 178-208. *)
Definition volume_group_stats : M unit :=
  logging_info "volume_group_stats" [Str (lit "Collecting Volume Group Stats:")] ;;
  vgs <- output_lines (lit "lsvg") ;;
  for_each vgs (fun vg =>
    logging_info "volume_group_stats"
      [Str (lit "Collecting information for volume group: "); Str vg] ;;
    run_command (lit "lsvg " ++ vg) 60 ;;
    run_command (lit "lsvg -l " ++ vg) 60 ;;
    run_command (lit "lsvg -p " ++ vg) 60 ;;
    lvs <- output_lines (lit "lsvg -l " ++ vg) ;;
    for_each (tl lvs) (fun lv =>
      lv_name <- first_word lv ;;
      logging_info "volume_group_stats"
        [Str (lit "Collecting information for logical volume: "); Str lv_name] ;;
      run_command (lit "lslv -l " ++ lv_name) 60 ;;
      run_command (lit "lslv -m " ++ lv_name) 60)).

(** [network_stats], lines 211-221. *)
Definition network_stats : M unit :=
  logging_info "network_stats" [Str (lit "Network Stats:")] ;;
  run_command (lit "netstat -v") 60 ;;
  run_command (lit "entstat -d ent0") 60 ;;
  run_command (lit "ifconfig -a") 60.

(** [process_stats], lines 224-236. *)
Definition process_stats : M unit :=
  logging_info "process_stats" [Str (lit "Process Monitoring:")] ;;
  run_command (lit "ps -ef") 60 ;;
  run_command (lit "svmon -G") 60 ;;
  run_command (lit "svmon -P | head -n 20") 60 ;;
  run_command (lit "topas") 60.

(** [paging_stats], lines 239-247. *)
Definition paging_stats : M unit :=
  logging_info "paging_stats" [Str (lit "Paging and Swap Stats:")] ;;
  run_command (lit "lsps -a") 60 ;;
  run_command (lit "vmstat -s") 60.

(** [filesystem_nfs_stats], lines 250-262. *)
Definition filesystem_nfs_stats : M unit :=
  logging_info "filesystem_nfs_stats" [Str (lit "Filesystem and NFS Stats:")] ;;
  run_command (lit "lsfs") 60 ;;
  run_command (lit "nfsstat -s") 60 ;;
  run_command (lit "nfsstat -c") 60 ;;
  run_command (lit "mount") 60.

(** [log_monitoring], lines 265-271. *)
Definition log_monitoring : M unit :=
  logging_info "log_monitoring" [Str (lit "System Logs:")] ;;
  run_command (lit "errpt -a | head -n 20") 60.

(** [parallel_tasks], lines 274-290: one thread for [disk_stats], one for
    [network_stats], both started, then both joined. *)
Definition parallel_tasks : M unit :=
  fun s =>
    start_and_join signal_handler (schedule h (clock s))
      "disk_stats" disk_stats "network_stats" network_stats s.

(** The six calls that follow [parallel_tasks] in a pass, lines 308-313. *)
Definition sequential_tasks : M unit :=
  cpu_memory_stats ;;
  volume_group_stats ;;
  process_stats ;;
  paging_stats ;;
  filesystem_nfs_stats ;;
  log_monitoring.

Definition collecting_message : message := [Str (lit "Collecting system stats...")].

(** The body of the [while] loop, lines 302-316. *)
Definition cycle : M unit :=
  logging_info "main" collecting_message ;;
  parallel_tasks ;;
  sequential_tasks ;;
  logging_info "main"
    [Str (lit "Sleeping for "); Int (CHECK_INTERVAL cfg); Str (lit " seconds...")] ;;
  time_sleep (CHECK_INTERVAL cfg).

(** The [while] loop of line 301, unrolled at most [fuel] times. *)
Fixpoint monitor (fuel : nat) (start_time : Z) : M (option unit) :=
  match fuel with
  | O => ret None
  | S fuel' =>
    now <- time_time ;;
    if now - start_time <? RUN_DURATION cfg
    then cycle ;; monitor fuel' start_time
    else ret (Some tt)
  end.

(** [main], lines 293-318. *)
Definition main (fuel : nat) : M (option unit) :=
  logging_info "main" [Str (lit "Starting AIX performance monitoring...")] ;;
  system_info ;;
  start_time <- time_time ;;
  done <- monitor fuel start_time ;;
  match done with
  | None => ret None
  | Some _ =>
    logging_info "main"
      [Str (lit "AIX performance monitoring completed after the set duration.")] ;;
    ret (Some tt)
  end.

(** The [__main__] block, lines 320-325. *)
Definition program (fuel : nat) : M (option unit) :=
  try_except (main fuel)
    (fun e =>
       match e with
       | KeyboardInterrupt =>
         Some (cleanup ;;
               logging_info "<module>" [Str (lit "Monitoring stopped by user.")] ;;
               ret (Some tt))
       | _ => None
       end).

End Script.

End AIX.

(** * Perfmon_macos.py *)
Module MacOS.

Record config := mkConfig {
  RUN_DURATION : Z;
  CHECK_INTERVAL : Z
}.

Definition default_config : config := mkConfig 60 10.

(** The script installs no handler: SIGINT raises [KeyboardInterrupt] where
    the program is, any other signal ends the process. *)
Definition default_handler (signum : Z) : M unit :=
  if signum =? SIGINT then raise KeyboardInterrupt else raise (Killed signum).

Section Script.

Variable cfg : config.
Variable w : world.

Local Abbreviation logging_info := (Py.logging_info default_handler).
Local Abbreviation logging_error := (Py.logging_error default_handler).
Local Abbreviation subprocess_run := (Py.subprocess_run w default_handler).
Local Abbreviation time_time := (Py.time_time default_handler).
Local Abbreviation time_sleep := (Py.time_sleep default_handler).

(** [bytes.decode('utf-8')] *)
Definition decode_utf8 (b : bytes) : M str :=
  match decode b with
  | Some s => ret s
  | None => raise UnicodeDecodeError
  end.

(** [run_command], lines 61-67. *)
Definition run_command (command : str) : M (option str) :=
  try_except
    (result <- subprocess_run command true None ;;
     text <- decode_utf8 (cp_stdout result) ;;
     ret (Some (strip text)))
    (fun e =>
       match e with
       | CalledProcessError _ _ _ stderr =>
         Some (text <- decode_utf8 stderr ;;
               logging_error "run_command"
                 [Str (lit "Command '"); Str command; Str (lit "' failed: "); Str text] ;;
               ret None)
       | _ => None
       end).

(** [setup_logging], lines 70-71: it names the log file and its format,
    neither of which the model keeps. *)
Definition setup_logging : M unit := ret tt.

(** The message of [logging.info(value)] for what [run_command] returned. *)
Definition shown (value : option str) : message :=
  match value with
  | Some text => [Str text]
  | None => [PyNone]
  end.

(** [logging.info(run_command(command))], the one way the script calls
    [run_command]; [caller] is the function the call stands in. *)
Definition log_command (caller : string) (command : str) : M unit :=
  value <- run_command command ;;
  logging_info caller (shown value).

(** [system_info], lines 74-77. *)
Definition system_info : M unit :=
  logging_info "system_info" [Str (lit "Collecting system information...")] ;;
  log_command "system_info" (lit "uname -a") ;;
  log_command "system_info" (lit "sw_vers").

(** [cpu_memory_stats], lines 80-85. *)
Definition cpu_memory_stats : M unit :=
  logging_info "cpu_memory_stats" [Str (lit "Collecting CPU and memory stats...")] ;;
  log_command "cpu_memory_stats" (lit "vm_stat") ;;
  log_command "cpu_memory_stats" (lit "sysctl -a | grep machdep.cpu") ;;
  log_command "cpu_memory_stats" (lit "sysctl -n hw.memsize") ;;
  log_command "cpu_memory_stats" (lit "top -l 1").

(** [disk_stats], lines 88-92. *)
Definition disk_stats : M unit :=
  logging_info "disk_stats" [Str (lit "Collecting disk and I/O stats...")] ;;
  log_command "disk_stats" (lit "df -h") ;;
  log_command "disk_stats" (lit "diskutil list") ;;
  log_command "disk_stats" (lit "iostat -Id 1 2").

(** [process_stats], lines 95-98. *)
Definition process_stats : M unit :=
  logging_info "process_stats" [Str (lit "Collecting process stats...")] ;;
  log_command "process_stats" (lit "ps aux") ;;
  log_command "process_stats" (lit "top -l 1 -n 10").

(** [network_stats], lines 101-104. *)
Definition network_stats : M unit :=
  logging_info "network_stats" [Str (lit "Collecting network stats...")] ;;
  log_command "network_stats" (lit "netstat -i") ;;
  log_command "network_stats" (lit "ifconfig").

(** [filesystem_nfs_stats], lines 107-110. *)
Definition filesystem_nfs_stats : M unit :=
  logging_info "filesystem_nfs_stats" [Str (lit "Collecting filesystem and NFS stats...")] ;;
  log_command "filesystem_nfs_stats" (lit "mount") ;;
  log_command "filesystem_nfs_stats" (lit "nfsstat").

(** [error_logs], lines 113-115; the command holds two double quotes
    (code point 34). *)
Definition error_logs : M unit :=
  logging_info "error_logs" [Str (lit "Collecting error logs...")] ;;
  log_command "error_logs"
    (lit "log show --predicate 'eventMessage contains " ++ [34%N] ++ lit "error"
     ++ [34%N] ++ lit "' --info").

(** The body of the [while] loop, lines 123-132. *)
Definition cycle : M unit :=
  system_info ;;
  cpu_memory_stats ;;
  disk_stats ;;
  process_stats ;;
  network_stats ;;
  filesystem_nfs_stats ;;
  error_logs ;;
  logging_info "main"
    [Str (lit "Sleeping for "); Int (CHECK_INTERVAL cfg); Str (lit " seconds...")] ;;
  time_sleep (CHECK_INTERVAL cfg).

(** The [while] loop of line 122, unrolled at most [fuel] times. *)
Fixpoint monitor (fuel : nat) (start_time : Z) : M (option unit) :=
  match fuel with
  | O => ret None
  | S fuel' =>
    now <- time_time ;;
    if now - start_time <? RUN_DURATION cfg
    then cycle ;; monitor fuel' start_time
    else ret (Some tt)
  end.

(** [main], lines 118-134. *)
Definition main (fuel : nat) : M (option unit) :=
  setup_logging ;;
  start_time <- time_time ;;
  done <- monitor fuel start_time ;;
  match done with
  | None => ret None
  | Some _ =>
    logging_info "main"
      [Str (lit "macOS performance monitoring completed after the set duration.")] ;;
    ret (Some tt)
  end.

(** The [__main__] block, lines 136-140. *)
Definition program (fuel : nat) : M (option unit) :=
  try_except (main fuel)
    (fun e =>
       match e with
       | KeyboardInterrupt =>
         Some (logging_info "<module>" [Str (lit "Monitoring stopped by user.")] ;;
               ret (Some tt))
       | _ => None
       end).

End Script.

End MacOS.

(** * What a call leaves behind *)

(** No signal is on its way. *)
Definition quiet (s : state) : Prop := pending s = None.

(** The record was written by one of the functions [names]. *)
Definition from (names : list string) (r : LogRecord) : Prop :=
  In (funcName r) names.

(** From [s] to [s']: time has not run backwards, the same thread runs, no
    signal has appeared, and the log has grown by records of the running
    thread, written by the functions [names]. *)
Definition grows (names : list string) (s s' : state) : Prop :=
  clock s <= clock s' /\ thread s' = thread s /\ (quiet s -> quiet s') /\
  exists added, log s' = log s ++ added /\
    Forall (fun r => threadName r = thread s /\ from names r) added.

(** However the call ends, it leaves the state grown in that way. *)
Definition emits {A} (names : list string) (m : M A) : Prop :=
  forall s, grows names s (final (m s)).

(** Under quiet conditions the call returns, and leaves them quiet. *)
Definition returns {A} (m : M A) : Prop :=
  forall s, quiet s -> exists a s', m s = Returned a s' /\ quiet s'.

(** The names under which a signal handler logs. *)
Definition handler_names : list string := ["signal_handler"; "cleanup"].

(** The two records [signal_handler] writes for signal [signum] at [now]. *)
Definition handler_records (now signum : Z) : list LogRecord :=
  [mkRecord INFO MainThread "signal_handler" now
     [Str (lit "Received signal "); Int signum; Str (lit ", cleaning up...")];
   mkRecord INFO MainThread "cleanup" now
     [Str (lit "Cleaning up resources before exiting.")]].

(** A signal due at [at_] has not arrived yet. *)
Definition awaiting (at_ signum : Z) (s : state) : Prop :=
  thread s = MainThread /\ pending s = Some (at_, signum) /\ clock s <= at_.

(** The call was cut short by the signal: the handler ran when the signal
    arrived, wrote its two records and left with [SystemExit(1)]. *)
Definition stopped_at {A} (at_ signum : Z) (o : outcome A) : Prop :=
  exists before,
    o = Raised (SystemExit 1)
          (mkState at_ (before ++ handler_records at_ signum) None MainThread).

(** A call under a signal that is on its way: either the signal cuts it
    short, or the call is over, by a return or an exception, before the
    signal arrives. *)
Definition interruptible {A} (m : M A) : Prop :=
  forall at_ signum s, awaiting at_ signum s ->
    stopped_at at_ signum (m s) \/
    (awaiting at_ signum (final (m s)) /\ forall s', m s <> Blocked s').

(** The number of records of one kind in a log; the kind is told by the
    function that wrote the record and by its message. *)
Definition tally (what : string -> message -> bool) (l : list LogRecord) : nat :=
  List.length (filter (fun r => what (funcName r) (msg r)) l).

(** The call writes at most [n] records of that kind. *)
Definition writes_at_most {A} (what : string -> message -> bool) (n : nat) (m : M A)
  : Prop :=
  forall s, (tally what (log (final (m s))) <= tally what (log s) + n)%nat.

(** None of the functions [names] writes records of that kind. *)
Definition never_by (what : string -> message -> bool) (names : list string) : Prop :=
  forall fn m, In fn names -> what fn m = false.

(** The record with which [main] opens a pass: [logging.info("Collecting
    system stats...")]. *)
Definition collecting (fn : string) (m : message) : bool :=
  String.eqb fn "main" &&
  match m with
  | [Str text] => str_eqb text (lit "Collecting system stats...")
  | _ => false
  end.

(** The number of passes begun, read off the log. *)
Definition cycles_started (l : list LogRecord) : nat := tally collecting l.

(** The call begins at most [n] passes. *)
Definition begins_at_most {A} (n : nat) (m : M A) : Prop :=
  writes_at_most collecting n m.

(** The record with which the Linux [system_info] begins. *)
Definition system_info_header (fn : string) (m : message) : bool :=
  String.eqb fn "system_info" &&
  match m with
  | [Str text] => str_eqb text (lit "System Info:")
  | _ => false
  end.

(** The record with which the macOS [system_info] begins. *)
Definition system_information (fn : string) (m : message) : bool :=
  String.eqb fn "system_info" &&
  match m with
  | [Str text] => str_eqb text (lit "Collecting system information...")
  | _ => false
  end.

(** The record that ends a pass: "Sleeping for ... seconds...". *)
Definition sleeping (fn : string) (m : message) : bool :=
  String.eqb fn "main" &&
  match m with
  | [Str text; Int _; Str _] => str_eqb text (lit "Sleeping for ")
  | _ => false
  end.

(** When the call returns, at least [d] seconds have passed. *)
Definition takes_at_least {A} (d : Z) (m : M A) : Prop :=
  forall s a s', m s = Returned a s' -> clock s + d <= clock s'.

(** [ceil(D / I)] for a positive [I]. *)
Definition ceil_div (D I : Z) : Z := (D + I - 1) / I.

(** The number of passes the specification gives for a run of [D] seconds
    with a pause of [I] seconds: [floor(D / I) + 1], give or take one. *)
Definition count_as_specified (D I : Z) (n : nat) : Prop :=
  Z.abs (Z.of_nat n - (D / I + 1)) <= 1.

(** ** Hosts and states to run the scripts on *)

(** The program starts at time 0 with an empty log. *)
Definition boot : state := mkState 0 [] None MainThread.

(** The same, with signal [signum] due at time [at_]. *)
Definition boot_with_signal (at_ signum : Z) : state :=
  mkState 0 [] (Some (at_, signum)) MainThread.

(** A command that takes [d] seconds, prints [out] and exits with [rc]. *)
Definition prints (d : N) (rc : Z) (out : string) : process :=
  Exits d rc (list_byte_of_string out) [].

Definition any_of (cmds : list string) (cmd : str) : bool :=
  existsb (fun c => str_eqb cmd (lit c)) cmds.

(** Readings of a machine with one disk and two processes, one of them
    busy. *)
Definition idle_psutil (commands : world) : Linux.host :=
  Linux.mkHost commands
    (fun _ => 5 # 2)
    (fun _ => Linux.mkSvmem 8589934592 2147483648 6442450944 (25 # 1))
    (fun _ => [Linux.mkDiskpart (lit "/dev/sda1") (lit "/")])
    (fun _ _ => Some (Linux.mkDiskusage 107374182400 53687091200 53687091200 (50 # 1)))
    (fun _ => Linux.mkNetio 1048576 2097152)
    (fun _ => [Linux.mkPinfo 1 (lit "init") (Some (0 # 1)) (Some (1 # 10));
               Linux.mkPinfo 4242 (lit "stress") (Some (175 # 2)) (Some (16 # 5))])
    (fun _ => Linux.mkSwap 0 0 0 0 0)
    (fun _ => Some [lit "/dev/sda1 / ext4 rw 0 0"]).

(** A host where every command answers at once. *)
Definition instant_world : world :=
  mkWorld (fun _ _ => prints 0 0 "ok") (fun _ => true).

(** A host where [iostat -xm 1 5] and [vmstat 1 5] take the five seconds of
    their five samples, and every other command answers at once. *)
Definition sampling_world : world :=
  mkWorld
    (fun cmd _ =>
       if any_of ["iostat -xm 1 5"; "vmstat 1 5"] cmd
       then prints 5 0 "samples" else prints 0 0 "ok")
    (fun _ => true).

(** Every command started on the host exits, and either fails or prints
    valid UTF-8. *)
Definition commands_settle (w : world) : Prop :=
  forall cmd t,
    match spawn w cmd t with
    | Exits _ rc out _ => rc <> 0 \/ decode out <> None
    | NeverExits => False
    end.

(** [psutil] has a [cpu_percent] for every process it lists. *)
Definition cpu_sampled (h : Linux.host) : Prop :=
  forall t p, In p (Linux.psutil_process_iter h t) -> Linux.cpu_percent p <> None.

(** A host where every command fails at once with status 1. *)
Definition failing_world : world :=
  mkWorld (fun _ _ => Exits 0 1 [] (list_byte_of_string "error")) (fun _ => true).

(** A host where the system log and the name of a process hold a Latin-1
    byte (0xE9), so that the output of [tail -n 50 /var/log/syslog] and of
    [ps aux] is not UTF-8. *)
Definition latin1_world : world :=
  mkWorld
    (fun cmd _ =>
       if any_of ["tail -n 50 /var/log/syslog"; "ps aux"] cmd
       then Exits 0 0 (list_byte_of_string "caf" ++ [Byte.xe9; Byte.x0a]) []
       else prints 0 0 "ok")
    (fun _ => true).

(** The records of lines 126 and 128. *)
Definition cpu_alert (th : thread_id) (t : Z) (v : Q) : LogRecord :=
  mkRecord WARNING th "cpu_memory_stats" t
    [Str (lit "ALERT: CPU usage is high at "); Float v; Str (lit "%")].

Definition memory_alert (th : thread_id) (t : Z) (v : Q) : LogRecord :=
  mkRecord WARNING th "cpu_memory_stats" t
    [Str (lit "ALERT: Memory usage is high at "); Float v; Str (lit "%")].

(** The record of line 173 for one process. *)
Definition high_cpu_warning (th : thread_id) (t : Z) (p : Linux.pinfo) : LogRecord :=
  mkRecord WARNING th "process_stats" t (Linux.high_cpu_message p).

(** The test of line 172, for a process whose [cpu_percent] was read. *)
Definition high_cpu (p : Linux.pinfo) : bool :=
  match Linux.cpu_percent p with
  | Some v => Qltb (50 # 1) v
  | None => false
  end.

(** A host without [lsb_release] and without [nfsstat]: the shell cannot
    find [lsb_release] and exits with status 127. *)
Definition minimal_world : world :=
  mkWorld
    (fun cmd _ =>
       if any_of ["lsb_release -a"] cmd
       then Exits 0 127 [] (list_byte_of_string "/bin/sh: 1: lsb_release: not found")
       else prints 0 0 "ok")
    (fun prog => negb (any_of ["lsb_release"; "nfsstat"] prog)).

(** A host where [lsof] and [topas] never exit. *)
Definition hung_world : world :=
  mkWorld
    (fun cmd _ => if any_of ["lsof"; "topas"] cmd then NeverExits else prints 0 0 "ok")
    (fun _ => true).

(** The record the AIX [run_command] writes for a timeout. *)
Definition timed_out (th : thread_id) (t : Z) (command : str) (timeout : Z) : LogRecord :=
  mkRecord WARNING th "run_command" t
    [Str (lit "Command '"); Str command; Str (lit "' timed out after ");
     Int timeout; Str (lit " seconds.")].

(** The calls that follow [parallel_tasks] in a pass of the AIX script, in
    the order of lines 308-313. *)
Definition AIX_sequential : list string :=
  ["cpu_memory_stats"; "volume_group_stats"; "process_stats"; "paging_stats";
   "filesystem_nfs_stats"; "log_monitoring"].

(** The records come in blocks, one block for each of [probes] in that
    order (a block may be empty); a block holds the records its function
    writes itself and those of [run_command] and of the signal handler. *)
Fixpoint in_order (probes : list string) (l : list LogRecord) : Prop :=
  match probes with
  | [] => l = []
  | probe :: rest =>
    exists mine later,
      l = mine ++ later /\
      Forall (from (probe :: "run_command" :: handler_names)) mine /\
      in_order rest later
  end.

(** The call writes its records in the main thread, one function of
    [probes] after the other. *)
Definition ordered {A} (probes : list string) (m : M A) : Prop :=
  forall s,
    exists added,
      log (final (m s)) = log s ++ added /\
      Forall (fun r => threadName r = thread s) added /\
      in_order probes added.

(** The functions whose records one pass of the Linux script can hold,
    [main] apart. *)
Definition Linux_probe_names : list string :=
  ["cpu_memory_stats"; "disk_stats"; "network_stats"; "process_stats";
   "paging_stats"; "filesystem_stats"; "nfs_stats"; "check_nfs_mounts";
   "log_monitoring"; "run_command"; "signal_handler"; "cleanup"].

(** The same, with [main]. *)
Definition Linux_loop_names : list string := "main" :: Linux_probe_names.

(** What [main] does once [system_info] has written its first record. *)
Definition Linux_after_header cfg h fuel : M (option unit) :=
  (Linux.run_command h (lit "uname -a") ;;
   Linux.run_command h (lit "lsb_release -a")) ;;
  start_time <- time_time Linux.signal_handler ;;
  done <- Linux.monitor cfg h fuel start_time ;;
  match done with
  | None => ret None
  | Some _ =>
    logging_info Linux.signal_handler "main"
      [Str (lit "Linux performance monitoring completed after the set duration.")] ;;
    ret (Some tt)
  end.

(** Every exception that leaves the call satisfies [allowed]. *)
Definition raises_only {A} (allowed : exn -> Prop) (m : M A) : Prop :=
  forall s e s', m s = Raised e s' -> allowed e.

(** The exception a failed command raises. *)
Definition is_CalledProcessError (e : exn) : Prop :=
  match e with
  | CalledProcessError _ _ _ _ => True
  | _ => False
  end.

(** The exception a command that takes too long raises. *)
Definition is_TimeoutExpired (e : exn) : Prop :=
  match e with
  | TimeoutExpired _ _ => True
  | _ => False
  end.

(** The exceptions that can leave the Linux program. *)
Definition Linux_fatal (e : exn) : Prop :=
  e = UnicodeDecodeError \/ e = TypeError \/ e = ValueError \/ e = SystemExit 1.

(** The record of line 217, "Failed to get NFS stats: ...". *)
Definition nfs_failure (fn : string) (m : message) : bool :=
  String.eqb fn "nfs_stats" &&
  match m with
  | Str text :: _ => str_eqb text (lit "Failed to get NFS stats: ")
  | _ => false
  end.

(** The record of the [__main__] block, "Monitoring stopped by user.". *)
Definition stopped_by_user (fn : string) (m : message) : bool :=
  String.eqb fn "<module>".

(** A host where [psutil] could not read the [cpu_percent] of a process. *)
Definition unsampled_host : Linux.host :=
  Linux.mkHost instant_world
    (fun _ => 5 # 2)
    (fun _ => Linux.mkSvmem 8589934592 2147483648 6442450944 (25 # 1))
    (fun _ => [])
    (fun _ _ => None)
    (fun _ => Linux.mkNetio 0 0)
    (fun _ => [Linux.mkPinfo 1 (lit "init") None None])
    (fun _ => Linux.mkSwap 0 0 0 0 0)
    (fun _ => None).

(** Under quiet conditions the call is over, by a return or an exception,
    within [d] seconds, and leaves the conditions quiet. *)
Definition settles_within {A} (d : Z) (m : M A) : Prop :=
  forall s, quiet s ->
    quiet (final (m s)) /\
    clock (final (m s)) <= clock s + d /\
    forall s', m s <> Blocked s'.

(** Under quiet conditions the call can hang only when [R] holds. *)
Definition blocks_only {A} (R : Prop) (m : M A) : Prop :=
  forall s, quiet s ->
    quiet (final (m s)) /\ forall s', m s = Blocked s' -> R.

(** The commands the AIX script runs with a bare [subprocess.run], to list
    the disks, the volume groups and the logical volumes of a group. *)
Definition AIX_enumeration (cmd : str) : Prop :=
  cmd = lit "lspv" \/ cmd = lit "lsvg" \/ exists vg, cmd = lit "lsvg -l " ++ vg.

(** One of these commands never exits on the host. *)
Definition AIX_enumeration_hangs (h : AIX.host) : Prop :=
  exists cmd t, AIX_enumeration cmd /\ spawn (AIX.os h) cmd t = NeverExits.

(** A host where [lspv] answers the first time and hangs from then on. *)
Definition hung_lspv_world : world :=
  mkWorld
    (fun cmd t => if any_of ["lspv"] cmd && (0 <? t) then NeverExits else prints 1 0 "hdisk0")
    (fun _ => true).

(** What a signal does to the macOS script, which traps none: Ctrl-C raises
    [KeyboardInterrupt] where the program is, any other signal ends the
    process (the outcome of [MacOS.default_handler]). *)
Definition signal_exception (signum : Z) : exn :=
  if signum =? SIGINT then KeyboardInterrupt else Killed signum.

(** The call, begun in [s], was cut short when the signal arrived: what it
    had logged until then is kept. *)
Definition broken_at {A} (at_ signum : Z) (s : state) (o : outcome A) : Prop :=
  exists more,
    o = Raised (signal_exception signum) (mkState at_ (log s ++ more) None MainThread).

(** The log of [s'] continues the log of [s]. *)
Definition extends (s s' : state) : Prop :=
  exists more, log s' = log s ++ more.

(** A macOS call under a signal that is on its way: either the signal cuts
    it short, or the call is over before the signal arrives, and then not by
    a [KeyboardInterrupt]. *)
Definition breakable {A} (m : M A) : Prop :=
  forall at_ signum s, awaiting at_ signum s ->
    broken_at at_ signum s (m s) \/
    (awaiting at_ signum (final (m s)) /\ extends s (final (m s)) /\
     forall s', m s <> Blocked s' /\ m s <> Raised KeyboardInterrupt s').

(** The record of [logging.info("Monitoring stopped by user.")], written in
    the [__main__] block at time [at_]. *)
Definition stopped_by_user_record (at_ : Z) : LogRecord :=
  mkRecord INFO MainThread "<module>" at_ [Str (lit "Monitoring stopped by user.")].

(** The warning of the Linux [disk_stats] for a partition it may not read. *)
Definition permission_denied (fn : string) (m : message) : bool :=
  String.eqb fn "disk_stats" &&
  match m with
  | [Str text; Str _] => str_eqb text (lit "Permission denied for ")
  | _ => false
  end.

(** The record with which [disk_stats] begins its report of a partition:
    "Disk <device>:". *)
Definition disk_named (fn : string) (m : message) : bool :=
  String.eqb fn "disk_stats" &&
  match m with
  | [Str text; Str _; Str _] => str_eqb text (lit "Disk ")
  | _ => false
  end.

(** [psutil.disk_usage] can read the partition at time [t]. *)
Definition readable (h : Linux.host) (t : Z) (p : Linux.sdiskpart) : bool :=
  match Linux.psutil_disk_usage h (Linux.mountpoint p) t with
  | Some _ => true
  | None => false
  end.

(** A machine with three partitions, the second of which may not be
    read. *)
Definition guarded_host : Linux.host :=
  Linux.mkHost instant_world
    (fun _ => 5 # 2)
    (fun _ => Linux.mkSvmem 8589934592 2147483648 6442450944 (25 # 1))
    (fun _ => [Linux.mkDiskpart (lit "/dev/sda1") (lit "/");
               Linux.mkDiskpart (lit "/dev/sdb1") (lit "/vault");
               Linux.mkDiskpart (lit "/dev/sdc1") (lit "/home")])
    (fun path _ =>
       if str_eqb path (lit "/vault") then None
       else Some (Linux.mkDiskusage 1073741824 536870912 536870912 (50 # 1)))
    (fun _ => Linux.mkNetio 0 0)
    (fun _ => [])
    (fun _ => Linux.mkSwap 0 0 0 0 0)
    (fun _ => Some []).

(** The exceptions that can end the AIX program. *)
Definition AIX_fatal (e : exn) : Prop :=
  e = UnicodeDecodeError \/ e = IndexError \/ e = ValueError \/ e = SystemExit 1.

(** An AIX host where [errpt] prints a Latin-1 byte (0xE9). *)
Definition AIX_latin1_world : world :=
  mkWorld
    (fun cmd _ =>
       if any_of ["errpt -a | head -n 20"] cmd
       then Exits 0 0 (list_byte_of_string "caf" ++ [Byte.xe9; Byte.x0a]) []
       else prints 0 0 "ok")
    (fun _ => true).

(** An AIX host with one volume group, [rootvg], where the listing of its
    logical volumes has an empty line after the first. *)
Definition blank_line_world : world :=
  mkWorld
    (fun cmd _ =>
       if any_of ["lsvg"] cmd then prints 0 0 "rootvg"
       else if any_of ["lsvg -l rootvg"] cmd
       then Exits 0 0 (list_byte_of_string "rootvg:" ++ [Byte.x0a; Byte.x0a]
                       ++ list_byte_of_string "hd5 boot") []
       else prints 0 0 "ok")
    (fun _ => true).

(** An AIX host where [lspv] prints an empty line between two disks. *)
Definition blank_disk_world : world :=
  mkWorld
    (fun cmd _ =>
       if any_of ["lspv"] cmd
       then Exits 0 0 (list_byte_of_string "hdisk0" ++ [Byte.x0a; Byte.x0a]
                       ++ list_byte_of_string "hdisk1") []
       else prints 0 0 "ok")
    (fun _ => true).

(** The functions that write records in the two threads of an AIX pass,
    and in the calls that follow them. *)
Definition AIX_thread_names : list string :=
  ["disk_stats"; "network_stats"; "run_command"; "signal_handler"; "cleanup"].

Definition AIX_pass_names : list string :=
  ["cpu_memory_stats"; "volume_group_stats"; "process_stats"; "paging_stats";
   "filesystem_nfs_stats"; "log_monitoring"; "run_command"; "signal_handler"; "cleanup"].

(** The functions that write the records of a Linux pass, in the order of
    lines 255-269; [main] opens and closes the pass. *)
Definition Linux_pass_sequence : list string :=
  ["main"; "cpu_memory_stats"; "disk_stats"; "network_stats"; "process_stats";
   "paging_stats"; "filesystem_stats"; "nfs_stats"; "check_nfs_mounts";
   "log_monitoring"; "main"].

(** The same for a macOS pass, lines 123-132. *)
Definition MacOS_pass_sequence : list string :=
  ["system_info"; "cpu_memory_stats"; "disk_stats"; "process_stats"; "network_stats";
   "filesystem_nfs_stats"; "error_logs"; "main"].

Lemma grows_refl names s : grows names s s.
Proof.
  repeat split; try lia; auto.
  exists []. now rewrite app_nil_r.
Qed.

Lemma grows_trans names s1 s2 s3 :
  grows names s1 s2 -> grows names s2 s3 -> grows names s1 s3.
Proof.
  intros (Hc1 & Ht1 & Hq1 & a1 & Hl1 & Ha1) (Hc2 & Ht2 & Hq2 & a2 & Hl2 & Ha2).
  repeat split; try lia; try congruence; auto.
  exists (a1 ++ a2). split.
  - now rewrite Hl2, Hl1, app_assoc.
  - apply Forall_app. split; auto.
    rewrite Ht1 in Ha2. exact Ha2.
Qed.

Lemma grows_weaken names names' s s' :
  incl names names' -> grows names s s' -> grows names' s s'.
Proof.
  intros Hi (Hc & Ht & Hq & a & Hl & Ha).
  repeat split; auto. exists a. split; auto.
  eapply Forall_impl; [| exact Ha]. cbv beta. intros r [? ?]; split; auto.
  now apply Hi.
Qed.

Lemma emits_weaken {A} names names' (m : M A) :
  incl names names' -> emits names m -> emits names' m.
Proof. intros Hi Hm s. eapply grows_weaken; eauto. Qed.

Lemma emits_ret {A} names (a : A) : emits names (ret a).
Proof. intro s. apply grows_refl. Qed.

Lemma emits_raise {A} names e : emits names (@raise A e).
Proof. intro s. apply grows_refl. Qed.

Lemma emits_bind {A B} names (m : M A) (k : A -> M B) :
  emits names m -> (forall a, emits names (k a)) -> emits names (bind m k).
Proof.
  intros Hm Hk s. unfold bind. specialize (Hm s).
  destruct (m s) as [a s1 | e s1 | s1]; simpl in *; auto.
  eapply grows_trans; [exact Hm | apply Hk].
Qed.

Lemma emits_try_except {A} names (m : M A) h :
  emits names m -> (forall e k, h e = Some k -> emits names k) ->
  emits names (try_except m h).
Proof.
  intros Hm Hh s. unfold try_except. specialize (Hm s).
  destruct (m s) as [a s1 | e s1 | s1]; simpl in *; auto.
  destruct (h e) as [k |] eqn:He; simpl; auto.
  eapply grows_trans; [exact Hm | eapply Hh; eauto].
Qed.

Lemma emits_for_each {A} names (xs : list A) body :
  (forall x, emits names (body x)) -> emits names (for_each xs body).
Proof.
  intro Hb. induction xs as [| x xs IH]; simpl.
  - apply emits_ret.
  - apply emits_bind; auto.
Qed.

Lemma emits_when names c m : emits names m -> emits names (when c m).
Proof. intro Hm. destruct c; simpl; auto. apply emits_ret. Qed.

Lemma emits_emit names lvl fn m : In fn names -> emits names (emit lvl fn m).
Proof.
  intros Hin s. simpl. repeat split; simpl; try lia; auto.
  exists [mkRecord lvl (thread s) fn (clock s) m]. split; auto.
Qed.

Lemma emits_exit {A} names code : emits names (@exit A code).
Proof. apply emits_raise. Qed.

Section Signals.

Variable w : world.
Variable on_signal : Z -> M unit.
Hypothesis on_signal_emits : forall signum, emits handler_names (on_signal signum).

Variable names : list string.
Hypothesis handler_allowed : incl handler_names names.

Lemma grows_take_signal now signum s :
  clock s <= now -> grows names s (final (take_signal on_signal now signum s)).
Proof.
  intro Hnow. unfold take_signal.
  destruct (on_signal_emits signum (mkState now (log s) None (thread s)))
    as (Hc & Ht & Hq & a & Hl & Ha); simpl in *.
  repeat split; try lia; auto.
  - intros _. now apply Hq.
  - exists a. split; auto.
    eapply Forall_impl; [| exact Ha]. cbv beta. intros r [? ?]; split; auto.
    now apply handler_allowed.
Qed.

Lemma due_arrival deadline s at_ signum :
  due deadline s = Some (at_, signum) ->
  pending s = Some (at_, signum) /\ thread s = MainThread /\
  match deadline with Some t => at_ < t | None => True end.
Proof.
  unfold due. destruct (pending s) as [[a n] |]; [| discriminate].
  destruct (thread s); [| discriminate].
  destruct deadline as [t |].
  - destruct (a <? t) eqn:E; [| discriminate].
    intro H; inversion H; subst. apply Z.ltb_lt in E. auto.
  - intro H; inversion H; subst. auto.
Qed.

Lemma due_quiet deadline s : quiet s -> due deadline s = None.
Proof. unfold quiet, due. now intros ->. Qed.

Lemma emits_checkpoint : emits names (checkpoint on_signal).
Proof.
  intro s. unfold checkpoint.
  destruct (due _ s) as [[a n] |]; simpl.
  - apply grows_take_signal. lia.
  - apply grows_refl.
Qed.

Lemma emits_advance t : emits names (advance t).
Proof.
  intro s. simpl. repeat split; simpl; try lia; auto.
  exists []. now rewrite app_nil_r.
Qed.

Lemma emits_wait d : emits names (wait on_signal d).
Proof.
  intro s. unfold wait.
  destruct (due _ s) as [[a n] |].
  - unfold bind.
    pose proof (grows_take_signal (Z.max (clock s) a) n s ltac:(lia)) as Hg.
    destruct (take_signal _ _ _ s) as [[] s1 | e s1 | s1]; simpl in *; auto.
    eapply grows_trans; [exact Hg | apply emits_advance].
  - apply emits_advance.
Qed.

Lemma emits_wait_forever {A} : emits names (@wait_forever on_signal A).
Proof.
  intro s. unfold wait_forever.
  destruct (due _ s) as [[a n] |]; simpl.
  - unfold bind.
    pose proof (grows_take_signal (Z.max (clock s) a) n s ltac:(lia)) as Hg.
    destruct (take_signal _ _ _ s) as [[] s1 | e s1 | s1]; simpl in *; auto.
  - apply grows_refl.
Qed.

Lemma emits_logging_log lvl fn m :
  In fn names -> emits names (logging_log on_signal lvl fn m).
Proof.
  intro Hin. unfold logging_log. apply emits_bind.
  - apply emits_checkpoint.
  - intros _. now apply emits_emit.
Qed.

Lemma emits_logging_info fn m :
  In fn names -> emits names (logging_info on_signal fn m).
Proof. apply emits_logging_log. Qed.

Lemma emits_logging_warning fn m :
  In fn names -> emits names (logging_warning on_signal fn m).
Proof. apply emits_logging_log. Qed.

Lemma emits_logging_error fn m :
  In fn names -> emits names (logging_error on_signal fn m).
Proof. apply emits_logging_log. Qed.

Lemma emits_time_time : emits names (time_time on_signal).
Proof.
  unfold time_time. apply emits_bind; [apply emits_checkpoint |].
  intros _ s. apply grows_refl.
Qed.

Lemma emits_time_sleep secs : emits names (time_sleep on_signal secs).
Proof.
  unfold time_sleep. apply emits_bind; [apply emits_checkpoint |].
  intros _. destruct (secs <? 0); [apply emits_raise | apply emits_wait].
Qed.

Lemma emits_shutil_which prog : emits names (shutil_which w on_signal prog).
Proof.
  unfold shutil_which. apply emits_bind; [apply emits_checkpoint |].
  intros _. apply emits_ret.
Qed.

Lemma emits_subprocess_run cmd check timeout :
  emits names (subprocess_run w on_signal cmd check timeout).
Proof.
  unfold subprocess_run. apply emits_bind; [apply emits_checkpoint |].
  intros _ s.
  assert (Hfin : forall d rc out err,
    emits names (wait on_signal (Z.of_N d) ;;
                 if check && negb (rc =? 0)
                 then raise (CalledProcessError rc cmd out err)
                 else ret (mkCompleted rc out err))).
  { intros. apply emits_bind; [apply emits_wait |].
    intros _. destruct (check && negb (rc =? 0)); [apply emits_raise | apply emits_ret]. }
  assert (Hexp : forall T,
    emits names (wait on_signal (Z.max 0 T) ;; @raise CompletedProcess (TimeoutExpired cmd T))).
  { intros. apply emits_bind; [apply emits_wait |]. intros _. apply emits_raise. }
  destruct (spawn w cmd (clock s)) as [d rc out err |]; destruct timeout as [T |].
  - destruct (Z.of_N d <=? T); [apply Hfin | apply Hexp].
  - apply Hfin.
  - apply Hexp.
  - apply emits_wait_forever.
Qed.

End Signals.

(** Membership and inclusion between explicit lists of names. *)
Ltac names_tac :=
  first [ solve [ simpl; tauto ]
        | solve [ let x := fresh in let Hx := fresh in
                  intros x Hx; simpl in *; tauto ] ].

Create HintDb emits.

#[export] Hint Resolve emits_ret emits_raise emits_exit emits_bind emits_for_each
  emits_when emits_emit emits_checkpoint emits_wait emits_wait_forever
  emits_logging_log emits_logging_info emits_logging_warning emits_logging_error
  emits_time_time emits_time_sleep emits_shutil_which
  emits_subprocess_run : emits.
#[export] Hint Extern 1 (In _ _) => names_tac : emits.
#[export] Hint Extern 1 (incl _ _) => names_tac : emits.

Ltac emits_step :=
  match goal with
  | |- emits _ (bind _ _) => apply emits_bind; [| intros ?]
  | |- emits _ (try_except _ _) =>
    apply emits_try_except;
    [| let e := fresh "e" in let k := fresh "k" in let H := fresh "H" in
       intros e k H; destruct e; simpl in H; inversion H; subst; clear H]
  | |- emits _ (for_each _ _) => apply emits_for_each; intros ?
  | |- emits _ (when _ _) => apply emits_when
  | |- emits _ (if ?c then _ else _) => destruct c
  | |- emits _ (match ?x with _ => _ end) => destruct x
  end.

Ltac emits_tac := intros; repeat emits_step; auto 6 with emits.

(** ** Calls under a signal that is on its way *)

Lemma interruptible_ret {A} (a : A) : interruptible (ret a).
Proof. intros at_ n s Hs. right. split; [exact Hs | discriminate]. Qed.

Lemma interruptible_raise {A} e : interruptible (@raise A e).
Proof. intros at_ n s Hs. right. split; [exact Hs | discriminate]. Qed.

Lemma interruptible_bind {A B} (m : M A) (k : A -> M B) :
  interruptible m -> (forall a, interruptible (k a)) -> interruptible (bind m k).
Proof.
  intros Hm Hk at_ n s Hs. unfold bind.
  destruct (Hm at_ n s Hs) as [[before Hstop] | [Hgo Hnb]].
  - left. exists before. now rewrite Hstop.
  - destruct (m s) as [a s1 | e s1 | s1]; simpl in *.
    + apply Hk. exact Hgo.
    + right. split; [exact Hgo | discriminate].
    + now elim (Hnb s1).
Qed.

Lemma interruptible_try_except {A} (m : M A) h :
  interruptible m -> h (SystemExit 1) = None ->
  (forall e k, h e = Some k -> interruptible k) ->
  interruptible (try_except m h).
Proof.
  intros Hm Hexit Hh at_ n s Hs. unfold try_except.
  destruct (Hm at_ n s Hs) as [[before Hstop] | [Hgo Hnb]].
  - left. exists before. now rewrite Hstop, Hexit.
  - destruct (m s) as [a s1 | e s1 | s1]; simpl in *.
    + right. split; [exact Hgo | discriminate].
    + destruct (h e) as [k |] eqn:He.
      * eapply Hh; eauto.
      * right. split; [exact Hgo | discriminate].
    + now elim (Hnb s1).
Qed.

Lemma interruptible_for_each {A} (xs : list A) body :
  (forall x, interruptible (body x)) -> interruptible (for_each xs body).
Proof.
  intro Hb. induction xs as [| x xs IH]; simpl.
  - apply interruptible_ret.
  - apply interruptible_bind; auto.
Qed.

Lemma interruptible_when c m : interruptible m -> interruptible (when c m).
Proof. intro Hm. destruct c; simpl; auto. apply interruptible_ret. Qed.

Lemma interruptible_emit lvl fn m : interruptible (emit lvl fn m).
Proof. intros at_ n s Hs. right. split; [exact Hs | discriminate]. Qed.

Lemma interruptible_advance t :
  forall at_ n s, awaiting at_ n s -> t <= at_ ->
    awaiting at_ n (final (advance t s)) /\ forall s', advance t s <> Blocked s'.
Proof.
  intros at_ n s (Ht & Hp & Hc) Hle. split; [| discriminate].
  repeat split; simpl; auto. lia.
Qed.

(** The handler of the Linux script, run when its signal arrives. *)
Lemma Linux_take_signal at_ n s :
  thread s = MainThread ->
  @stopped_at unit at_ n (take_signal Linux.signal_handler at_ n s).
Proof.
  intro Ht. exists (log s). unfold take_signal, Linux.signal_handler, Linux.cleanup, exit.
  cbn. rewrite Ht. now rewrite <- app_assoc.
Qed.

Lemma due_awaiting deadline at_ n s :
  awaiting at_ n s ->
  due deadline s =
  match deadline with
  | Some t => if at_ <? t then Some (at_, n) else None
  | None => Some (at_, n)
  end.
Proof. intros (Ht & Hp & _). unfold due. now rewrite Hp, Ht. Qed.

Lemma interruptible_checkpoint : interruptible (checkpoint Linux.signal_handler).
Proof.
  intros at_ n s Hs. unfold checkpoint. rewrite (due_awaiting _ at_ n s Hs).
  destruct Hs as (Ht & Hp & Hc).
  destruct (at_ <? clock s + 1) eqn:E.
  - left. apply Z.ltb_lt in E. replace (clock s) with at_ by lia.
    now apply Linux_take_signal.
  - right. split; [repeat split; auto | discriminate].
Qed.

Lemma interruptible_wait d : interruptible (wait Linux.signal_handler d).
Proof.
  intros at_ n s Hs. unfold wait. rewrite (due_awaiting _ at_ n s Hs).
  destruct (at_ <? clock s + d) eqn:E.
  - left. destruct Hs as (Ht & Hp & Hc).
    replace (Z.max (clock s) at_) with at_ by lia. unfold bind.
    destruct (Linux_take_signal at_ n s Ht) as [before ->]. now exists before.
  - right. apply Z.ltb_ge in E. apply interruptible_advance; auto.
Qed.

Lemma interruptible_wait_forever {A} : interruptible (@wait_forever Linux.signal_handler A).
Proof.
  intros at_ n s Hs. unfold wait_forever. rewrite (due_awaiting _ at_ n s Hs).
  left. destruct Hs as (Ht & Hp & Hc).
  replace (Z.max (clock s) at_) with at_ by lia. unfold bind.
  destruct (Linux_take_signal at_ n s Ht) as [before ->]. now exists before.
Qed.

Lemma interruptible_logging_log lvl fn m :
  interruptible (logging_log Linux.signal_handler lvl fn m).
Proof.
  unfold logging_log. apply interruptible_bind.
  - apply interruptible_checkpoint.
  - intros _. apply interruptible_emit.
Qed.

Lemma interruptible_logging_info fn m :
  interruptible (logging_info Linux.signal_handler fn m).
Proof. apply interruptible_logging_log. Qed.

Lemma interruptible_logging_warning fn m :
  interruptible (logging_warning Linux.signal_handler fn m).
Proof. apply interruptible_logging_log. Qed.

Lemma interruptible_logging_error fn m :
  interruptible (logging_error Linux.signal_handler fn m).
Proof. apply interruptible_logging_log. Qed.

Lemma interruptible_time_time : interruptible (time_time Linux.signal_handler).
Proof.
  unfold time_time. apply interruptible_bind; [apply interruptible_checkpoint |].
  intros _ at_ n s Hs. right. split; [exact Hs | discriminate].
Qed.

Lemma interruptible_time_sleep secs : interruptible (time_sleep Linux.signal_handler secs).
Proof.
  unfold time_sleep. apply interruptible_bind; [apply interruptible_checkpoint |].
  intros _. destruct (secs <? 0); [apply interruptible_raise | apply interruptible_wait].
Qed.

Lemma interruptible_shutil_which w prog :
  interruptible (shutil_which w Linux.signal_handler prog).
Proof.
  unfold shutil_which. apply interruptible_bind; [apply interruptible_checkpoint |].
  intros _. apply interruptible_ret.
Qed.

Lemma interruptible_subprocess_run w cmd check timeout :
  interruptible (subprocess_run w Linux.signal_handler cmd check timeout).
Proof.
  unfold subprocess_run. apply interruptible_bind; [apply interruptible_checkpoint |].
  intros _ at_ n s.
  assert (Hfin : forall d rc out err,
    interruptible (wait Linux.signal_handler (Z.of_N d) ;;
                   if check && negb (rc =? 0)
                   then raise (CalledProcessError rc cmd out err)
                   else ret (mkCompleted rc out err))).
  { intros. apply interruptible_bind; [apply interruptible_wait |].
    intros _. destruct (check && negb (rc =? 0));
      [apply interruptible_raise | apply interruptible_ret]. }
  assert (Hexp : forall T,
    interruptible (wait Linux.signal_handler (Z.max 0 T) ;;
                   @raise CompletedProcess (TimeoutExpired cmd T))).
  { intros. apply interruptible_bind; [apply interruptible_wait |].
    intros _. apply interruptible_raise. }
  destruct (spawn w cmd (clock s)) as [d rc out err |]; destruct timeout as [T |].
  - destruct (Z.of_N d <=? T); [apply Hfin | apply Hexp].
  - apply Hfin.
  - apply Hexp.
  - apply interruptible_wait_forever.
Qed.

Create HintDb interruptible.

#[export] Hint Resolve interruptible_ret interruptible_raise interruptible_bind
  interruptible_for_each interruptible_when interruptible_emit
  interruptible_checkpoint interruptible_wait interruptible_wait_forever
  interruptible_logging_log interruptible_logging_info interruptible_logging_warning
  interruptible_logging_error interruptible_time_time interruptible_time_sleep
  interruptible_shutil_which interruptible_subprocess_run : interruptible.

Ltac interruptible_step :=
  match goal with
  | |- interruptible (bind _ _) => apply interruptible_bind; [| intros ?]
  | |- interruptible (try_except _ _) =>
    apply interruptible_try_except;
    [| reflexivity
     | let e := fresh "e" in let k := fresh "k" in let H := fresh "H" in
       intros e k H; destruct e; simpl in H; inversion H; subst; clear H]
  | |- interruptible (for_each _ _) => apply interruptible_for_each; intros ?
  | |- interruptible (when _ _) => apply interruptible_when
  | |- interruptible (if ?c then _ else _) => destruct c
  | |- interruptible (match ?x with _ => _ end) => destruct x
  end.

Ltac interruptible_tac := intros; repeat interruptible_step; auto 6 with interruptible.

(** ** Calls under quiet conditions *)

Lemma returns_ret {A} (a : A) : returns (ret a).
Proof. intros s Hs. now exists a, s. Qed.

Lemma returns_bind {A B} (m : M A) (k : A -> M B) :
  returns m -> (forall a, returns (k a)) -> returns (bind m k).
Proof.
  intros Hm Hk s Hs. unfold bind.
  destruct (Hm s Hs) as (a & s1 & -> & Hs1). now apply Hk.
Qed.

Lemma returns_try_except {A} (m : M A) h : returns m -> returns (try_except m h).
Proof.
  intros Hm s Hs. unfold try_except.
  destruct (Hm s Hs) as (a & s1 & -> & Hs1). now exists a, s1.
Qed.

Lemma returns_for_each {A} (xs : list A) body :
  (forall x, In x xs -> returns (body x)) -> returns (for_each xs body).
Proof.
  induction xs as [| x xs IH]; simpl; intro Hb.
  - apply returns_ret.
  - apply returns_bind; auto.
Qed.

Lemma returns_when c m : returns m -> returns (when c m).
Proof. intro Hm. destruct c; simpl; auto. apply returns_ret. Qed.

Lemma returns_emit lvl fn m : returns (emit lvl fn m).
Proof. intros s Hs. simpl. eexists _, _. split; [reflexivity | exact Hs]. Qed.

Section Quiet.

Variable w : world.
Variable on_signal : Z -> M unit.

Lemma checkpoint_quiet s : quiet s -> checkpoint on_signal s = Returned tt s.
Proof. intro Hs. unfold checkpoint. now rewrite due_quiet. Qed.

Lemma wait_quiet d s : quiet s -> wait on_signal d s = advance (clock s + d) s.
Proof. intro Hs. unfold wait. now rewrite due_quiet. Qed.

Lemma wait_forever_quiet {A} s : quiet s -> @wait_forever on_signal A s = Blocked s.
Proof. intro Hs. unfold wait_forever. now rewrite due_quiet. Qed.

Lemma logging_log_quiet lvl fn m s :
  quiet s -> logging_log on_signal lvl fn m s = emit lvl fn m s.
Proof. intro Hs. unfold logging_log, bind. now rewrite checkpoint_quiet. Qed.

Lemma returns_checkpoint : returns (checkpoint on_signal).
Proof. intros s Hs. rewrite checkpoint_quiet by auto. now exists tt, s. Qed.

Lemma returns_wait d : returns (wait on_signal d).
Proof.
  intros s Hs. rewrite wait_quiet by auto. eexists _, _. split; [reflexivity | exact Hs].
Qed.

Lemma returns_logging_log lvl fn m : returns (logging_log on_signal lvl fn m).
Proof.
  unfold logging_log. apply returns_bind; [apply returns_checkpoint |].
  intros _. apply returns_emit.
Qed.

Lemma returns_logging_info fn m : returns (logging_info on_signal fn m).
Proof. apply returns_logging_log. Qed.

Lemma returns_logging_warning fn m : returns (logging_warning on_signal fn m).
Proof. apply returns_logging_log. Qed.

Lemma returns_logging_error fn m : returns (logging_error on_signal fn m).
Proof. apply returns_logging_log. Qed.

Lemma returns_time_time : returns (time_time on_signal).
Proof.
  unfold time_time. apply returns_bind; [apply returns_checkpoint |].
  intros _ s Hs. now exists (clock s), s.
Qed.

Lemma returns_time_sleep secs : 0 <= secs -> returns (time_sleep on_signal secs).
Proof.
  intro Hsecs. unfold time_sleep. apply returns_bind; [apply returns_checkpoint |].
  intros _. destruct (secs <? 0) eqn:E; [apply Z.ltb_lt in E; lia | apply returns_wait].
Qed.

Lemma returns_shutil_which prog : returns (shutil_which w on_signal prog).
Proof.
  unfold shutil_which. apply returns_bind; [apply returns_checkpoint |].
  intros _. apply returns_ret.
Qed.

End Quiet.

Create HintDb returns.

#[export] Hint Resolve returns_ret returns_bind returns_try_except returns_when
  returns_emit returns_checkpoint returns_wait returns_logging_log
  returns_logging_info returns_logging_warning returns_logging_error
  returns_time_time returns_time_sleep returns_shutil_which : returns.

Ltac returns_step :=
  match goal with
  | |- returns (bind _ _) => apply returns_bind; [| intros ?]
  | |- returns (try_except _ _) => apply returns_try_except
  | |- returns (when _ _) => apply returns_when
  | |- returns (if ?c then _ else _) => destruct c
  end.

Ltac returns_tac := intros; repeat returns_step; auto 6 with returns.

(** * The Linux script, function by function *)

Lemma Linux_signal_handler_emits signum :
  emits handler_names (Linux.signal_handler signum).
Proof. unfold Linux.signal_handler, Linux.cleanup. emits_tac. Qed.

#[export] Hint Resolve Linux_signal_handler_emits : emits.

Section LinuxEmits.

Variable cfg : Linux.config.
Variable h : Linux.host.
Variable names : list string.
Hypothesis handler_allowed : incl handler_names names.
Hypothesis run_command_allowed : In "run_command" names.

Lemma Linux_sample_emits {A} (reading : Z -> A) : emits names (Linux.sample reading).
Proof.
  unfold Linux.sample. apply emits_bind; [emits_tac |].
  intros _ s. apply grows_refl.
Qed.

Lemma Linux_decode_emits b : emits names (Linux.decode_utf8 b).
Proof. unfold Linux.decode_utf8. emits_tac. Qed.

Hint Resolve Linux_sample_emits Linux_decode_emits : emits.

Lemma Linux_run_command_emits c : emits names (Linux.run_command h c).
Proof. unfold Linux.run_command. emits_tac. Qed.

Hint Resolve Linux_run_command_emits : emits.

Lemma Linux_cpu_memory_stats_emits :
  In "cpu_memory_stats" names -> emits names (Linux.cpu_memory_stats cfg h).
Proof. unfold Linux.cpu_memory_stats. emits_tac. Qed.

Lemma Linux_disk_usage_emits path : emits names (Linux.disk_usage h path).
Proof. unfold Linux.disk_usage. emits_tac. Qed.

Hint Resolve Linux_disk_usage_emits : emits.

Lemma Linux_disk_stats_emits :
  In "disk_stats" names -> emits names (Linux.disk_stats h).
Proof. unfold Linux.disk_stats. emits_tac. Qed.

Lemma Linux_network_stats_emits :
  In "network_stats" names -> emits names (Linux.network_stats h).
Proof. unfold Linux.network_stats. emits_tac. Qed.

Lemma Linux_greater_emits x limit : emits names (Linux.greater x limit).
Proof. unfold Linux.greater. emits_tac. Qed.

Hint Resolve Linux_greater_emits : emits.

Lemma Linux_check_process_emits p :
  In "process_stats" names -> emits names (Linux.check_process p).
Proof. unfold Linux.check_process. emits_tac. Qed.

Hint Resolve Linux_check_process_emits : emits.

Lemma Linux_process_stats_emits :
  In "process_stats" names -> emits names (Linux.process_stats h).
Proof. unfold Linux.process_stats. emits_tac. Qed.

Lemma Linux_paging_stats_emits :
  In "paging_stats" names -> emits names (Linux.paging_stats h).
Proof. unfold Linux.paging_stats. emits_tac. Qed.

Lemma Linux_filesystem_stats_emits :
  In "filesystem_stats" names -> emits names (Linux.filesystem_stats h).
Proof. unfold Linux.filesystem_stats. emits_tac. Qed.

Lemma Linux_nfs_stats_emits :
  In "nfs_stats" names -> emits names (Linux.nfs_stats h).
Proof. unfold Linux.nfs_stats. emits_tac. Qed.

Lemma Linux_read_proc_mounts_emits : emits names (Linux.read_proc_mounts h).
Proof. unfold Linux.read_proc_mounts. emits_tac. Qed.

Hint Resolve Linux_read_proc_mounts_emits : emits.

Lemma Linux_check_nfs_mounts_emits :
  In "check_nfs_mounts" names -> emits names (Linux.check_nfs_mounts h).
Proof. unfold Linux.check_nfs_mounts. emits_tac. Qed.

Lemma Linux_log_monitoring_emits :
  In "log_monitoring" names -> emits names (Linux.log_monitoring h).
Proof. unfold Linux.log_monitoring. emits_tac. Qed.

Lemma Linux_system_info_emits :
  In "system_info" names -> emits names (Linux.system_info h).
Proof. unfold Linux.system_info. emits_tac. Qed.

End LinuxEmits.

Lemma Linux_collect_emits cfg h : emits Linux_probe_names (Linux.collect cfg h).
Proof.
  unfold Linux.collect. repeat emits_step.
  - apply Linux_cpu_memory_stats_emits; names_tac.
  - apply Linux_disk_stats_emits; names_tac.
  - apply Linux_network_stats_emits; names_tac.
  - apply Linux_process_stats_emits; names_tac.
  - apply Linux_paging_stats_emits; names_tac.
  - apply Linux_filesystem_stats_emits; names_tac.
  - apply Linux_nfs_stats_emits; names_tac.
  - apply Linux_check_nfs_mounts_emits; names_tac.
  - apply Linux_log_monitoring_emits; names_tac.
Qed.

(** ** How many passes, and how long *)

Lemma tally_app what l1 l2 :
  tally what (l1 ++ l2) = (tally what l1 + tally what l2)%nat.
Proof. unfold tally. now rewrite filter_app, length_app. Qed.

Lemma tally_others what names l :
  never_by what names -> Forall (from names) l -> tally what l = 0%nat.
Proof.
  intros Hnever Hall. unfold tally.
  induction Hall as [| r l Hr Hl IH]; simpl; auto.
  now rewrite (Hnever _ _ Hr).
Qed.

Lemma grows_tally what names s s' :
  never_by what names -> grows names s s' -> tally what (log s') = tally what (log s).
Proof.
  intros Hnever (_ & _ & _ & added & -> & Hall).
  rewrite tally_app, (tally_others what names added); auto.
  eapply Forall_impl; [| exact Hall]. cbv beta. tauto.
Qed.

Lemma writes_none {A} what names (m : M A) :
  never_by what names -> emits names m -> writes_at_most what 0 m.
Proof.
  intros Hnever Hm s. rewrite (grows_tally what names s); auto. lia.
Qed.

Lemma writes_bind {A B} what a b (m : M A) (k : A -> M B) :
  writes_at_most what a m -> (forall x, writes_at_most what b (k x)) ->
  writes_at_most what (a + b) (bind m k).
Proof.
  intros Hm Hk s. unfold bind. specialize (Hm s).
  destruct (m s) as [x s1 | e s1 | s1]; simpl in *; try lia.
  specialize (Hk x s1). lia.
Qed.

Lemma writes_logging_log what on_signal lvl fn m :
  (forall signum, emits handler_names (on_signal signum)) ->
  never_by what handler_names ->
  writes_at_most what (if what fn m then 1 else 0) (logging_log on_signal lvl fn m).
Proof.
  intros Hh Hnever s. unfold logging_log, bind.
  pose proof (emits_checkpoint on_signal Hh handler_names (incl_refl _) s) as Hg.
  apply (grows_tally what _ _ _ Hnever) in Hg.
  destruct (checkpoint on_signal s) as [[] s1 | e s1 | s1]; simpl in *; try lia.
  rewrite tally_app, Hg. unfold tally at 2. simpl.
  destruct (what fn m); simpl; lia.
Qed.

(** A kind of record that one function alone writes. *)
Ltac never_tac :=
  let fn := fresh "fn" in let m := fresh "m" in let Hin := fresh "Hin" in
  intros fn m Hin; simpl in Hin;
  repeat (destruct Hin as [<- | Hin]; [reflexivity |]); contradiction.

Lemma collecting_not_main names : ~ In "main" names -> never_by collecting names.
Proof.
  intros Hmain fn m Hin. unfold collecting.
  destruct (String.eqb_spec fn "main") as [-> | _]; [contradiction | reflexivity].
Qed.

Lemma grows_cycles_started names s s' :
  ~ In "main" names -> grows names s s' ->
  cycles_started (log s') = cycles_started (log s).
Proof. intro Hmain. apply grows_tally. now apply collecting_not_main. Qed.

Lemma begins_none {A} names (m : M A) :
  ~ In "main" names -> emits names m -> begins_at_most 0 m.
Proof. intro Hmain. apply writes_none. now apply collecting_not_main. Qed.

Lemma begins_bind {A B} a b (m : M A) (k : A -> M B) :
  begins_at_most a m -> (forall x, begins_at_most b (k x)) ->
  begins_at_most (a + b) (bind m k).
Proof. apply writes_bind. Qed.

Lemma handler_names_not_main : ~ In "main" handler_names.
Proof. simpl. intuition discriminate. Qed.

Lemma begins_logging_log on_signal lvl fn m :
  (forall signum, emits handler_names (on_signal signum)) ->
  begins_at_most (if collecting fn m then 1 else 0) (logging_log on_signal lvl fn m).
Proof.
  intro Hh. apply writes_logging_log; auto.
  apply collecting_not_main, handler_names_not_main.
Qed.

Lemma takes_none {A} names (m : M A) : emits names m -> takes_at_least 0 m.
Proof.
  intros Hm s a s' E. destruct (Hm s) as (Hc & _). rewrite E in Hc. simpl in Hc. lia.
Qed.

Lemma takes_bind {A B} a b (m : M A) (k : A -> M B) :
  takes_at_least a m -> (forall x, takes_at_least b (k x)) ->
  takes_at_least (a + b) (bind m k).
Proof.
  intros Hm Hk s y s' E. unfold bind in E.
  destruct (m s) as [x s1 | e s1 | s1] eqn:E1; try discriminate.
  specialize (Hm _ _ _ E1). specialize (Hk _ _ _ _ E). lia.
Qed.

Lemma Linux_take_signal_raises now n s a s' :
  take_signal Linux.signal_handler now n s <> Returned a s'.
Proof. unfold take_signal. cbn. discriminate. Qed.

Lemma Linux_time_sleep_takes secs :
  takes_at_least secs (time_sleep Linux.signal_handler secs).
Proof.
  intros s a s' E. unfold time_sleep, bind in E.
  pose proof (emits_checkpoint _ Linux_signal_handler_emits handler_names (incl_refl _) s)
    as (Hc & _).
  destruct (checkpoint Linux.signal_handler s) as [[] s1 | e s1 | s1]; try discriminate.
  simpl in Hc. destruct (secs <? 0); [discriminate |].
  unfold wait in E. destruct (due _ s1) as [[at_ n] |].
  - unfold bind in E.
    destruct (take_signal _ _ _ s1) as [[] s2 | e s2 | s2] eqn:E2; discriminate.
  - inversion E; subst. simpl. lia.
Qed.

Lemma ceil_div_pos x I : 0 < I -> 0 < x -> 1 <= ceil_div x I.
Proof.
  intros HI Hx. unfold ceil_div.
  replace (x + I - 1) with ((x - 1) + 1 * I) by lia.
  rewrite Z.div_add by lia.
  pose proof (Z.div_pos (x - 1) I). lia.
Qed.

Lemma ceil_div_step x y I : 0 < I -> y + I <= x -> ceil_div y I + 1 <= ceil_div x I.
Proof.
  intros HI Hy. unfold ceil_div.
  replace ((y + I - 1) / I + 1) with ((y + I - 1 + 1 * I) / I).
  - apply Z.div_le_mono; lia.
  - rewrite Z.div_add by lia. reflexivity.
Qed.

Lemma ceil_div_nonpos x I : 0 < I -> x <= 0 -> ceil_div x I <= 0.
Proof.
  intros HI Hx. unfold ceil_div.
  assert ((x + I - 1) / I < 1); [| lia].
  apply Z.div_lt_upper_bound; lia.
Qed.

Lemma ceil_div_floor D I : 0 < I -> ceil_div D I <= D / I + 1.
Proof.
  intro HI. unfold ceil_div.
  replace (D / I + 1) with ((D + 1 * I) / I) by (rewrite Z.div_add by lia; reflexivity).
  apply Z.div_le_mono; lia.
Qed.

Lemma bind_unfold {A B} (m : M A) (k : A -> M B) s :
  bind m k s =
  match m s with
  | Returned a s' => k a s'
  | Raised e s' => Raised e s'
  | Blocked s' => Blocked s'
  end.
Proof. reflexivity. Qed.

Lemma time_time_returned on_signal s now s1 :
  time_time on_signal s = Returned now s1 -> now = clock s1.
Proof.
  unfold time_time, bind.
  destruct (checkpoint on_signal s) as [[] s0 | e s0 | s0]; try discriminate.
  intro E. now inversion E.
Qed.

Lemma Linux_cycle_begins cfg h : begins_at_most 1 (Linux.cycle cfg h).
Proof.
  unfold Linux.cycle.
  apply (begins_bind 1 0); [apply (begins_logging_log _ INFO "main"); emits_tac |].
  intros _. apply (begins_bind 0 0).
  { apply (begins_none Linux_probe_names); [| apply Linux_collect_emits].
    simpl. intuition discriminate. }
  intros _. apply (begins_bind 0 0).
  { apply (begins_logging_log _ INFO "main"); emits_tac. }
  intros _. apply (begins_none handler_names); [apply handler_names_not_main | emits_tac].
Qed.

Lemma Linux_cycle_takes cfg h :
  takes_at_least (Linux.CHECK_INTERVAL cfg) (Linux.cycle cfg h).
Proof.
  unfold Linux.cycle.
  apply (takes_bind 0); [apply (takes_none ["main"; "signal_handler"; "cleanup"]); emits_tac |].
  intros _. apply (takes_bind 0); [apply (takes_none _ _ (Linux_collect_emits cfg h)) |].
  intros _. apply (takes_bind 0);
    [apply (takes_none ["main"; "signal_handler"; "cleanup"]); emits_tac |].
  intros _. apply Linux_time_sleep_takes.
Qed.

Lemma Linux_monitor_bound cfg h :
  0 < Linux.CHECK_INTERVAL cfg ->
  forall fuel start s,
    start <= clock s ->
    (Z.to_nat (ceil_div (Linux.RUN_DURATION cfg - (clock s - start))
                        (Linux.CHECK_INTERVAL cfg)) < fuel)%nat ->
    (forall s', Linux.monitor cfg h fuel start s <> Returned None s') /\
    Z.of_nat (cycles_started (log (final (Linux.monitor cfg h fuel start s))))
    <= Z.of_nat (cycles_started (log s))
       + Z.max 0 (ceil_div (Linux.RUN_DURATION cfg - (clock s - start))
                           (Linux.CHECK_INTERVAL cfg)).
Proof.
  intro HI. unfold cycles_started. set (I := Linux.CHECK_INTERVAL cfg) in *.
  set (D := Linux.RUN_DURATION cfg).
  induction fuel as [| fuel IH]; intros start s Hstart Hfuel; [lia |].
  cbn [Linux.monitor]. rewrite bind_unfold.
  pose proof (emits_time_time _ Linux_signal_handler_emits handler_names (incl_refl _) s)
    as Hg.
  pose proof (grows_cycles_started _ _ _ handler_names_not_main Hg) as Hn.
  unfold cycles_started in Hn.
  destruct Hg as (Hc & _).
  destruct (time_time Linux.signal_handler s) as [now s1 | e s1 | s1] eqn:E1;
    cbn [final] in Hc, Hn; [| cbn [final]; split; [discriminate | lia] ..].
  apply time_time_returned in E1. subst now. fold D.
  destruct (clock s1 - start <? D) eqn:Elt.
  - apply Z.ltb_lt in Elt.
    pose proof (ceil_div_pos (D - (clock s1 - start)) I HI ltac:(lia)) as Hpos.
    pose proof (ceil_div_step (D - (clock s1 - start)) (D - (clock s1 - start) - I) I
                  HI ltac:(lia)) as Hstep1.
    assert (Hmono : forall x y, x <= y -> ceil_div x I <= ceil_div y I).
    { intros x y Hxy. unfold ceil_div. apply Z.div_le_mono; lia. }
    pose proof (Hmono (D - (clock s1 - start)) (D - (clock s - start)) ltac:(lia)) as Hm1.
    rewrite bind_unfold.
    pose proof (Linux_cycle_begins cfg h s1) as Hb.
    pose proof (Linux_cycle_takes cfg h s1) as Ht.
    destruct (Linux.cycle cfg h s1) as [[] s2 | e s2 | s2];
      unfold begins_at_most, writes_at_most in Hb; cbn [final] in Hb;
      [| cbn [final]; split; [discriminate | lia] ..].
    specialize (Ht tt s2 eq_refl). fold I in Ht.
    pose proof (Hmono (D - (clock s2 - start)) (D - (clock s1 - start) - I) ltac:(lia)) as Hm2.
    destruct (IH start s2 ltac:(lia) ltac:(lia)) as [Hnone Hcount].
    split; [exact Hnone | lia].
  - cbn [final ret]. split; [discriminate | lia].
Qed.

Lemma Linux_main_bound cfg h fuel s :
  0 < Linux.CHECK_INTERVAL cfg ->
  (Z.to_nat (ceil_div (Linux.RUN_DURATION cfg) (Linux.CHECK_INTERVAL cfg)) < fuel)%nat ->
  (forall s', Linux.main cfg h fuel s <> Returned None s') /\
  Z.of_nat (cycles_started (log (final (Linux.main cfg h fuel s))))
  <= Z.of_nat (cycles_started (log s))
     + Z.max 0 (ceil_div (Linux.RUN_DURATION cfg) (Linux.CHECK_INTERVAL cfg)).
Proof.
  intros HI Hfuel. unfold Linux.main, cycles_started.
  rewrite bind_unfold.
  assert (H1 : writes_at_most collecting 0
                 (logging_info Linux.signal_handler "main"
                    [Str (lit "Starting Linux performance monitoring...")]))
    by (apply (begins_logging_log _ INFO "main"); emits_tac).
  specialize (H1 s).
  destruct (logging_info _ _ _ s) as [[] s1 | e s1 | s1];
    unfold writes_at_most in H1; cbn [final] in H1; [| cbn [final]; split; [discriminate | lia] ..].
  rewrite bind_unfold.
  assert (H2 : writes_at_most collecting 0 (Linux.system_info h)).
  { apply (begins_none ["system_info"; "run_command"; "signal_handler"; "cleanup"]).
    - simpl. intuition discriminate.
    - apply Linux_system_info_emits; names_tac. }
  specialize (H2 s1).
  destruct (Linux.system_info h s1) as [[] s2 | e s2 | s2];
    unfold writes_at_most in H2; cbn [final] in H2; [| cbn [final]; split; [discriminate | lia] ..].
  rewrite bind_unfold.
  pose proof (emits_time_time _ Linux_signal_handler_emits handler_names (incl_refl _) s2)
    as H3.
  apply (grows_cycles_started _ _ _ handler_names_not_main) in H3.
  unfold cycles_started in H3.
  destruct (time_time Linux.signal_handler s2) as [start s3 | e s3 | s3] eqn:E3;
    cbn [final] in H3; [| cbn [final]; split; [discriminate | lia] ..].
  apply time_time_returned in E3. subst start.
  rewrite bind_unfold.
  destruct (Linux_monitor_bound cfg h HI fuel (clock s3) s3 ltac:(lia)) as [Hnone Hcount].
  { now replace (Linux.RUN_DURATION cfg - (clock s3 - clock s3))
      with (Linux.RUN_DURATION cfg) by lia. }
  replace (Linux.RUN_DURATION cfg - (clock s3 - clock s3))
    with (Linux.RUN_DURATION cfg) in Hcount by lia.
  unfold cycles_started in Hcount.
  destruct (Linux.monitor cfg h fuel (clock s3) s3) as [[[] |] s4 | e s4 | s4];
    cbn [final] in Hcount;
    [| now elim (Hnone s4) | cbn [final]; split; [discriminate | lia] ..].
  rewrite bind_unfold.
  assert (H5 : writes_at_most collecting 0
                 (logging_info Linux.signal_handler "main"
                    [Str (lit "Linux performance monitoring completed after the set duration.")]))
    by (apply (begins_logging_log _ INFO "main"); emits_tac).
  specialize (H5 s4).
  destruct (logging_info _ _ _ s4) as [[] s5 | e s5 | s5];
    unfold writes_at_most in H5; cbn [final] in H5; cbn [final ret bind];
    (split; [try discriminate | try lia]).
Qed.

(** ** The Linux script under a signal *)

Section LinuxSignal.

Variable cfg : Linux.config.
Variable h : Linux.host.

Lemma Linux_sample_interruptible {A} (reading : Z -> A) :
  interruptible (Linux.sample reading).
Proof.
  unfold Linux.sample. apply interruptible_bind; [apply interruptible_checkpoint |].
  intros _ at_ n s Hs. right. split; [exact Hs | discriminate].
Qed.

Lemma Linux_decode_interruptible b : interruptible (Linux.decode_utf8 b).
Proof. unfold Linux.decode_utf8. interruptible_tac. Qed.

Hint Resolve Linux_sample_interruptible Linux_decode_interruptible : interruptible.

Lemma Linux_run_command_interruptible c : interruptible (Linux.run_command h c).
Proof. unfold Linux.run_command. interruptible_tac. Qed.

Hint Resolve Linux_run_command_interruptible : interruptible.

Lemma Linux_cpu_memory_stats_interruptible :
  interruptible (Linux.cpu_memory_stats cfg h).
Proof. unfold Linux.cpu_memory_stats. interruptible_tac. Qed.

Lemma Linux_disk_usage_interruptible path : interruptible (Linux.disk_usage h path).
Proof. unfold Linux.disk_usage. interruptible_tac. Qed.

Hint Resolve Linux_disk_usage_interruptible : interruptible.

Lemma Linux_disk_stats_interruptible : interruptible (Linux.disk_stats h).
Proof. unfold Linux.disk_stats. interruptible_tac. Qed.

Lemma Linux_network_stats_interruptible : interruptible (Linux.network_stats h).
Proof. unfold Linux.network_stats. interruptible_tac. Qed.

Lemma Linux_greater_interruptible x limit : interruptible (Linux.greater x limit).
Proof. unfold Linux.greater. interruptible_tac. Qed.

Hint Resolve Linux_greater_interruptible : interruptible.

Lemma Linux_check_process_interruptible p : interruptible (Linux.check_process p).
Proof. unfold Linux.check_process. interruptible_tac. Qed.

Hint Resolve Linux_check_process_interruptible : interruptible.

Lemma Linux_process_stats_interruptible : interruptible (Linux.process_stats h).
Proof. unfold Linux.process_stats. interruptible_tac. Qed.

Lemma Linux_paging_stats_interruptible : interruptible (Linux.paging_stats h).
Proof. unfold Linux.paging_stats. interruptible_tac. Qed.

Lemma Linux_filesystem_stats_interruptible : interruptible (Linux.filesystem_stats h).
Proof. unfold Linux.filesystem_stats. interruptible_tac. Qed.

Lemma Linux_nfs_stats_interruptible : interruptible (Linux.nfs_stats h).
Proof. unfold Linux.nfs_stats. interruptible_tac. Qed.

Lemma Linux_read_proc_mounts_interruptible : interruptible (Linux.read_proc_mounts h).
Proof. unfold Linux.read_proc_mounts. interruptible_tac. Qed.

Hint Resolve Linux_read_proc_mounts_interruptible : interruptible.

Lemma Linux_check_nfs_mounts_interruptible : interruptible (Linux.check_nfs_mounts h).
Proof. unfold Linux.check_nfs_mounts. interruptible_tac. Qed.

Lemma Linux_log_monitoring_interruptible : interruptible (Linux.log_monitoring h).
Proof. unfold Linux.log_monitoring. interruptible_tac. Qed.

Lemma Linux_system_info_interruptible : interruptible (Linux.system_info h).
Proof. unfold Linux.system_info. interruptible_tac. Qed.

Hint Resolve Linux_cpu_memory_stats_interruptible Linux_disk_stats_interruptible
  Linux_network_stats_interruptible Linux_process_stats_interruptible
  Linux_paging_stats_interruptible Linux_filesystem_stats_interruptible
  Linux_nfs_stats_interruptible Linux_check_nfs_mounts_interruptible
  Linux_log_monitoring_interruptible Linux_system_info_interruptible : interruptible.

Lemma Linux_collect_interruptible : interruptible (Linux.collect cfg h).
Proof. unfold Linux.collect. interruptible_tac. Qed.

Hint Resolve Linux_collect_interruptible : interruptible.

Lemma Linux_cycle_interruptible : interruptible (Linux.cycle cfg h).
Proof. unfold Linux.cycle. interruptible_tac. Qed.

Hint Resolve Linux_cycle_interruptible : interruptible.

Lemma Linux_monitor_interruptible fuel start :
  interruptible (Linux.monitor cfg h fuel start).
Proof.
  induction fuel as [| fuel IH]; cbn [Linux.monitor]; interruptible_tac.
Qed.

Hint Resolve Linux_monitor_interruptible : interruptible.

Lemma Linux_main_interruptible fuel : interruptible (Linux.main cfg h fuel).
Proof. unfold Linux.main. interruptible_tac. Qed.

Lemma Linux_program_interruptible fuel : interruptible (Linux.program cfg h fuel).
Proof.
  unfold Linux.program. apply interruptible_try_except.
  - apply Linux_main_interruptible.
  - reflexivity.
  - intros e k H. destruct e; inversion H; subst. unfold Linux.cleanup. interruptible_tac.
Qed.

End LinuxSignal.

Lemma Linux_run_command_cut_short h cmd s at_ signum d rc out err :
  awaiting at_ signum s ->
  spawn (Linux.os h) cmd (clock s) = Exits d rc out err ->
  at_ < clock s + Z.of_N d ->
  Linux.run_command h cmd s
  = Raised (SystemExit 1)
      (mkState at_ (log s ++ handler_records at_ signum) None MainThread).
Proof.
  intros Hs Hcmd Hin. pose proof Hs as (Ht & Hp & Hc).
  unfold Linux.run_command, try_except, subprocess_run.
  rewrite !bind_unfold. unfold checkpoint.
  rewrite (due_awaiting _ at_ signum s Hs).
  destruct (at_ <? clock s + 1) eqn:E.
  - apply Z.ltb_lt in E. assert (at_ = clock s) by lia. subst at_.
    unfold take_signal. cbn. rewrite Ht, <- app_assoc. reflexivity.
  - rewrite Hcmd, bind_unfold. unfold wait.
    rewrite (due_awaiting _ at_ signum s Hs).
    destruct (at_ <? clock s + Z.of_N d) eqn:E'; [| apply Z.ltb_ge in E'; lia].
    replace (Z.max (clock s) at_) with at_ by lia.
    unfold take_signal. cbn. rewrite Ht, <- app_assoc. reflexivity.
Qed.

(** C7, as the code has it.  On Linux a trapped signal ends the run when it
    arrives.  A command in flight at that time is not awaited: [run_command]
    leaves with [SystemExit(1)] at the arrival time and the log gets the two
    records of the handler, nothing of the command.  The program as a whole
    either is over before the signal arrives, or is stopped at the arrival
    time in that way; it does not go on to finish the pass. *)
Theorem Linux_signal_ends_run cfg h fuel at_ signum s :
  awaiting at_ signum s ->
  (forall cmd d rc out err,
     spawn (Linux.os h) cmd (clock s) = Exits d rc out err ->
     at_ < clock s + Z.of_N d ->
     Linux.run_command h cmd s
     = Raised (SystemExit 1)
         (mkState at_ (log s ++ handler_records at_ signum) None MainThread)) /\
  (stopped_at at_ signum (Linux.program cfg h fuel s) \/
   (awaiting at_ signum (final (Linux.program cfg h fuel s)) /\
    forall s', Linux.program cfg h fuel s <> Blocked s')).
Proof.
  intro Hs. split.
  - intros. eapply Linux_run_command_cut_short; eauto.
  - now apply Linux_program_interruptible.
Qed.

Lemma Linux_signal_ends_run_witness :
  (forall cmd d rc out err,
     spawn (Linux.os (idle_psutil sampling_world)) cmd (clock (boot_with_signal 3 SIGTERM))
     = Exits d rc out err ->
     3 < clock (boot_with_signal 3 SIGTERM) + Z.of_N d ->
     Linux.run_command (idle_psutil sampling_world) cmd (boot_with_signal 3 SIGTERM)
     = Raised (SystemExit 1)
         (mkState 3 (log (boot_with_signal 3 SIGTERM) ++ handler_records 3 SIGTERM)
                  None MainThread)) /\
  (stopped_at 3 SIGTERM
     (Linux.program Linux.default_config (idle_psutil sampling_world) 7
        (boot_with_signal 3 SIGTERM)) \/
   (awaiting 3 SIGTERM
      (final (Linux.program Linux.default_config (idle_psutil sampling_world) 7
                (boot_with_signal 3 SIGTERM))) /\
    forall s', Linux.program Linux.default_config (idle_psutil sampling_world) 7
                 (boot_with_signal 3 SIGTERM) <> Blocked s')).
Proof.
  apply (Linux_signal_ends_run Linux.default_config (idle_psutil sampling_world) 7
           3 SIGTERM (boot_with_signal 3 SIGTERM)).
  unfold awaiting. simpl. repeat split. lia.
Defined.

(** C7 as stated fails: SIGTERM arrives at second 3 of the first pass, while
    [iostat -xm 1 5], started at second 1, is running.  The run ends at
    second 3 with [SystemExit(1)]; the log stops in [disk_stats], the output
    of [iostat] and the seven calls that follow in the pass are missing. *)
Lemma Linux_signal_counterexample :
  exists s',
    Linux.program Linux.default_config (idle_psutil sampling_world) 7
      (boot_with_signal 3 SIGTERM) = Raised (SystemExit 1) s' /\
    clock s' = 3 /\
    map funcName (log s')
    = ["main"; "system_info"; "run_command"; "run_command"; "main";
       "cpu_memory_stats"; "cpu_memory_stats"; "cpu_memory_stats";
       "cpu_memory_stats"; "cpu_memory_stats"; "run_command";
       "disk_stats"; "disk_stats"; "disk_stats"; "disk_stats"; "disk_stats";
       "disk_stats"; "signal_handler"; "cleanup"].
Proof. eexists. split; [vm_compute; reflexivity |]. split; reflexivity. Qed.

(** ** The Linux script under quiet conditions *)

(** What [run_command] does when no signal is on its way. *)
Lemma Linux_run_command_quiet h cmd s :
  quiet s ->
  Linux.run_command h cmd s =
  match spawn (Linux.os h) cmd (clock s) with
  | NeverExits => Blocked s
  | Exits d rc out err =>
    let s1 := mkState (clock s + Z.of_N d) (log s) None (thread s) in
    if rc =? 0 then
      match decode out with
      | Some text => emit INFO "run_command" [Str text] s1
      | None => Raised UnicodeDecodeError s1
      end
    else
      emit ERROR "run_command"
        [Str (lit "Command failed: "); Exc (CalledProcessError rc cmd out err)] s1
  end.
Proof.
  intro Hs. unfold Linux.run_command, try_except, subprocess_run.
  rewrite !bind_unfold, checkpoint_quiet by exact Hs.
  destruct (spawn (Linux.os h) cmd (clock s)) as [d rc out err |].
  - rewrite bind_unfold, wait_quiet by exact Hs. unfold advance.
    replace (Z.max (clock s + Z.of_N d) (clock s)) with (clock s + Z.of_N d) by lia.
    rewrite Hs. cbv zeta.
    destruct (rc =? 0); simpl.
    + unfold Linux.decode_utf8. destruct (decode out); simpl; reflexivity.
    + reflexivity.
  - now rewrite wait_forever_quiet.
Qed.

Section LinuxQuiet.

Variable cfg : Linux.config.
Variable h : Linux.host.
Hypothesis Hcommands : commands_settle (Linux.os h).
Hypothesis Hsampled : cpu_sampled h.

Lemma Linux_sample_returns {A} (reading : Z -> A) : returns (Linux.sample reading).
Proof.
  unfold Linux.sample. apply returns_bind; [apply returns_checkpoint |].
  intros _ s Hs. now exists (reading (clock s)), s.
Qed.

(** A reading, and what is done with it. *)
Lemma Linux_sample_then {A B} (reading : Z -> A) (k : A -> M B) :
  (forall t, returns (k (reading t))) -> returns (bind (Linux.sample reading) k).
Proof.
  intros Hk s Hs. unfold Linux.sample. rewrite !bind_unfold, checkpoint_quiet by exact Hs.
  now apply Hk.
Qed.

Lemma Linux_run_command_returns c : returns (Linux.run_command h c).
Proof.
  intros s Hs. rewrite Linux_run_command_quiet by exact Hs.
  specialize (Hcommands c (clock s)).
  destruct (spawn (Linux.os h) c (clock s)) as [d rc out err |]; [| contradiction].
  cbv zeta. destruct (rc =? 0) eqn:E.
  - apply Z.eqb_eq in E. destruct Hcommands as [Hrc | Hout]; [contradiction |].
    destruct (decode out); [| contradiction].
    eexists _, _. split; [reflexivity | reflexivity].
  - eexists _, _. split; [reflexivity | reflexivity].
Qed.

Hint Resolve Linux_sample_returns Linux_run_command_returns : returns.

Lemma Linux_cpu_memory_stats_returns : returns (Linux.cpu_memory_stats cfg h).
Proof. unfold Linux.cpu_memory_stats. returns_tac. Qed.

Lemma Linux_disk_stats_returns : returns (Linux.disk_stats h).
Proof.
  unfold Linux.disk_stats. returns_tac.
  apply returns_for_each. intros part _ s Hs.
  unfold try_except, Linux.disk_usage, Linux.sample.
  rewrite !bind_unfold, checkpoint_quiet by exact Hs.
  destruct (Linux.psutil_disk_usage h (Linux.mountpoint part) (clock s)) as [usage |].
  - cbn [ret].
    assert (Hlogs : returns
      (logging_info Linux.signal_handler "disk_stats"
         [Str (lit "Disk "); Str (Linux.device part); Str (lit ":")] ;;
       logging_info Linux.signal_handler "disk_stats"
         [Str (lit "  Total: "); Fixed2 (per (Linux.du_total usage) GiB); Str (lit " GB")] ;;
       logging_info Linux.signal_handler "disk_stats"
         [Str (lit "  Used: "); Fixed2 (per (Linux.du_used usage) GiB); Str (lit " GB")] ;;
       logging_info Linux.signal_handler "disk_stats"
         [Str (lit "  Free: "); Fixed2 (per (Linux.du_free usage) GiB); Str (lit " GB")] ;;
       logging_info Linux.signal_handler "disk_stats"
         [Str (lit "  Percent Used: "); Float (Linux.du_percent usage); Str (lit "%")]))
      by returns_tac.
    destruct (Hlogs s Hs) as ([] & s' & -> & Hs'). now exists tt, s'.
  - cbn [raise].
    apply (returns_logging_warning Linux.signal_handler "disk_stats"
             [Str (lit "Permission denied for "); Str (Linux.mountpoint part)] s Hs).
Qed.

Lemma Linux_network_stats_returns : returns (Linux.network_stats h).
Proof. unfold Linux.network_stats. returns_tac. Qed.

Lemma Linux_check_process_returns p :
  Linux.cpu_percent p <> None -> returns (Linux.check_process p).
Proof.
  intro Hp. unfold Linux.check_process. apply returns_try_except.
  unfold Linux.greater. destruct (Linux.cpu_percent p); [| contradiction].
  returns_tac.
Qed.

Lemma Linux_process_stats_returns : returns (Linux.process_stats h).
Proof.
  unfold Linux.process_stats. apply returns_bind; [returns_tac |].
  intros _. apply Linux_sample_then. intro t.
  apply returns_bind; [| returns_tac].
  apply returns_for_each. intros p Hp.
  apply Linux_check_process_returns. eapply Hsampled; eauto.
Qed.

Lemma Linux_paging_stats_returns : returns (Linux.paging_stats h).
Proof. unfold Linux.paging_stats. returns_tac. Qed.

Lemma Linux_filesystem_stats_returns : returns (Linux.filesystem_stats h).
Proof. unfold Linux.filesystem_stats. returns_tac. Qed.

Lemma Linux_nfs_stats_returns : returns (Linux.nfs_stats h).
Proof. unfold Linux.nfs_stats. returns_tac. Qed.

Lemma Linux_check_nfs_mounts_returns : returns (Linux.check_nfs_mounts h).
Proof.
  unfold Linux.check_nfs_mounts. apply returns_bind; [returns_tac |].
  intros _ s Hs. unfold try_except, Linux.read_proc_mounts, Linux.sample.
  rewrite !bind_unfold, checkpoint_quiet by exact Hs.
  destruct (Linux.proc_mounts h (clock s)) as [lines |].
  - cbn [ret]. destruct (filter _ lines).
    + destruct (returns_logging_info Linux.signal_handler "check_nfs_mounts"
                  [Str (lit "No NFS mounts found.")] s Hs) as ([] & s' & -> & Hs').
      now exists tt, s'.
    + match goal with
      | |- context [logging_info _ ?fn ?m s] =>
        destruct (returns_logging_info Linux.signal_handler fn m s Hs)
          as ([] & s' & -> & Hs')
      end.
      now exists tt, s'.
  - cbn [raise Linux.is_Exception].
    apply (returns_logging_error Linux.signal_handler "check_nfs_mounts"
             [Str (lit "Error checking NFS mounts: "); Exc OSError] s Hs).
Qed.

Lemma Linux_log_monitoring_returns : returns (Linux.log_monitoring h).
Proof. unfold Linux.log_monitoring. returns_tac. Qed.

Hint Resolve Linux_cpu_memory_stats_returns Linux_disk_stats_returns
  Linux_network_stats_returns Linux_process_stats_returns
  Linux_paging_stats_returns Linux_filesystem_stats_returns
  Linux_nfs_stats_returns Linux_check_nfs_mounts_returns
  Linux_log_monitoring_returns : returns.

Lemma Linux_collect_returns : returns (Linux.collect cfg h).
Proof. unfold Linux.collect. returns_tac. Qed.

Lemma Linux_cycle_quiet_returns :
  0 <= Linux.CHECK_INTERVAL cfg -> returns (Linux.cycle cfg h).
Proof.
  intro HI. unfold Linux.cycle. pose proof Linux_collect_returns. returns_tac.
Qed.

Lemma Linux_system_info_returns : returns (Linux.system_info h).
Proof. unfold Linux.system_info. returns_tac. Qed.

Lemma Linux_monitor_returns fuel start :
  0 <= Linux.CHECK_INTERVAL cfg -> returns (Linux.monitor cfg h fuel start).
Proof.
  intro HI. induction fuel as [| fuel IH]; cbn [Linux.monitor].
  - apply returns_ret.
  - apply returns_bind; [apply returns_time_time |].
    intro now. destruct (now - start <? Linux.RUN_DURATION cfg).
    + apply returns_bind; [now apply Linux_cycle_quiet_returns | intros _; exact IH].
    + apply returns_ret.
Qed.

Lemma Linux_main_returns fuel :
  0 <= Linux.CHECK_INTERVAL cfg -> returns (Linux.main cfg h fuel).
Proof.
  intro HI. unfold Linux.main.
  apply returns_bind; [apply returns_logging_info | intros _].
  apply returns_bind; [apply Linux_system_info_returns | intros _].
  apply returns_bind; [apply returns_time_time | intro start].
  apply returns_bind; [now apply Linux_monitor_returns |].
  intros [[] |]; [| apply returns_ret].
  apply returns_bind; [apply returns_logging_info | intros _; apply returns_ret].
Qed.

End LinuxQuiet.

(** C8, as the code has it.  For every duration [D] and every positive
    interval [I], the loop of the Linux [main] ends within [ceil(D / I) + 1]
    tests of its condition, and it begins at most [ceil(D / I)] passes, which
    is at most [floor(D / I) + 1].  There is no lower bound of that kind:
    a pass delays the next one by its own length as well as by [I].  When
    every command exits (failing, or printing valid UTF-8), [psutil] has a
    [cpu_percent] for every process and no signal is on its way, [main]
    returns. *)
Theorem Linux_cycle_count cfg h fuel s :
  0 < Linux.CHECK_INTERVAL cfg ->
  (Z.to_nat (ceil_div (Linux.RUN_DURATION cfg) (Linux.CHECK_INTERVAL cfg)) < fuel)%nat ->
  (forall s', Linux.main cfg h fuel s <> Returned None s') /\
  Z.of_nat (cycles_started (log (final (Linux.main cfg h fuel s))))
  <= Z.of_nat (cycles_started (log s))
     + Z.max 0 (ceil_div (Linux.RUN_DURATION cfg) (Linux.CHECK_INTERVAL cfg)) /\
  ceil_div (Linux.RUN_DURATION cfg) (Linux.CHECK_INTERVAL cfg)
  <= Linux.RUN_DURATION cfg / Linux.CHECK_INTERVAL cfg + 1 /\
  (commands_settle (Linux.os h) -> cpu_sampled h -> quiet s ->
   exists s', Linux.main cfg h fuel s = Returned (Some tt) s').
Proof.
  intros HI Hfuel.
  destruct (Linux_main_bound cfg h fuel s HI Hfuel) as [Hnone Hcount].
  repeat split; auto; [now apply ceil_div_floor |].
  intros Hcommands Hsampled Hs.
  destruct (Linux_main_returns cfg h Hcommands Hsampled fuel ltac:(lia) s Hs)
    as ([[] |] & s' & E & _).
  - now exists s'.
  - now elim (Hnone s').
Qed.

Lemma Linux_cycle_count_witness :
  (forall s', Linux.main Linux.default_config (idle_psutil instant_world) 7 boot
              <> Returned None s') /\
  Z.of_nat (cycles_started
              (log (final (Linux.main Linux.default_config (idle_psutil instant_world) 7 boot))))
  <= Z.of_nat (cycles_started (log boot)) + Z.max 0 (ceil_div 60 10) /\
  ceil_div 60 10 <= 60 / 10 + 1 /\
  (commands_settle (Linux.os (idle_psutil instant_world)) ->
   cpu_sampled (idle_psutil instant_world) -> quiet boot ->
   exists s', Linux.main Linux.default_config (idle_psutil instant_world) 7 boot
              = Returned (Some tt) s').
Proof.
  apply (Linux_cycle_count Linux.default_config (idle_psutil instant_world) 7 boot).
  - reflexivity.
  - vm_compute. lia.
Defined.

(** C8 as stated fails on the script's own configuration: with [D = 60] and
    [I = 10], on a host where the two sampling commands take their five
    seconds, a pass and its pause last 21 seconds, and the run makes 3
    passes, not 7 give or take one. *)
Lemma Linux_cycle_count_counterexample :
  cycles_started
    (log (final (Linux.main Linux.default_config (idle_psutil sampling_world) 7 boot)))
  = 3%nat /\
  ~ count_as_specified 60 10
      (cycles_started
         (log (final (Linux.main Linux.default_config (idle_psutil sampling_world) 7 boot)))).
Proof.
  assert (E : cycles_started
                (log (final (Linux.main Linux.default_config
                               (idle_psutil sampling_world) 7 boot))) = 3%nat)
    by (vm_compute; reflexivity).
  split; [exact E |]. rewrite E. unfold count_as_specified. simpl. lia.
Qed.

(** C1, as the code has it.  On a Linux host where every command exits and
    a command that succeeds prints valid UTF-8, where [psutil] has a
    [cpu_percent] for every process, and with a pause that is not negative:
    a command that fails is logged at error level and [run_command] returns,
    and the whole pass returns when no signal is on its way, however many
    of its commands fail. *)
Theorem Linux_cycle_isolates_failures cfg h :
  commands_settle (Linux.os h) ->
  cpu_sampled h ->
  0 <= Linux.CHECK_INTERVAL cfg ->
  (forall cmd s d rc out err,
     quiet s ->
     spawn (Linux.os h) cmd (clock s) = Exits d rc out err ->
     rc <> 0 ->
     Linux.run_command h cmd s
     = Returned tt
         (mkState (clock s + Z.of_N d)
            (log s ++ [mkRecord ERROR (thread s) "run_command" (clock s + Z.of_N d)
                         [Str (lit "Command failed: ");
                          Exc (CalledProcessError rc cmd out err)]])
            None (thread s))) /\
  (forall s, quiet s -> exists s', Linux.cycle cfg h s = Returned tt s' /\ quiet s').
Proof.
  intros Hcommands Hsampled HI. split.
  - intros cmd s d rc out err Hs Hcmd Hrc.
    rewrite Linux_run_command_quiet, Hcmd by exact Hs. cbv zeta.
    apply Z.eqb_neq in Hrc. rewrite Hrc. reflexivity.
  - intros s Hs.
    destruct (Linux_cycle_quiet_returns cfg h Hcommands Hsampled HI s Hs)
      as ([] & s' & E & Hs').
    now exists s'.
Qed.

Lemma Linux_cycle_isolates_failures_witness :
  (forall cmd s d rc out err,
     quiet s ->
     spawn (Linux.os (idle_psutil failing_world)) cmd (clock s) = Exits d rc out err ->
     rc <> 0 ->
     Linux.run_command (idle_psutil failing_world) cmd s
     = Returned tt
         (mkState (clock s + Z.of_N d)
            (log s ++ [mkRecord ERROR (thread s) "run_command" (clock s + Z.of_N d)
                         [Str (lit "Command failed: ");
                          Exc (CalledProcessError rc cmd out err)]])
            None (thread s))) /\
  (forall s, quiet s ->
     exists s', Linux.cycle Linux.default_config (idle_psutil failing_world) s
                = Returned tt s' /\ quiet s').
Proof.
  apply (Linux_cycle_isolates_failures Linux.default_config (idle_psutil failing_world)).
  - intros cmd t. simpl. left. discriminate.
  - intros t p Hp. simpl in Hp. destruct Hp as [<- | [<- | []]]; simpl; discriminate.
  - simpl. lia.
Defined.

(** C1 as stated fails: on a host whose system log holds a byte that is not
    UTF-8, [tail -n 50 /var/log/syslog] succeeds and [run_command] raises
    [UnicodeDecodeError] while decoding its output; the exception leaves the
    pass, the loop and [main]. *)
Lemma Linux_cycle_counterexample :
  (exists s', Linux.cycle Linux.default_config (idle_psutil latin1_world) boot
              = Raised UnicodeDecodeError s') /\
  (exists s', Linux.program Linux.default_config (idle_psutil latin1_world) 7 boot
              = Raised UnicodeDecodeError s').
Proof. split; eexists; vm_compute; reflexivity. Qed.

(** ** Alerts *)

Lemma Qltb_lt a b : Qltb a b = true <-> (a < b)%Q.
Proof.
  unfold Qltb. rewrite negb_true_iff. split.
  - intro H. apply Qnot_le_lt. intro Hle. apply Qle_bool_iff in Hle. congruence.
  - intro H. destruct (Qle_bool b a) eqn:E; auto.
    apply Qle_bool_iff in E. now apply Qlt_not_le in H.
Qed.

Lemma not_from_run_command r l :
  funcName r = "cpu_memory_stats" ->
  Forall (fun r' => from ["run_command"; "signal_handler"; "cleanup"] r') l ->
  ~ In r l.
Proof.
  intros Hr Hall Hin. rewrite Forall_forall in Hall. specialize (Hall r Hin).
  unfold from in Hall. rewrite Hr in Hall. simpl in Hall. intuition discriminate.
Qed.

(** C3.  In [cpu_memory_stats] the CPU alert is logged exactly when the
    reading is strictly greater than [CPU_ALERT_THRESHOLD], and the memory
    alert exactly when [memory.percent] is strictly greater than
    [MEMORY_ALERT_THRESHOLD]; the test depends on the value and the limit
    only.  With the limit 90 of the script, 95 raises the alert and 90 does
    not. *)
Theorem Linux_alert_strictly_greater cfg h s :
  quiet s ->
  let v := Linux.psutil_cpu_percent h (clock s) in
  let m := Linux.vm_percent (Linux.psutil_virtual_memory h (clock s + 1)) in
  (exists added,
     log (final (Linux.cpu_memory_stats cfg h s)) = log s ++ added /\
     (In (cpu_alert (thread s) (clock s + 1) v) added
      <-> (Linux.CPU_ALERT_THRESHOLD cfg < v)%Q) /\
     (In (memory_alert (thread s) (clock s + 1) m) added
      <-> (Linux.MEMORY_ALERT_THRESHOLD cfg < m)%Q)) /\
  Qltb (Linux.CPU_ALERT_THRESHOLD Linux.default_config) (95 # 1) = true /\
  Qltb (Linux.CPU_ALERT_THRESHOLD Linux.default_config) (90 # 1) = false.
Proof.
  intros Hs v m. split; [| split; reflexivity].
  subst v m.
  destruct s as [c l p t]. unfold quiet in Hs. simpl in Hs. subst p.
  unfold Linux.cpu_memory_stats, cpu_alert, memory_alert.
  cbn -[Linux.run_command lit Z.add Z.max Qltb per].
  replace (Z.max (c + 1) c) with (c + 1) by lia.
  set (v := Linux.psutil_cpu_percent h c).
  set (m := Linux.vm_percent (Linux.psutil_virtual_memory h (c + 1))).
  destruct (Qltb (Linux.CPU_ALERT_THRESHOLD cfg) v) eqn:Ev;
    destruct (Qltb (Linux.MEMORY_ALERT_THRESHOLD cfg) m) eqn:Em;
    cbn -[Linux.run_command lit Z.add Z.max Qltb per];
    match goal with
    | |- context [Linux.run_command h ?cmd ?s0] =>
      destruct (Linux_run_command_emits h ["run_command"; "signal_handler"; "cleanup"]
                  ltac:(names_tac) ltac:(names_tac) cmd s0)
        as (_ & _ & _ & after & Hlog & Hafter);
      rewrite Hlog; cbn [log]
    end;
    (eexists; split; [rewrite <- !app_assoc; reflexivity |]);
    assert (Hrc : forall r, funcName r = "cpu_memory_stats" -> ~ In r after)
      by (intros r Hr; apply not_from_run_command; auto;
          eapply Forall_impl; [| exact Hafter]; cbv beta; tauto);
    split; rewrite <- Qltb_lt; rewrite ?Ev, ?Em;
    (split; [| try discriminate; intros _; simpl; rewrite ?in_app_iff; simpl; tauto]);
    simpl; rewrite ?in_app_iff; simpl; intros Hin;
    repeat match type of Hin with
           | _ \/ _ => destruct Hin as [Hin | Hin]
           end;
    try reflexivity; try discriminate; try contradiction;
    try (exfalso; revert Hin; apply Hrc; reflexivity);
    try (exfalso; inversion Hin; discriminate).
Qed.

Lemma Linux_alert_strictly_greater_witness :
  quiet boot /\
  let cfg := Linux.default_config in
  let h := idle_psutil instant_world in
  let v := Linux.psutil_cpu_percent h (clock boot) in
  let m := Linux.vm_percent (Linux.psutil_virtual_memory h (clock boot + 1)) in
  (exists added,
     log (final (Linux.cpu_memory_stats cfg h boot)) = log boot ++ added /\
     (In (cpu_alert (thread boot) (clock boot + 1) v) added
      <-> (Linux.CPU_ALERT_THRESHOLD cfg < v)%Q) /\
     (In (memory_alert (thread boot) (clock boot + 1) m) added
      <-> (Linux.MEMORY_ALERT_THRESHOLD cfg < m)%Q)) /\
  Qltb (Linux.CPU_ALERT_THRESHOLD Linux.default_config) (95 # 1) = true /\
  Qltb (Linux.CPU_ALERT_THRESHOLD Linux.default_config) (90 # 1) = false.
Proof.
  split; [reflexivity |].
  apply (Linux_alert_strictly_greater Linux.default_config (idle_psutil instant_world) boot).
  reflexivity.
Defined.

(** ** The scan of the processes *)

Lemma Linux_scan_quiet procs :
  forall s, quiet s ->
    (forall p, In p procs -> Linux.cpu_percent p <> None) ->
    for_each procs Linux.check_process s
    = Returned tt
        (mkState (clock s)
           (log s ++ map (high_cpu_warning (thread s) (clock s)) (filter high_cpu procs))
           None (thread s)).
Proof.
  induction procs as [| p procs IH]; intros s Hs Hall.
  - simpl. unfold ret. rewrite app_nil_r. destruct s; unfold quiet in Hs; simpl in *.
    now subst.
  - cbn [for_each]. rewrite bind_unfold.
    assert (Hp : Linux.cpu_percent p <> None) by (apply Hall; now left).
    unfold Linux.check_process at 1, try_except, Linux.greater.
    cbn [filter]. unfold high_cpu at 1.
    destruct (Linux.cpu_percent p) as [v |] eqn:Ev; [| contradiction].
    rewrite bind_unfold. cbn [ret].
    destruct (Qltb (50 # 1) v) eqn:Ehigh; cbn [when].
    + unfold logging_warning. rewrite logging_log_quiet by exact Hs. cbn [emit].
      rewrite IH; cbn [clock log thread pending]; auto.
      * cbn [map]. now rewrite <- app_assoc.
      * intros q Hq. apply Hall. now right.
    + cbn [ret]. apply IH; auto. intros q Hq. apply Hall. now right.
Qed.

Lemma high_cpu_message_cpu p q :
  Linux.high_cpu_message p = Linux.high_cpu_message q ->
  Linux.cpu_percent p = Linux.cpu_percent q.
Proof.
  unfold Linux.high_cpu_message. intro H. inversion H as [[Hpid Hname Hcpu Hmem]].
  unfold Linux.optional in Hcpu.
  destruct (Linux.cpu_percent p), (Linux.cpu_percent q); congruence.
Qed.



(** ** Commands that are missing, and commands that hang *)

(** C4, as the code has it.  Only [nfs_stats] (and [disk_stats], for
    [iostat]) looks its command up first: when [shutil.which] does not find
    [nfsstat], one warning is logged, no command is run and nothing is
    logged at error level.  Any other command goes to the shell as it is,
    and when it exits with a status that is not zero, as the shell does for
    a program it cannot find, [run_command] reports it at error level, with
    the command and the status in the exception. *)
Theorem Linux_unavailable_command h s :
  quiet s ->
  (which (Linux.os h) (lit "nfsstat") = false ->
   Linux.nfs_stats h s
   = Returned tt
       (mkState (clock s)
          (log s ++
           [mkRecord INFO (thread s) "nfs_stats" (clock s) [Str (lit "NFS Stats:")];
            mkRecord WARNING (thread s) "nfs_stats" (clock s)
              [Str (lit "nfsstat command not found.")]])
          None (thread s))) /\
  (forall cmd d rc out err,
     spawn (Linux.os h) cmd (clock s) = Exits d rc out err ->
     rc <> 0 ->
     Linux.run_command h cmd s
     = Returned tt
         (mkState (clock s + Z.of_N d)
            (log s ++ [mkRecord ERROR (thread s) "run_command" (clock s + Z.of_N d)
                         [Str (lit "Command failed: ");
                          Exc (CalledProcessError rc cmd out err)]])
            None (thread s))).
Proof.
  intro Hs. split.
  - intro Hwhich. destruct s as [c l p t]. unfold quiet in Hs. simpl in Hs. subst p.
    unfold Linux.nfs_stats, try_except, shutil_which.
    cbn -[lit which Linux.os Linux.run_command]. rewrite Hwhich. cbn -[lit].
    now rewrite <- app_assoc.
  - intros cmd d rc out err Hcmd Hrc.
    rewrite Linux_run_command_quiet, Hcmd by exact Hs. cbv zeta.
    apply Z.eqb_neq in Hrc. rewrite Hrc. reflexivity.
Qed.

Lemma Linux_unavailable_command_witness :
  quiet boot /\
  (which (Linux.os (idle_psutil minimal_world)) (lit "nfsstat") = false ->
   Linux.nfs_stats (idle_psutil minimal_world) boot
   = Returned tt
       (mkState (clock boot)
          (log boot ++
           [mkRecord INFO (thread boot) "nfs_stats" (clock boot) [Str (lit "NFS Stats:")];
            mkRecord WARNING (thread boot) "nfs_stats" (clock boot)
              [Str (lit "nfsstat command not found.")]])
          None (thread boot))) /\
  (forall cmd d rc out err,
     spawn (Linux.os (idle_psutil minimal_world)) cmd (clock boot) = Exits d rc out err ->
     rc <> 0 ->
     Linux.run_command (idle_psutil minimal_world) cmd boot
     = Returned tt
         (mkState (clock boot + Z.of_N d)
            (log boot ++ [mkRecord ERROR (thread boot) "run_command" (clock boot + Z.of_N d)
                            [Str (lit "Command failed: ");
                             Exc (CalledProcessError rc cmd out err)]])
            None (thread boot))).
Proof.
  split; [reflexivity |].
  apply (Linux_unavailable_command (idle_psutil minimal_world) boot). reflexivity.
Defined.

(** C4 as stated fails twice.  On a Linux host without [lsb_release],
    [system_info] reports the missing command at error level, as a failed
    command, and logs no warning.  And the AIX [run_command] reports a
    timeout at warning level, not at error level. *)
Lemma unavailable_command_counterexample :
  (let l := log (final (Linux.system_info (idle_psutil minimal_world) boot)) in
   In (mkRecord ERROR MainThread "run_command" 0
         [Str (lit "Command failed: ");
          Exc (CalledProcessError 127 (lit "lsb_release -a") []
                 (list_byte_of_string "/bin/sh: 1: lsb_release: not found"))]) l /\
   Forall (fun r => levelname r <> WARNING) l) /\
  (let l := log (final (AIX.run_command (AIX.mkHost hung_world (fun _ => []))
                          (lit "topas") 60 boot)) in
   l = [timed_out MainThread 60 (lit "topas") 60] /\
   Forall (fun r => levelname r <> ERROR) l).
Proof.
  split.
  - vm_compute. split.
    + right. right. left. reflexivity.
    + repeat constructor; discriminate.
  - vm_compute. split; [reflexivity |]. repeat constructor; discriminate.
Qed.

(** What the AIX [run_command] does when no signal is on its way. *)
Lemma AIX_run_command_quiet h cmd T s :
  quiet s -> 0 <= T ->
  AIX.run_command h cmd T s =
  match spawn (AIX.os h) cmd (clock s) with
  | Exits d rc out err =>
    if Z.of_N d <=? T then
      let s1 := mkState (clock s + Z.of_N d) (log s) None (thread s) in
      if rc =? 0 then
        match decode out with
        | Some text => emit INFO "run_command" [Str text] s1
        | None => Raised UnicodeDecodeError s1
        end
      else
        emit ERROR "run_command"
          [Str (lit "Command '"); Str cmd; Str (lit "' failed: ");
           Exc (CalledProcessError rc cmd out err)] s1
    else
      Returned tt
        (mkState (clock s + T) (log s ++ [timed_out (thread s) (clock s + T) cmd T])
           None (thread s))
  | NeverExits =>
    Returned tt
      (mkState (clock s + T) (log s ++ [timed_out (thread s) (clock s + T) cmd T])
         None (thread s))
  end.
Proof.
  intros Hs HT. unfold AIX.run_command, try_except, subprocess_run.
  rewrite !bind_unfold, checkpoint_quiet by exact Hs.
  assert (Hmax : Z.max (clock s + Z.max 0 T) (clock s) = clock s + T) by lia.
  destruct (spawn (AIX.os h) cmd (clock s)) as [d rc out err |];
    [destruct (Z.of_N d <=? T) |].
  - rewrite bind_unfold, wait_quiet by exact Hs. unfold advance.
    replace (Z.max (clock s + Z.of_N d) (clock s)) with (clock s + Z.of_N d) by lia.
    rewrite Hs. cbv zeta.
    destruct (rc =? 0); simpl.
    + unfold AIX.decode_utf8. destruct (decode out); simpl; reflexivity.
    + reflexivity.
  - rewrite bind_unfold, wait_quiet by exact Hs. unfold advance, raise. rewrite Hmax.
    unfold logging_warning. rewrite logging_log_quiet by exact Hs.
    cbn [emit clock log pending thread]. rewrite Hs. reflexivity.
  - rewrite bind_unfold, wait_quiet by exact Hs. unfold advance, raise. rewrite Hmax.
    unfold logging_warning. rewrite logging_log_quiet by exact Hs.
    cbn [emit clock log pending thread]. rewrite Hs. reflexivity.
Qed.

(** C2, as the code has it.  The AIX [run_command] gives every command a
    timeout (60 seconds unless the caller says otherwise): when the command
    has not exited within it, the call returns after that time and the log
    gets one record, at warning level, that names the command and the
    timeout; nothing of the command's output is logged. *)
Theorem AIX_run_command_timeout h cmd T s :
  quiet s ->
  0 <= T ->
  match spawn (AIX.os h) cmd (clock s) with
  | Exits d _ _ _ => T < Z.of_N d
  | NeverExits => True
  end ->
  AIX.run_command h cmd T s
  = Returned tt
      (mkState (clock s + T) (log s ++ [timed_out (thread s) (clock s + T) cmd T])
         None (thread s)).
Proof.
  intros Hs HT Hlate. rewrite AIX_run_command_quiet by assumption.
  destruct (spawn (AIX.os h) cmd (clock s)) as [d rc out err |]; [| reflexivity].
  destruct (Z.of_N d <=? T) eqn:E; [apply Z.leb_le in E; lia | reflexivity].
Qed.

Lemma AIX_run_command_timeout_witness :
  quiet boot /\ 0 <= 60 /\
  AIX.run_command (AIX.mkHost hung_world (fun _ => [])) (lit "topas") 60 boot
  = Returned tt
      (mkState (clock boot + 60)
         (log boot ++ [timed_out (thread boot) (clock boot + 60) (lit "topas") 60])
         None (thread boot)).
Proof.
  split; [reflexivity |]. split; [lia |].
  apply (AIX_run_command_timeout (AIX.mkHost hung_world (fun _ => [])) (lit "topas") 60 boot).
  - reflexivity.
  - lia.
  - exact I.
Defined.

(** C2 as stated fails: the Linux and the macOS [run_command] give no
    timeout to [subprocess.run].  On a host where [lsof] never exits, the
    Linux [process_stats] never returns, and no timeout is logged. *)
Lemma timeout_counterexample :
  Linux.run_command (idle_psutil hung_world) (lit "lsof") boot = Blocked boot /\
  MacOS.run_command hung_world (lit "lsof") boot = Blocked boot /\
  exists s', Linux.process_stats (idle_psutil hung_world) boot = Blocked s' /\
             Forall (fun r => levelname r <> ERROR) (log s').
Proof.
  split; [reflexivity |]. split; [reflexivity |].
  eexists. split; [vm_compute; reflexivity |].
  repeat constructor; discriminate.
Qed.

(** * The macOS script *)

(** C9, as the code has it.  When no signal is on its way, the macOS
    [run_command] returns the stripped text of a command that exits with
    status 0, provided its output is valid UTF-8; for a command that exits
    with another status it logs the command's standard error at error level
    and returns [None], provided the standard error is valid UTF-8, and the
    caller then logs [None]. *)
Theorem MacOS_run_command_outcomes w cmd s :
  quiet s ->
  (forall d out err text,
     spawn w cmd (clock s) = Exits d 0 out err ->
     decode out = Some text ->
     MacOS.run_command w cmd s
     = Returned (Some (strip text))
         (mkState (clock s + Z.of_N d) (log s) None (thread s))) /\
  (forall d rc out err text,
     spawn w cmd (clock s) = Exits d rc out err ->
     rc <> 0 ->
     decode err = Some text ->
     let failed :=
       mkRecord ERROR (thread s) "run_command" (clock s + Z.of_N d)
         [Str (lit "Command '"); Str cmd; Str (lit "' failed: "); Str text] in
     MacOS.run_command w cmd s
     = Returned None (mkState (clock s + Z.of_N d) (log s ++ [failed]) None (thread s)) /\
     forall caller,
       MacOS.log_command w caller cmd s
       = Returned tt
           (mkState (clock s + Z.of_N d)
              (log s ++ [failed;
                         mkRecord INFO (thread s) caller (clock s + Z.of_N d) [PyNone]])
              None (thread s))).
Proof.
  intro Hs.
  assert (Hrun : forall d rc out err,
    spawn w cmd (clock s) = Exits d rc out err ->
    MacOS.run_command w cmd s =
    let s1 := mkState (clock s + Z.of_N d) (log s) None (thread s) in
    if rc =? 0 then
      match decode out with
      | Some text => Returned (Some (strip text)) s1
      | None => Raised UnicodeDecodeError s1
      end
    else
      match decode err with
      | Some text =>
        Returned None
          (mkState (clock s + Z.of_N d)
             (log s ++ [mkRecord ERROR (thread s) "run_command" (clock s + Z.of_N d)
                          [Str (lit "Command '"); Str cmd; Str (lit "' failed: ");
                           Str text]])
             None (thread s))
      | None => Raised UnicodeDecodeError s1
      end).
  { intros d rc out err Hcmd.
    unfold MacOS.run_command, try_except, subprocess_run.
    rewrite !bind_unfold, checkpoint_quiet by exact Hs.
    rewrite Hcmd, bind_unfold, wait_quiet by exact Hs. unfold advance.
    replace (Z.max (clock s + Z.of_N d) (clock s)) with (clock s + Z.of_N d) by lia.
    rewrite Hs. cbv zeta.
    destruct (rc =? 0); simpl.
    - unfold MacOS.decode_utf8. destruct (decode out); reflexivity.
    - unfold MacOS.decode_utf8. destruct (decode err); reflexivity. }
  split.
  - intros d out err text Hcmd Hout. rewrite (Hrun _ _ _ _ Hcmd). simpl. now rewrite Hout.
  - intros d rc out err text Hcmd Hrc Herr failed.
    assert (E : MacOS.run_command w cmd s
                = Returned None
                    (mkState (clock s + Z.of_N d) (log s ++ [failed]) None (thread s))).
    { rewrite (Hrun _ _ _ _ Hcmd). cbv zeta. apply Z.eqb_neq in Hrc.
      now rewrite Hrc, Herr. }
    split; [exact E |].
    intro caller. unfold MacOS.log_command. rewrite bind_unfold, E.
    unfold logging_info. rewrite logging_log_quiet by reflexivity.
    unfold emit. cbn [clock log pending thread MacOS.shown]. now rewrite <- app_assoc.
Qed.

Lemma MacOS_run_command_outcomes_witness :
  quiet boot /\
  (forall d out err text,
     spawn failing_world (lit "nfsstat") (clock boot) = Exits d 0 out err ->
     decode out = Some text ->
     MacOS.run_command failing_world (lit "nfsstat") boot
     = Returned (Some (strip text))
         (mkState (clock boot + Z.of_N d) (log boot) None (thread boot))) /\
  (forall d rc out err text,
     spawn failing_world (lit "nfsstat") (clock boot) = Exits d rc out err ->
     rc <> 0 ->
     decode err = Some text ->
     let failed :=
       mkRecord ERROR (thread boot) "run_command" (clock boot + Z.of_N d)
         [Str (lit "Command '"); Str (lit "nfsstat"); Str (lit "' failed: "); Str text] in
     MacOS.run_command failing_world (lit "nfsstat") boot
     = Returned None
         (mkState (clock boot + Z.of_N d) (log boot ++ [failed]) None (thread boot)) /\
     forall caller,
       MacOS.log_command failing_world caller (lit "nfsstat") boot
       = Returned tt
           (mkState (clock boot + Z.of_N d)
              (log boot ++ [failed;
                            mkRecord INFO (thread boot) caller (clock boot + Z.of_N d)
                              [PyNone]])
              None (thread boot))).
Proof.
  split; [reflexivity |].
  apply (MacOS_run_command_outcomes failing_world (lit "nfsstat") boot). reflexivity.
Defined.

(** C9 as stated fails: [ps aux] exits with status 0 on a host where the
    name of a process holds a byte that is not UTF-8, and [run_command]
    raises [UnicodeDecodeError] instead of returning; the exception leaves
    [process_stats] and the program. *)
Lemma MacOS_run_command_counterexample :
  MacOS.run_command latin1_world (lit "ps aux") boot = Raised UnicodeDecodeError boot /\
  exists s', MacOS.program MacOS.default_config latin1_world 7 boot
             = Raised UnicodeDecodeError s'.
Proof. split; [reflexivity |]. eexists. vm_compute. reflexivity. Qed.

(** C5 fails on the macOS script: [system_info] is the first call of the
    loop body (line 123), so it runs in every pass.  With the constants of
    the script, 60 and 10, on a host that answers at once, the run makes 6
    passes and [system_info] runs 6 times; on Linux the same run makes 6
    passes and [system_info] runs once. *)
Theorem MacOS_system_info_every_pass :
  let l := log (final (MacOS.program MacOS.default_config instant_world 7 boot)) in
  tally sleeping l = 6%nat /\
  tally system_information l = 6%nat /\
  let l' := log (final (Linux.program Linux.default_config (idle_psutil instant_world)
                          7 boot)) in
  cycles_started l' = 6%nat /\
  tally system_info_header l' = 1%nat.
Proof. vm_compute. repeat split. Qed.

(** * The AIX script *)

Lemma AIX_signal_handler_emits signum :
  emits handler_names (AIX.signal_handler signum).
Proof. unfold AIX.signal_handler, AIX.cleanup. emits_tac. Qed.

#[export] Hint Resolve AIX_signal_handler_emits : emits.

Section AIXEmits.

Variable h : AIX.host.
Variable names : list string.
Hypothesis handler_allowed : incl handler_names names.
Hypothesis run_command_allowed : In "run_command" names.

Lemma AIX_decode_emits b : emits names (AIX.decode_utf8 b).
Proof. unfold AIX.decode_utf8. emits_tac. Qed.

Hint Resolve AIX_decode_emits : emits.

Lemma AIX_run_command_emits c T : emits names (AIX.run_command h c T).
Proof. unfold AIX.run_command. emits_tac. Qed.

Lemma AIX_output_lines_emits c : emits names (AIX.output_lines h c).
Proof. unfold AIX.output_lines. emits_tac. Qed.

Lemma AIX_first_word_emits line : emits names (AIX.first_word line).
Proof. unfold AIX.first_word. emits_tac. Qed.

Hint Resolve AIX_run_command_emits AIX_output_lines_emits AIX_first_word_emits : emits.

Lemma AIX_cpu_memory_stats_emits :
  In "cpu_memory_stats" names -> emits names (AIX.cpu_memory_stats h).
Proof. unfold AIX.cpu_memory_stats. emits_tac. Qed.

Lemma AIX_disk_stats_emits :
  In "disk_stats" names -> emits names (AIX.disk_stats h).
Proof. unfold AIX.disk_stats. emits_tac. Qed.

Lemma AIX_volume_group_stats_emits :
  In "volume_group_stats" names -> emits names (AIX.volume_group_stats h).
Proof. unfold AIX.volume_group_stats. emits_tac. Qed.

Lemma AIX_network_stats_emits :
  In "network_stats" names -> emits names (AIX.network_stats h).
Proof. unfold AIX.network_stats. emits_tac. Qed.

Lemma AIX_process_stats_emits :
  In "process_stats" names -> emits names (AIX.process_stats h).
Proof. unfold AIX.process_stats. emits_tac. Qed.

Lemma AIX_paging_stats_emits :
  In "paging_stats" names -> emits names (AIX.paging_stats h).
Proof. unfold AIX.paging_stats. emits_tac. Qed.

Lemma AIX_filesystem_nfs_stats_emits :
  In "filesystem_nfs_stats" names -> emits names (AIX.filesystem_nfs_stats h).
Proof. unfold AIX.filesystem_nfs_stats. emits_tac. Qed.

Lemma AIX_log_monitoring_emits :
  In "log_monitoring" names -> emits names (AIX.log_monitoring h).
Proof. unfold AIX.log_monitoring. emits_tac. Qed.

End AIXEmits.

Lemma in_order_nil probes : in_order probes [].
Proof.
  induction probes as [| p rest IH]; simpl; auto.
  exists [], []. repeat split; auto.
Qed.

Lemma ordered_last {A} probe (m : M A) :
  emits (probe :: "run_command" :: handler_names) m -> ordered [probe] m.
Proof.
  intros Hm s. destruct (Hm s) as (_ & _ & _ & added & Hlog & Hall).
  exists added. split; [exact Hlog |]. split.
  - eapply Forall_impl; [| exact Hall]. cbv beta. tauto.
  - exists added, []. rewrite app_nil_r. repeat split.
    eapply Forall_impl; [| exact Hall]. cbv beta. tauto.
Qed.

Lemma ordered_bind {A B} probe rest (m : M A) (k : M B) :
  emits (probe :: "run_command" :: handler_names) m ->
  ordered rest k ->
  ordered (probe :: rest) (m ;; k).
Proof.
  intros Hm Hk s. rewrite bind_unfold.
  destruct (Hm s) as (_ & Hth & _ & mine & Hlog & Hall).
  assert (Hmine : Forall (from (probe :: "run_command" :: handler_names)) mine)
    by (eapply Forall_impl; [| exact Hall]; cbv beta; tauto).
  assert (Hthread : Forall (fun r => threadName r = thread s) mine)
    by (eapply Forall_impl; [| exact Hall]; cbv beta; tauto).
  destruct (m s) as [a s1 | e s1 | s1]; simpl in *.
  - destruct (Hk s1) as (later & Hlog' & Hthread' & Hlater).
    exists (mine ++ later). split; [now rewrite Hlog', Hlog, app_assoc |]. split.
    + apply Forall_app. split; auto. now rewrite Hth in Hthread'.
    + now exists mine, later.
  - exists mine. repeat split; auto.
    exists mine, []. rewrite app_nil_r. repeat split; auto. apply in_order_nil.
  - exists mine. repeat split; auto.
    exists mine, []. rewrite app_nil_r. repeat split; auto. apply in_order_nil.
Qed.

Lemma AIX_sequential_tasks_ordered h : ordered AIX_sequential (AIX.sequential_tasks h).
Proof.
  unfold AIX.sequential_tasks, AIX_sequential.
  apply ordered_bind; [apply AIX_cpu_memory_stats_emits; names_tac |].
  apply ordered_bind; [apply AIX_volume_group_stats_emits; names_tac |].
  apply ordered_bind; [apply AIX_process_stats_emits; names_tac |].
  apply ordered_bind; [apply AIX_paging_stats_emits; names_tac |].
  apply ordered_bind; [apply AIX_filesystem_nfs_stats_emits; names_tac |].
  apply ordered_last. apply AIX_log_monitoring_emits; names_tac.
Qed.

Lemma Forall_interleave (P : LogRecord -> Prop) sched :
  forall a b, Forall P a -> Forall P b -> Forall P (interleave sched a b).
Proof.
  induction sched as [| [|] sched IH]; intros a b Ha Hb; simpl.
  - apply Forall_app. now split.
  - destruct a as [| x a]; [now apply IH |].
    inversion Ha; subst. constructor; auto.
  - destruct b as [| y b]; [now apply IH |].
    inversion Hb; subst. constructor; auto.
Qed.

Lemma filter_all {A} (l : list A) : filter (fun _ => true) l = l.
Proof. induction l as [| x l IH]; simpl; congruence. Qed.

Lemma Forall_filter {A} (P : A -> Prop) keep (l : list A) :
  Forall P l -> Forall P (filter keep l).
Proof.
  intro H. rewrite Forall_forall in *. intros x Hx. apply filter_In in Hx. now apply H.
Qed.

(** The records of a started thread carry the name of the thread. *)
Lemma started_records names target body s :
  emits names body ->
  Forall (fun r => exists t, threadName r = Worker t)
         (log (final (started target body s))).
Proof.
  intro Hb. unfold started.
  destruct (Hb (mkState (clock s) [] None (Worker target)))
    as (_ & _ & _ & added & Hlog & Hall).
  rewrite Hlog. simpl. eapply Forall_impl; [| exact Hall].
  cbv beta. intros r [Hr _]. now exists target.
Qed.

Lemma AIX_signal_handler_run signum s :
  AIX.signal_handler signum s
  = Raised (SystemExit 1)
      (mkState (clock s)
         (log s ++
          [mkRecord INFO (thread s) "signal_handler" (clock s)
             [Str (lit "Received signal "); Int signum; Str (lit ", cleaning up...")];
           mkRecord INFO (thread s) "cleanup" (clock s)
             [Str (lit "Cleaning up resources before exiting.")]])
         (pending s) (thread s)).
Proof.
  unfold AIX.signal_handler, AIX.cleanup, exit. cbn. now rewrite <- app_assoc.
Qed.



(** * [system_info] on Linux: once, before the loop *)

Lemma Linux_cycle_emits cfg h : emits Linux_loop_names (Linux.cycle cfg h).
Proof.
  unfold Linux.cycle.
  apply emits_bind; [apply emits_logging_info; emits_tac | intros _].
  apply emits_bind;
    [eapply emits_weaken; [| apply Linux_collect_emits]; names_tac | intros _].
  apply emits_bind; [apply emits_logging_info; emits_tac | intros _].
  apply emits_time_sleep; emits_tac.
Qed.

Lemma Linux_monitor_emits cfg h fuel start :
  emits Linux_loop_names (Linux.monitor cfg h fuel start).
Proof.
  induction fuel as [| fuel IH]; cbn [Linux.monitor].
  - apply emits_ret.
  - apply emits_bind; [apply emits_time_time; emits_tac |].
    intro now. destruct (now - start <? Linux.RUN_DURATION cfg).
    + apply emits_bind; [apply Linux_cycle_emits | intros _; exact IH].
    + apply emits_ret.
Qed.

Lemma Linux_after_header_emits cfg h fuel :
  emits Linux_loop_names (Linux_after_header cfg h fuel).
Proof.
  unfold Linux_after_header. apply emits_bind.
  { apply emits_bind; [| intros _]; apply Linux_run_command_emits; names_tac. }
  intros _. apply emits_bind; [apply emits_time_time; emits_tac |].
  intro start. apply emits_bind; [apply Linux_monitor_emits |].
  intros [[] |]; [| apply emits_ret].
  apply emits_bind; [apply emits_logging_info; emits_tac | intros _; apply emits_ret].
Qed.

Lemma Linux_main_quiet cfg h fuel s :
  quiet s ->
  Linux.main cfg h fuel s
  = Linux_after_header cfg h fuel
      (mkState (clock s)
         (log s ++
          [mkRecord INFO (thread s) "main" (clock s)
             [Str (lit "Starting Linux performance monitoring...")];
           mkRecord INFO (thread s) "system_info" (clock s) [Str (lit "System Info:")]])
         None (thread s)).
Proof.
  intro Hs. unfold Linux.main, Linux.system_info, Linux_after_header, bind.
  unfold logging_info at 1. rewrite logging_log_quiet by exact Hs. cbn [emit].
  unfold logging_info at 1. rewrite logging_log_quiet by exact Hs.
  cbn [emit clock log pending thread]. rewrite Hs, <- app_assoc. reflexivity.
Qed.

(** On Linux [system_info] runs once, before the loop: when no signal is on
    its way, a run of [main] adds exactly one "System Info:" record to the
    log, whatever the duration, the interval and the host. *)
Lemma Linux_system_info_once cfg h fuel s :
  quiet s ->
  tally system_info_header (log (final (Linux.main cfg h fuel s)))
  = (tally system_info_header (log s) + 1)%nat.
Proof.
  intro Hs. rewrite Linux_main_quiet by exact Hs.
  match goal with
  | |- context [Linux_after_header cfg h fuel ?s2] =>
    pose proof (Linux_after_header_emits cfg h fuel s2) as Hg
  end.
  apply (grows_tally system_info_header) in Hg; [| never_tac].
  rewrite Hg. cbn [log]. rewrite !tally_app. reflexivity.
Qed.

(** * Which exceptions leave a call *)

Lemma raises_weaken {A} (P Q : exn -> Prop) (m : M A) :
  (forall e, P e -> Q e) -> raises_only P m -> raises_only Q m.
Proof. intros HPQ Hm s e s' E. apply HPQ. eapply Hm; eauto. Qed.

Lemma raises_ret {A} P (a : A) : raises_only P (ret a).
Proof. intros s e s' E. discriminate. Qed.

Lemma raises_raise {A} (P : exn -> Prop) e : P e -> raises_only P (@raise A e).
Proof. intros He s e' s' E. inversion E; subst. exact He. Qed.

Lemma raises_bind {A B} P (m : M A) (k : A -> M B) :
  raises_only P m -> (forall a, raises_only P (k a)) -> raises_only P (bind m k).
Proof.
  intros Hm Hk s e s' E. rewrite bind_unfold in E.
  destruct (m s) as [a s1 | e1 s1 | s1] eqn:E1; try discriminate.
  - eapply Hk; eauto.
  - inversion E; subst. eapply Hm; eauto.
Qed.

Lemma raises_try_except {A} (P Q : exn -> Prop) (m : M A) h :
  raises_only P m ->
  (forall e, P e -> h e = None -> Q e) ->
  (forall e k, h e = Some k -> raises_only Q k) ->
  raises_only Q (try_except m h).
Proof.
  intros Hm Hnone Hsome s e s' E. unfold try_except in E.
  destruct (m s) as [a s1 | e1 s1 | s1] eqn:E1; try discriminate.
  destruct (h e1) as [k |] eqn:Eh.
  - eapply Hsome; eauto.
  - inversion E; subst. apply Hnone; auto. eapply Hm; eauto.
Qed.

(** A handler for exceptions the body never raises is never run. *)
Lemma try_except_unused {A} (P : exn -> Prop) (m : M A) h s :
  raises_only P m -> (forall e, P e -> h e = None) -> try_except m h s = m s.
Proof.
  intros Hm Hnone. unfold try_except.
  destruct (m s) as [a s1 | e s1 | s1] eqn:E; auto.
  now rewrite (Hnone e (Hm _ _ _ E)).
Qed.

Lemma raises_for_each {A} P (xs : list A) body :
  (forall x, raises_only P (body x)) -> raises_only P (for_each xs body).
Proof.
  intro Hb. induction xs as [| x xs IH]; simpl.
  - apply raises_ret.
  - apply raises_bind; auto.
Qed.

Lemma raises_when P c m : raises_only P m -> raises_only P (when c m).
Proof. intro Hm. destruct c; simpl; auto. apply raises_ret. Qed.

Lemma raises_emit P lvl fn m : raises_only P (emit lvl fn m).
Proof. intros s e s' E. discriminate. Qed.

Section Raises.

Variable w : world.
Variable on_signal : Z -> M unit.
Variable P : exn -> Prop.
Hypothesis on_signal_raises : forall signum, raises_only P (on_signal signum).

Lemma raises_take_signal now signum : raises_only P (take_signal on_signal now signum).
Proof. intros s e s' E. unfold take_signal in E. eapply on_signal_raises; eauto. Qed.

Lemma raises_checkpoint : raises_only P (checkpoint on_signal).
Proof.
  intros s e s' E. unfold checkpoint in E.
  destruct (due _ s) as [[at_ n] |]; [| discriminate].
  eapply raises_take_signal; eauto.
Qed.

Lemma raises_advance t : raises_only P (advance t).
Proof. intros s e s' E. discriminate. Qed.

Lemma raises_wait d : raises_only P (wait on_signal d).
Proof.
  intros s e s' E. unfold wait in E.
  destruct (due _ s) as [[at_ n] |]; [| discriminate].
  revert E. apply raises_bind; [apply raises_take_signal | intros _; apply raises_advance].
Qed.

Lemma raises_wait_forever {A} : raises_only P (@wait_forever on_signal A).
Proof.
  intros s e s' E. unfold wait_forever in E.
  destruct (due _ s) as [[at_ n] |]; [| discriminate].
  revert E. apply raises_bind; [apply raises_take_signal |].
  intros _ s1 e1 s1' E1. discriminate.
Qed.

Lemma raises_logging_log lvl fn m : raises_only P (logging_log on_signal lvl fn m).
Proof.
  unfold logging_log. apply raises_bind; [apply raises_checkpoint |].
  intros _. apply raises_emit.
Qed.

Lemma raises_logging_info fn m : raises_only P (logging_info on_signal fn m).
Proof. apply raises_logging_log. Qed.

Lemma raises_logging_warning fn m : raises_only P (logging_warning on_signal fn m).
Proof. apply raises_logging_log. Qed.

Lemma raises_logging_error fn m : raises_only P (logging_error on_signal fn m).
Proof. apply raises_logging_log. Qed.

Lemma raises_time_time : raises_only P (time_time on_signal).
Proof.
  unfold time_time. apply raises_bind; [apply raises_checkpoint |].
  intros _ s e s' E. discriminate.
Qed.

Lemma raises_time_sleep secs : P ValueError -> raises_only P (time_sleep on_signal secs).
Proof.
  intro Hv. unfold time_sleep. apply raises_bind; [apply raises_checkpoint |].
  intros _. destruct (secs <? 0); [now apply raises_raise | apply raises_wait].
Qed.

Lemma raises_shutil_which prog : raises_only P (shutil_which w on_signal prog).
Proof.
  unfold shutil_which. apply raises_bind; [apply raises_checkpoint |].
  intros _. apply raises_ret.
Qed.

(** [subprocess.run] raises [CalledProcessError] only under [check=True]
    and [TimeoutExpired] only when it is given a timeout. *)
Lemma raises_subprocess_run cmd check timeout :
  raises_only
    (fun e => P e \/ (check = true /\ is_CalledProcessError e)
              \/ (timeout <> None /\ is_TimeoutExpired e))
    (subprocess_run w on_signal cmd check timeout).
Proof.
  set (Q := fun e => P e \/ (check = true /\ is_CalledProcessError e)
                     \/ (timeout <> None /\ is_TimeoutExpired e)).
  assert (HPQ : forall e, P e -> Q e) by (intros e He; now left).
  unfold subprocess_run. apply raises_bind.
  { eapply raises_weaken; [exact HPQ | apply raises_checkpoint]. }
  intros _ s.
  assert (Hfin : forall d rc out err,
    raises_only Q (wait on_signal (Z.of_N d) ;;
                   if check && negb (rc =? 0)
                   then raise (CalledProcessError rc cmd out err)
                   else ret (mkCompleted rc out err))).
  { intros. apply raises_bind.
    - eapply raises_weaken; [exact HPQ | apply raises_wait].
    - intros _. destruct check; simpl; [| apply raises_ret].
      destruct (negb (rc =? 0)); [| apply raises_ret].
      apply raises_raise. right. left. now split. }
  destruct (spawn w cmd (clock s)) as [d rc out err |]; destruct timeout as [T |].
  - destruct (Z.of_N d <=? T); [apply Hfin |].
    apply raises_bind; [eapply raises_weaken; [exact HPQ | apply raises_wait] |].
    intros _. apply raises_raise. right. right. split; [discriminate | exact I].
  - apply Hfin.
  - apply raises_bind; [eapply raises_weaken; [exact HPQ | apply raises_wait] |].
    intros _. apply raises_raise. right. right. split; [discriminate | exact I].
  - eapply raises_weaken; [exact HPQ | apply raises_wait_forever].
Qed.

End Raises.

Create HintDb raises.

#[export] Hint Resolve raises_ret raises_raise raises_bind raises_for_each raises_when
  raises_emit raises_checkpoint raises_wait raises_wait_forever raises_logging_log
  raises_logging_info raises_logging_warning raises_logging_error raises_time_time
  raises_time_sleep raises_shutil_which : raises.

Ltac raises_step :=
  match goal with
  | |- raises_only _ (bind _ _) => apply raises_bind; [| intros ?]
  | |- raises_only _ (for_each _ _) => apply raises_for_each; intros ?
  | |- raises_only _ (when _ _) => apply raises_when
  | |- raises_only _ (if ?c then _ else _) => destruct c
  | |- raises_only _ (match ?x with _ => _ end) => destruct x
  end.

Ltac raises_tac := intros; repeat raises_step; auto 6 with raises.

(** ** The exceptions of the Linux script *)

Section LinuxRaises.

Variable cfg : Linux.config.
Variable h : Linux.host.
Variable P : exn -> Prop.
Hypothesis exit_allowed : P (SystemExit 1).
Hypothesis decode_allowed : P UnicodeDecodeError.

Lemma Linux_signal_handler_raises signum : raises_only P (Linux.signal_handler signum).
Proof.
  intros s e s' E. unfold Linux.signal_handler, Linux.cleanup, exit in E. cbn in E.
  inversion E; subst. exact exit_allowed.
Qed.

Hint Resolve Linux_signal_handler_raises : raises.

Lemma Linux_sample_raises {A} (reading : Z -> A) : raises_only P (Linux.sample reading).
Proof.
  unfold Linux.sample. apply raises_bind; [raises_tac |].
  intros _ s e s' E. discriminate.
Qed.

Lemma Linux_decode_raises b : raises_only P (Linux.decode_utf8 b).
Proof. unfold Linux.decode_utf8. raises_tac. Qed.

Hint Resolve Linux_sample_raises Linux_decode_raises : raises.

(** [run_command] catches the [CalledProcessError] of its command: what
    leaves it is the failure to decode, or the exit of the signal handler. *)
Lemma Linux_run_command_raises c : raises_only P (Linux.run_command h c).
Proof.
  unfold Linux.run_command.
  apply (raises_try_except
           (fun e => P e \/ (true = true /\ is_CalledProcessError e)
                     \/ (@None Z <> None /\ is_TimeoutExpired e))).
  - apply raises_bind.
    + apply raises_subprocess_run. auto with raises.
    + intro result. eapply raises_weaken; [intros e He; left; exact He |]. raises_tac.
  - intros e [He | [[_ He] | [Hn _]]] Hh; auto.
    + destruct e; try contradiction. discriminate.
    + now elim Hn.
  - intros e k Hk. destruct e; inversion Hk; subst. raises_tac.
Qed.

Hint Resolve Linux_run_command_raises : raises.

Lemma Linux_cpu_memory_stats_raises : raises_only P (Linux.cpu_memory_stats cfg h).
Proof. unfold Linux.cpu_memory_stats. raises_tac. Qed.

(** [disk_stats] catches the [PermissionError] of [psutil.disk_usage]. *)
Lemma Linux_disk_stats_raises : raises_only P (Linux.disk_stats h).
Proof.
  unfold Linux.disk_stats. raises_tac.
  apply (raises_try_except (fun e => P e \/ e = PermissionError)).
  - unfold Linux.disk_usage. apply raises_bind.
    + apply raises_bind.
      * eapply raises_weaken; [intros e He; left; exact He | raises_tac].
      * intros [usage |]; [apply raises_ret | apply raises_raise; now right].
    + intro usage. eapply raises_weaken; [intros e He; left; exact He | raises_tac].
  - intros e [He | ->] Hh; [exact He | discriminate].
  - intros e k Hk. destruct e; inversion Hk; subst. raises_tac.
Qed.

Lemma Linux_network_stats_raises : raises_only P (Linux.network_stats h).
Proof. unfold Linux.network_stats. raises_tac. Qed.

Lemma Linux_check_process_raises p :
  P TypeError -> raises_only P (Linux.check_process p).
Proof.
  intro Htype. unfold Linux.check_process.
  apply (raises_try_except P); [| auto | discriminate].
  unfold Linux.greater. raises_tac.
Qed.

Hint Resolve Linux_check_process_raises : raises.

Lemma Linux_process_stats_raises :
  P TypeError -> raises_only P (Linux.process_stats h).
Proof. intro Htype. unfold Linux.process_stats. raises_tac. Qed.

Lemma Linux_paging_stats_raises : raises_only P (Linux.paging_stats h).
Proof. unfold Linux.paging_stats. raises_tac. Qed.

Lemma Linux_filesystem_stats_raises : raises_only P (Linux.filesystem_stats h).
Proof. unfold Linux.filesystem_stats. raises_tac. Qed.

(** The body of the [try] block of [nfs_stats], lines 211-215. *)
Lemma Linux_nfs_body_raises :
  raises_only P
    (found <- shutil_which (Linux.os h) Linux.signal_handler (lit "nfsstat") ;;
     if found then
       Linux.run_command h (lit "nfsstat -s") ;;
       Linux.run_command h (lit "nfsstat -c")
     else
       logging_warning Linux.signal_handler "nfs_stats"
         [Str (lit "nfsstat command not found.")]).
Proof. raises_tac. Qed.

Lemma Linux_nfs_stats_raises : raises_only P (Linux.nfs_stats h).
Proof.
  unfold Linux.nfs_stats. apply raises_bind; [raises_tac | intros _].
  apply (raises_try_except P); [apply Linux_nfs_body_raises | auto |].
  intros e k Hk. destruct e; inversion Hk; subst. raises_tac.
Qed.

(** [check_nfs_mounts] catches every [Exception]: only the exit of the
    signal handler leaves it. *)
Lemma Linux_check_nfs_mounts_raises : raises_only P (Linux.check_nfs_mounts h).
Proof.
  unfold Linux.check_nfs_mounts. apply raises_bind; [raises_tac | intros _].
  apply (raises_try_except (fun e => P e \/ e = OSError)).
  - apply raises_bind.
    + unfold Linux.read_proc_mounts. apply raises_bind.
      * eapply raises_weaken; [intros e He; left; exact He | raises_tac].
      * intros [lines |]; [apply raises_ret | apply raises_raise; now right].
    + intro lines. eapply raises_weaken; [intros e He; left; exact He |].
      destruct (filter _ lines); raises_tac.
  - intros e [He | ->] Hh; [exact He | discriminate].
  - intros e k Hk. destruct (Linux.is_Exception e); inversion Hk; subst. raises_tac.
Qed.

Lemma Linux_log_monitoring_raises : raises_only P (Linux.log_monitoring h).
Proof. unfold Linux.log_monitoring. raises_tac. Qed.

Lemma Linux_system_info_raises : raises_only P (Linux.system_info h).
Proof. unfold Linux.system_info. raises_tac. Qed.

Hint Resolve Linux_cpu_memory_stats_raises Linux_disk_stats_raises
  Linux_network_stats_raises Linux_process_stats_raises Linux_paging_stats_raises
  Linux_filesystem_stats_raises Linux_nfs_stats_raises Linux_check_nfs_mounts_raises
  Linux_log_monitoring_raises Linux_system_info_raises : raises.

Hypothesis type_allowed : P TypeError.
Hypothesis value_allowed : P ValueError.

Lemma Linux_collect_raises : raises_only P (Linux.collect cfg h).
Proof. unfold Linux.collect. raises_tac. Qed.

Hint Resolve Linux_collect_raises : raises.

Lemma Linux_cycle_raises : raises_only P (Linux.cycle cfg h).
Proof. unfold Linux.cycle. raises_tac. Qed.

Hint Resolve Linux_cycle_raises : raises.

Lemma Linux_monitor_raises fuel start : raises_only P (Linux.monitor cfg h fuel start).
Proof. induction fuel as [| fuel IH]; cbn [Linux.monitor]; raises_tac. Qed.

Hint Resolve Linux_monitor_raises : raises.

Lemma Linux_main_raises fuel : raises_only P (Linux.main cfg h fuel).
Proof. unfold Linux.main. raises_tac. Qed.

End LinuxRaises.

Lemma Linux_main_fatal cfg h fuel : raises_only Linux_fatal (Linux.main cfg h fuel).
Proof. apply Linux_main_raises; unfold Linux_fatal; tauto. Qed.

(** The [except KeyboardInterrupt] block of [__main__] never runs: the
    script traps SIGINT, so nothing raises [KeyboardInterrupt]. *)
Lemma Linux_program_is_main cfg h fuel s :
  Linux.program cfg h fuel s = Linux.main cfg h fuel s.
Proof.
  unfold Linux.program. apply (try_except_unused Linux_fatal).
  - apply Linux_main_fatal.
  - intros e [-> | [-> | [-> | ->]]]; reflexivity.
Qed.


(** X2.  The [except KeyboardInterrupt] block of the Linux [__main__] never
    runs: SIGINT is trapped and ends in [exit(1)], and nothing else raises
    [KeyboardInterrupt].  The program is [main()] and nothing more; the
    message "Monitoring stopped by user." is never logged. *)
Theorem Linux_keyboard_interrupt_unreachable cfg h fuel s :
  Linux.program cfg h fuel s = Linux.main cfg h fuel s /\
  tally stopped_by_user (log (final (Linux.program cfg h fuel s)))
  = tally stopped_by_user (log s).
Proof.
  split; [apply Linux_program_is_main |].
  rewrite Linux_program_is_main.
  assert (Hm : emits ("system_info" :: Linux_loop_names) (Linux.main cfg h fuel)).
  { unfold Linux.main.
    apply emits_bind; [apply emits_logging_info; emits_tac | intros _].
    apply emits_bind; [apply Linux_system_info_emits; names_tac | intros _].
    apply emits_bind; [apply emits_time_time; emits_tac | intro start].
    apply emits_bind.
    { eapply emits_weaken; [| apply Linux_monitor_emits]. names_tac. }
    intros [[] |]; [| apply emits_ret].
    apply emits_bind; [apply emits_logging_info; emits_tac | intros _; apply emits_ret]. }
  apply (grows_tally stopped_by_user ("system_info" :: Linux_loop_names)); [| apply Hm].
  unfold Linux_loop_names, Linux_probe_names. never_tac.
Qed.

(** X3.  The [except subprocess.CalledProcessError] clause of [nfs_stats]
    never runs, because [run_command] has caught that exception already:
    whatever [nfsstat] does, [nfs_stats] never logs "Failed to get NFS
    stats". *)
Theorem Linux_nfs_stats_never_reports_failure h s :
  tally nfs_failure (log (final (Linux.nfs_stats h s))) = tally nfs_failure (log s).
Proof.
  unfold Linux.nfs_stats. rewrite bind_unfold.
  assert (Hhead : emits ["nfs_stats"; "signal_handler"; "cleanup"]
                    (logging_info Linux.signal_handler "nfs_stats" [Str (lit "NFS Stats:")]))
    by emits_tac.
  assert (Hwrites : writes_at_most nfs_failure 0
                      (logging_info Linux.signal_handler "nfs_stats" [Str (lit "NFS Stats:")]))
    by (apply (writes_logging_log nfs_failure _ INFO "nfs_stats");
        [emits_tac | never_tac]).
  specialize (Hwrites s). destruct (Hhead s) as (_ & _ & _ & added & Hlog & _).
  assert (Hsame : tally nfs_failure
                    (log (final (logging_info Linux.signal_handler "nfs_stats"
                                   [Str (lit "NFS Stats:")] s)))
                  = tally nfs_failure (log s)).
  { rewrite Hlog, tally_app in *. lia. }
  destruct (logging_info Linux.signal_handler "nfs_stats" [Str (lit "NFS Stats:")] s)
    as [[] s1 | e s1 | s1]; cbn [final] in *; auto.
  rewrite (try_except_unused (fun e => e = SystemExit 1 \/ e = UnicodeDecodeError)).
  - rewrite <- Hsame. clear.
    assert (Hbody : emits ["nfs_stats"; "run_command"; "signal_handler"; "cleanup"]
      (found <- shutil_which (Linux.os h) Linux.signal_handler (lit "nfsstat") ;;
       if found then
         Linux.run_command h (lit "nfsstat -s") ;;
         Linux.run_command h (lit "nfsstat -c")
       else
         logging_warning Linux.signal_handler "nfs_stats"
           [Str (lit "nfsstat command not found.")])).
    { apply emits_bind; [emits_tac |]. intros [|].
      - apply emits_bind; [| intros _]; apply Linux_run_command_emits; names_tac.
      - emits_tac. }
    assert (Hnone : writes_at_most nfs_failure 0
      (found <- shutil_which (Linux.os h) Linux.signal_handler (lit "nfsstat") ;;
       if found then
         Linux.run_command h (lit "nfsstat -s") ;;
         Linux.run_command h (lit "nfsstat -c")
       else
         logging_warning Linux.signal_handler "nfs_stats"
           [Str (lit "nfsstat command not found.")])).
    { apply (writes_bind nfs_failure 0 0).
      - apply (writes_none nfs_failure handler_names); [never_tac | emits_tac].
      - intros [|].
        + apply (writes_none nfs_failure ["run_command"; "signal_handler"; "cleanup"]);
            [never_tac |].
          apply emits_bind; [| intros _]; apply Linux_run_command_emits; names_tac.
        + apply (writes_logging_log nfs_failure _ WARNING "nfs_stats");
            [emits_tac | never_tac]. }
    specialize (Hnone s1). destruct (Hbody s1) as (_ & _ & _ & more & Hmore & _).
    rewrite Hmore, tally_app in *. lia.
  - apply Linux_nfs_body_raises; tauto.
  - intros e [-> | ->]; reflexivity.
Qed.

(** * The loop of [main], whatever the script *)

Lemma takes_weaken {A} d d' (m : M A) :
  d' <= d -> takes_at_least d m -> takes_at_least d' m.
Proof. intros Hd Hm s a s' E. specialize (Hm s a s' E). lia. Qed.

Section Loop.

(** A loop of the shape all three scripts have: as long as less than [D]
    seconds have passed since [start_time], run [cycle].  A pass writes at
    most one record of the kind [what] and takes at least [J] seconds. *)
Variable on_signal : Z -> M unit.
Hypothesis on_signal_emits : forall signum, emits handler_names (on_signal signum).
Variable what : string -> message -> bool.
Hypothesis what_not_handler : never_by what handler_names.
Variable cycle : M unit.
Variable D J : Z.
Hypothesis J_positive : 0 < J.
Hypothesis cycle_writes : writes_at_most what 1 cycle.
Hypothesis cycle_takes : takes_at_least J cycle.
Variable loop : nat -> Z -> M (option unit).
Hypothesis loop_O : forall start, loop O start = ret None.
Hypothesis loop_S :
  forall fuel start,
    loop (S fuel) start
    = (now <- time_time on_signal ;;
       if now - start <? D then cycle ;; loop fuel start else ret (Some tt)).

Lemma loop_bound :
  forall fuel start s,
    start <= clock s ->
    (Z.to_nat (ceil_div (D - (clock s - start)) J) < fuel)%nat ->
    (forall s', loop fuel start s <> Returned None s') /\
    Z.of_nat (tally what (log (final (loop fuel start s))))
    <= Z.of_nat (tally what (log s)) + Z.max 0 (ceil_div (D - (clock s - start)) J).
Proof.
  induction fuel as [| fuel IH]; intros start s Hstart Hfuel; [lia |].
  rewrite loop_S, bind_unfold.
  pose proof (emits_time_time _ on_signal_emits handler_names (incl_refl _) s) as Hg.
  pose proof (grows_tally what _ _ _ what_not_handler Hg) as Hn.
  destruct Hg as (Hc & _).
  destruct (time_time on_signal s) as [now s1 | e s1 | s1] eqn:E1;
    cbn [final] in Hc, Hn; [| cbn [final]; split; [discriminate | lia] ..].
  apply time_time_returned in E1. subst now.
  destruct (clock s1 - start <? D) eqn:Elt.
  - apply Z.ltb_lt in Elt.
    pose proof (ceil_div_pos (D - (clock s1 - start)) J J_positive ltac:(lia)) as Hpos.
    pose proof (ceil_div_step (D - (clock s1 - start)) (D - (clock s1 - start) - J) J
                  J_positive ltac:(lia)) as Hstep1.
    assert (Hmono : forall x y, x <= y -> ceil_div x J <= ceil_div y J).
    { intros x y Hxy. unfold ceil_div. apply Z.div_le_mono; lia. }
    pose proof (Hmono (D - (clock s1 - start)) (D - (clock s - start)) ltac:(lia)) as Hm1.
    rewrite bind_unfold.
    pose proof (cycle_writes s1) as Hb.
    pose proof (cycle_takes s1) as Ht.
    destruct (cycle s1) as [[] s2 | e s2 | s2]; cbn [final] in Hb;
      [| cbn [final]; split; [discriminate | lia] ..].
    specialize (Ht tt s2 eq_refl).
    pose proof (Hmono (D - (clock s2 - start)) (D - (clock s1 - start) - J) ltac:(lia)) as Hm2.
    destruct (IH start s2 ltac:(lia) ltac:(lia)) as [Hnone Hcount].
    split; [exact Hnone | lia].
  - cbn [final ret]. split; [discriminate | lia].
Qed.

(** The loop as [main] enters it: [start_time] is the time of entry. *)
Lemma entered_loop_bound fuel s :
  (Z.to_nat (ceil_div D J) < fuel)%nat ->
  forall start s1,
    time_time on_signal s = Returned start s1 ->
    (forall s', loop fuel start s1 <> Returned None s') /\
    Z.of_nat (tally what (log (final (loop fuel start s1))))
    <= Z.of_nat (tally what (log s)) + Z.max 0 (ceil_div D J).
Proof.
  intros Hfuel start s1 E.
  pose proof (emits_time_time _ on_signal_emits handler_names (incl_refl _) s) as Hg.
  apply (grows_tally what _ _ _ what_not_handler) in Hg. rewrite E in Hg. cbn [final] in Hg.
  apply time_time_returned in E. subst start.
  assert (E0 : D - (clock s1 - clock s1) = D) by lia.
  destruct (loop_bound fuel (clock s1) s1 ltac:(lia)) as [Hnone Hcount].
  - now rewrite E0.
  - rewrite E0 in Hcount. split; [exact Hnone | lia].
Qed.

End Loop.

(** ** The Linux loop ends, whatever the interval *)

#[export] Hint Resolve Linux_sample_emits Linux_decode_emits Linux_run_command_emits
  : emits.

Lemma Linux_wait_takes d : takes_at_least d (wait Linux.signal_handler d).
Proof.
  intros s a s' E. unfold wait in E. destruct (due _ s) as [[at_ n] |].
  - rewrite bind_unfold in E.
    destruct (take_signal _ _ _ s) as [[] s2 | e s2 | s2] eqn:E2; discriminate.
  - inversion E; subst. simpl. lia.
Qed.

Lemma Linux_sleep_takes secs :
  takes_at_least (Z.max 0 secs) (time_sleep Linux.signal_handler secs).
Proof.
  intros s a s' E. destruct (Z.ltb_spec secs 0) as [Hneg | Hpos].
  - unfold time_sleep in E. rewrite bind_unfold in E.
    destruct (checkpoint Linux.signal_handler s) as [[] s1 | e s1 | s1]; try discriminate.
    destruct (secs <? 0) eqn:E0; [discriminate | apply Z.ltb_ge in E0; lia].
  - pose proof (Linux_time_sleep_takes secs s a s' E). lia.
Qed.

(** [psutil.cpu_percent(interval=1)] holds [cpu_memory_stats] for a
    second. *)
Lemma Linux_cpu_memory_stats_takes cfg h :
  takes_at_least 1 (Linux.cpu_memory_stats cfg h).
Proof.
  unfold Linux.cpu_memory_stats.
  apply (takes_bind 0 1);
    [apply (takes_none ["cpu_memory_stats"; "signal_handler"; "cleanup"]); emits_tac |].
  intros _. apply (takes_bind 0 1);
    [apply (takes_none handler_names); emits_tac |].
  intro v. apply (takes_bind 1 0); [apply Linux_wait_takes |].
  intros _.
  apply (takes_none ["cpu_memory_stats"; "run_command"; "signal_handler"; "cleanup"]).
  emits_tac.
Qed.

Lemma Linux_collect_takes cfg h : takes_at_least 1 (Linux.collect cfg h).
Proof.
  unfold Linux.collect.
  apply (takes_bind 1 0); [apply Linux_cpu_memory_stats_takes |].
  intros _. apply (takes_none Linux_probe_names).
  repeat emits_step.
  - apply Linux_disk_stats_emits; names_tac.
  - apply Linux_network_stats_emits; names_tac.
  - apply Linux_process_stats_emits; names_tac.
  - apply Linux_paging_stats_emits; names_tac.
  - apply Linux_filesystem_stats_emits; names_tac.
  - apply Linux_nfs_stats_emits; names_tac.
  - apply Linux_check_nfs_mounts_emits; names_tac.
  - apply Linux_log_monitoring_emits; names_tac.
Qed.

Lemma Linux_cycle_takes_more cfg h :
  takes_at_least (Z.max 0 (Linux.CHECK_INTERVAL cfg) + 1) (Linux.cycle cfg h).
Proof.
  unfold Linux.cycle.
  apply (takes_weaken (0 + (1 + (0 + Z.max 0 (Linux.CHECK_INTERVAL cfg))))); [lia |].
  apply takes_bind;
    [apply (takes_none ["main"; "signal_handler"; "cleanup"]); emits_tac |].
  intros _. apply takes_bind; [apply Linux_collect_takes |].
  intros _. apply takes_bind;
    [apply (takes_none ["main"; "signal_handler"; "cleanup"]); emits_tac |].
  intros _. apply Linux_sleep_takes.
Qed.

Lemma Linux_main_bound_tight cfg h fuel s :
  (Z.to_nat (ceil_div (Linux.RUN_DURATION cfg)
                      (Z.max 0 (Linux.CHECK_INTERVAL cfg) + 1)) < fuel)%nat ->
  (forall s', Linux.main cfg h fuel s <> Returned None s') /\
  Z.of_nat (cycles_started (log (final (Linux.main cfg h fuel s))))
  <= Z.of_nat (cycles_started (log s))
     + Z.max 0 (ceil_div (Linux.RUN_DURATION cfg)
                         (Z.max 0 (Linux.CHECK_INTERVAL cfg) + 1)).
Proof.
  intro Hfuel. unfold Linux.main, cycles_started.
  rewrite bind_unfold.
  assert (H1 : writes_at_most collecting 0
                 (logging_info Linux.signal_handler "main"
                    [Str (lit "Starting Linux performance monitoring...")]))
    by (apply (begins_logging_log _ INFO "main"); emits_tac).
  specialize (H1 s).
  destruct (logging_info _ _ _ s) as [[] s1 | e s1 | s1];
    cbn [final] in H1; [| cbn [final]; split; [discriminate | lia] ..].
  rewrite bind_unfold.
  assert (H2 : writes_at_most collecting 0 (Linux.system_info h)).
  { apply (begins_none ["system_info"; "run_command"; "signal_handler"; "cleanup"]).
    - simpl. intuition discriminate.
    - apply Linux_system_info_emits; names_tac. }
  specialize (H2 s1).
  destruct (Linux.system_info h s1) as [[] s2 | e s2 | s2];
    cbn [final] in H2; [| cbn [final]; split; [discriminate | lia] ..].
  rewrite bind_unfold.
  pose proof (emits_time_time _ Linux_signal_handler_emits handler_names (incl_refl _) s2)
    as H3.
  apply (grows_tally collecting _ _ _
           (collecting_not_main _ handler_names_not_main)) in H3.
  destruct (time_time Linux.signal_handler s2) as [start s3 | e s3 | s3] eqn:E3;
    cbn [final] in H3; [| cbn [final]; split; [discriminate | lia] ..].
  destruct (entered_loop_bound Linux.signal_handler Linux_signal_handler_emits
              collecting (collecting_not_main _ handler_names_not_main)
              (Linux.cycle cfg h) (Linux.RUN_DURATION cfg)
              (Z.max 0 (Linux.CHECK_INTERVAL cfg) + 1) ltac:(lia)
              (Linux_cycle_begins cfg h) (Linux_cycle_takes_more cfg h)
              (Linux.monitor cfg h) (fun _ _ => eq_refl)
              fuel s2 Hfuel start s3 E3) as [Hnone Hcount].
  rewrite bind_unfold.
  destruct (Linux.monitor cfg h fuel start s3) as [[[] |] s4 | e s4 | s4];
    cbn [final] in Hcount;
    [| now elim (Hnone s4) | cbn [final]; split; [discriminate | lia] ..].
  rewrite bind_unfold.
  assert (H5 : writes_at_most collecting 0
                 (logging_info Linux.signal_handler "main"
                    [Str (lit "Linux performance monitoring completed after the set duration.")]))
    by (apply (begins_logging_log _ INFO "main"); emits_tac).
  specialize (H5 s4).
  destruct (logging_info _ _ _ s4) as [[] s5 | e s5 | s5];
    unfold writes_at_most in H5; cbn [final] in H5; cbn [final ret bind];
    (split; [try discriminate | try lia]).
Qed.



(** ** The AIX loop *)

(** The two scripts have the same signal handler. *)
Lemma AIX_handler_is_Linux : AIX.signal_handler = Linux.signal_handler.
Proof. reflexivity. Qed.

Lemma AIX_time_sleep_takes secs :
  takes_at_least secs (time_sleep AIX.signal_handler secs).
Proof. rewrite AIX_handler_is_Linux. apply Linux_time_sleep_takes. Qed.

Lemma started_records_from names target body s :
  emits names body -> Forall (from names) (log (final (started target body s))).
Proof.
  intro Hb. unfold started.
  destruct (Hb (mkState (clock s) [] None (Worker target)))
    as (_ & _ & _ & added & Hlog & Hall).
  rewrite Hlog. simpl. eapply Forall_impl; [| exact Hall]. cbv beta. tauto.
Qed.

(** What [parallel_tasks] leaves behind: time has not run backwards, no
    signal has appeared, and the log has grown by records of the two
    threads and, when a signal cut the wait short, of the handler. *)
Lemma AIX_parallel_tasks_grows h s :
  clock s <= clock (final (AIX.parallel_tasks h s)) /\
  thread (final (AIX.parallel_tasks h s)) = thread s /\
  (quiet s -> quiet (final (AIX.parallel_tasks h s))) /\
  exists added,
    log (final (AIX.parallel_tasks h s)) = log s ++ added /\
    Forall (from AIX_thread_names) added.
Proof.
  unfold AIX.parallel_tasks, start_and_join. cbv zeta.
  set (o1 := started "disk_stats" (AIX.disk_stats h) s).
  set (o2 := started "network_stats" (AIX.network_stats h) s).
  assert (H1 : Forall (from AIX_thread_names) (log (final o1))).
  { apply started_records_from. apply AIX_disk_stats_emits; names_tac. }
  assert (H2 : Forall (from AIX_thread_names) (log (final o2))).
  { apply started_records_from. apply AIX_network_stats_emits; names_tac. }
  set (ends := match o1 with
               | Blocked _ => None
               | _ => match o2 with
                      | Blocked _ => None
                      | _ => Some (Z.max (clock (final o1)) (clock (final o2)))
                      end
               end).
  destruct (due ends s) as [[at_ signum] |] eqn:Edue.
  - rewrite bind_unfold, AIX_signal_handler_run. cbn [final log clock thread pending].
    split; [lia |]. split; [reflexivity |]. split; [reflexivity |].
    eexists. split; [rewrite <- app_assoc; reflexivity |].
    apply Forall_app. split.
    + apply Forall_interleave; apply Forall_filter; assumption.
    + repeat constructor; unfold from; simpl; tauto.
  - destruct ends as [t |].
    + unfold advance. cbn [final clock log pending thread]. rewrite !filter_all.
      split; [lia |]. split; [reflexivity |]. split; [auto |].
      eexists. split; [reflexivity |]. now apply Forall_interleave.
    + cbn [final clock log pending thread]. rewrite !filter_all.
      split; [lia |]. split; [reflexivity |]. split; [auto |].
      eexists. split; [reflexivity |]. now apply Forall_interleave.
Qed.

Lemma AIX_parallel_tasks_writes what h :
  never_by what AIX_thread_names -> writes_at_most what 0 (AIX.parallel_tasks h).
Proof.
  intros Hnever s.
  destruct (AIX_parallel_tasks_grows h s) as (_ & _ & _ & added & -> & Hall).
  rewrite tally_app, (tally_others what AIX_thread_names added); auto.
Qed.

Lemma AIX_sequential_tasks_emits h : emits AIX_pass_names (AIX.sequential_tasks h).
Proof.
  unfold AIX.sequential_tasks. repeat emits_step.
  - apply AIX_cpu_memory_stats_emits; names_tac.
  - apply AIX_volume_group_stats_emits; names_tac.
  - apply AIX_process_stats_emits; names_tac.
  - apply AIX_paging_stats_emits; names_tac.
  - apply AIX_filesystem_nfs_stats_emits; names_tac.
  - apply AIX_log_monitoring_emits; names_tac.
Qed.

Lemma AIX_system_info_emits h names :
  incl handler_names names -> In "run_command" names -> In "system_info" names ->
  emits names (AIX.system_info h).
Proof.
  intros. unfold AIX.system_info. repeat emits_step;
    first [apply AIX_run_command_emits; assumption | emits_tac].
Qed.

Lemma AIX_cycle_begins cfg h : begins_at_most 1 (AIX.cycle cfg h).
Proof.
  unfold AIX.cycle.
  apply (begins_bind 1 0); [apply (begins_logging_log _ INFO "main"); emits_tac |].
  intros _. apply (begins_bind 0 0).
  { apply AIX_parallel_tasks_writes. unfold AIX_thread_names. never_tac. }
  intros _. apply (begins_bind 0 0).
  { apply (begins_none AIX_pass_names); [| apply AIX_sequential_tasks_emits].
    simpl. intuition discriminate. }
  intros _. apply (begins_bind 0 0).
  { apply (begins_logging_log _ INFO "main"); emits_tac. }
  intros _. apply (begins_none handler_names); [apply handler_names_not_main | emits_tac].
Qed.

Lemma AIX_cycle_takes cfg h : takes_at_least (AIX.CHECK_INTERVAL cfg) (AIX.cycle cfg h).
Proof.
  unfold AIX.cycle.
  apply (takes_bind 0); [apply (takes_none ["main"; "signal_handler"; "cleanup"]); emits_tac |].
  intros _. apply (takes_bind 0).
  { intros s a s' E. destruct (AIX_parallel_tasks_grows h s) as (Hc & _).
    rewrite E in Hc. simpl in Hc. lia. }
  intros _. apply (takes_bind 0); [apply (takes_none _ _ (AIX_sequential_tasks_emits h)) |].
  intros _. apply (takes_bind 0);
    [apply (takes_none ["main"; "signal_handler"; "cleanup"]); emits_tac |].
  intros _. apply AIX_time_sleep_takes.
Qed.

Lemma AIX_main_bound cfg h fuel s :
  0 < AIX.CHECK_INTERVAL cfg ->
  (Z.to_nat (ceil_div (AIX.RUN_DURATION cfg) (AIX.CHECK_INTERVAL cfg)) < fuel)%nat ->
  (forall s', AIX.main cfg h fuel s <> Returned None s') /\
  Z.of_nat (cycles_started (log (final (AIX.main cfg h fuel s))))
  <= Z.of_nat (cycles_started (log s))
     + Z.max 0 (ceil_div (AIX.RUN_DURATION cfg) (AIX.CHECK_INTERVAL cfg)).
Proof.
  intros HI Hfuel. unfold AIX.main, cycles_started.
  rewrite bind_unfold.
  assert (H1 : writes_at_most collecting 0
                 (logging_info AIX.signal_handler "main"
                    [Str (lit "Starting AIX performance monitoring...")]))
    by (apply (begins_logging_log _ INFO "main"); emits_tac).
  specialize (H1 s).
  destruct (logging_info _ _ _ s) as [[] s1 | e s1 | s1];
    cbn [final] in H1; [| cbn [final]; split; [discriminate | lia] ..].
  rewrite bind_unfold.
  assert (H2 : writes_at_most collecting 0 (AIX.system_info h)).
  { apply (begins_none ["system_info"; "run_command"; "signal_handler"; "cleanup"]).
    - simpl. intuition discriminate.
    - apply AIX_system_info_emits; names_tac. }
  specialize (H2 s1).
  destruct (AIX.system_info h s1) as [[] s2 | e s2 | s2];
    cbn [final] in H2; [| cbn [final]; split; [discriminate | lia] ..].
  rewrite bind_unfold.
  pose proof (emits_time_time _ AIX_signal_handler_emits handler_names (incl_refl _) s2)
    as H3.
  apply (grows_tally collecting _ _ _
           (collecting_not_main _ handler_names_not_main)) in H3.
  destruct (time_time AIX.signal_handler s2) as [start s3 | e s3 | s3] eqn:E3;
    cbn [final] in H3; [| cbn [final]; split; [discriminate | lia] ..].
  destruct (entered_loop_bound AIX.signal_handler AIX_signal_handler_emits
              collecting (collecting_not_main _ handler_names_not_main)
              (AIX.cycle cfg h) (AIX.RUN_DURATION cfg) (AIX.CHECK_INTERVAL cfg) HI
              (AIX_cycle_begins cfg h) (AIX_cycle_takes cfg h)
              (AIX.monitor cfg h) (fun _ _ => eq_refl)
              fuel s2 Hfuel start s3 E3) as [Hnone Hcount].
  rewrite bind_unfold.
  destruct (AIX.monitor cfg h fuel start s3) as [[[] |] s4 | e s4 | s4];
    cbn [final] in Hcount;
    [| now elim (Hnone s4) | cbn [final]; split; [discriminate | lia] ..].
  rewrite bind_unfold.
  assert (H5 : writes_at_most collecting 0
                 (logging_info AIX.signal_handler "main"
                    [Str (lit "AIX performance monitoring completed after the set duration.")]))
    by (apply (begins_logging_log _ INFO "main"); emits_tac).
  specialize (H5 s4).
  destruct (logging_info _ _ _ s4) as [[] s5 | e s5 | s5];
    unfold writes_at_most in H5; cbn [final] in H5; cbn [final ret bind];
    (split; [try discriminate | try lia]).
Qed.



(** ** The macOS loop *)

Lemma MacOS_default_handler_emits signum :
  emits handler_names (MacOS.default_handler signum).
Proof. unfold MacOS.default_handler. emits_tac. Qed.

#[export] Hint Resolve MacOS_default_handler_emits : emits.

Section MacOSEmits.

Variable w : world.
Variable names : list string.
Hypothesis handler_allowed : incl handler_names names.
Hypothesis run_command_allowed : In "run_command" names.

Lemma MacOS_decode_emits b : emits names (MacOS.decode_utf8 b).
Proof. unfold MacOS.decode_utf8. emits_tac. Qed.

Hint Resolve MacOS_decode_emits : emits.

Lemma MacOS_run_command_emits c : emits names (MacOS.run_command w c).
Proof. unfold MacOS.run_command. emits_tac. Qed.

Hint Resolve MacOS_run_command_emits : emits.

Lemma MacOS_log_command_emits caller c :
  In caller names -> emits names (MacOS.log_command w caller c).
Proof. intro Hc. unfold MacOS.log_command. emits_tac. Qed.

Hint Resolve MacOS_log_command_emits : emits.

Lemma MacOS_system_info_emits :
  In "system_info" names -> emits names (MacOS.system_info w).
Proof. intro. unfold MacOS.system_info. emits_tac. Qed.

Lemma MacOS_cpu_memory_stats_emits :
  In "cpu_memory_stats" names -> emits names (MacOS.cpu_memory_stats w).
Proof. intro. unfold MacOS.cpu_memory_stats. emits_tac. Qed.

Lemma MacOS_disk_stats_emits :
  In "disk_stats" names -> emits names (MacOS.disk_stats w).
Proof. intro. unfold MacOS.disk_stats. emits_tac. Qed.

Lemma MacOS_process_stats_emits :
  In "process_stats" names -> emits names (MacOS.process_stats w).
Proof. intro. unfold MacOS.process_stats. emits_tac. Qed.

Lemma MacOS_network_stats_emits :
  In "network_stats" names -> emits names (MacOS.network_stats w).
Proof. intro. unfold MacOS.network_stats. emits_tac. Qed.

Lemma MacOS_filesystem_nfs_stats_emits :
  In "filesystem_nfs_stats" names -> emits names (MacOS.filesystem_nfs_stats w).
Proof. intro. unfold MacOS.filesystem_nfs_stats. emits_tac. Qed.

Lemma MacOS_error_logs_emits :
  In "error_logs" names -> emits names (MacOS.error_logs w).
Proof. intro. unfold MacOS.error_logs. emits_tac. Qed.

End MacOSEmits.

Lemma MacOS_cycle_writes cfg w : writes_at_most sleeping 1 (MacOS.cycle cfg w).
Proof.
  assert (Hend : writes_at_most sleeping 1
    (logging_info MacOS.default_handler "main"
       [Str (lit "Sleeping for "); Int (MacOS.CHECK_INTERVAL cfg);
        Str (lit " seconds...")] ;;
     time_sleep MacOS.default_handler (MacOS.CHECK_INTERVAL cfg))).
  { apply (writes_bind sleeping 1 0).
    - apply (writes_logging_log sleeping _ INFO "main"); [emits_tac | never_tac].
    - intros _. apply (writes_none sleeping handler_names); [never_tac | emits_tac]. }
  assert (Hone : forall names (m : M unit), never_by sleeping names -> emits names m ->
                 forall k : M unit, writes_at_most sleeping 1 k ->
                 writes_at_most sleeping 1 (m ;; k)).
  { intros names m Hnever Hm k Hk. apply (writes_bind sleeping 0 1); [| intros _; exact Hk].
    now apply (writes_none sleeping names). }
  unfold MacOS.cycle.
  apply (Hone ["system_info"; "run_command"; "signal_handler"; "cleanup"]);
    [never_tac | apply MacOS_system_info_emits; names_tac |].
  apply (Hone ["cpu_memory_stats"; "run_command"; "signal_handler"; "cleanup"]);
    [never_tac | apply MacOS_cpu_memory_stats_emits; names_tac |].
  apply (Hone ["disk_stats"; "run_command"; "signal_handler"; "cleanup"]);
    [never_tac | apply MacOS_disk_stats_emits; names_tac |].
  apply (Hone ["process_stats"; "run_command"; "signal_handler"; "cleanup"]);
    [never_tac | apply MacOS_process_stats_emits; names_tac |].
  apply (Hone ["network_stats"; "run_command"; "signal_handler"; "cleanup"]);
    [never_tac | apply MacOS_network_stats_emits; names_tac |].
  apply (Hone ["filesystem_nfs_stats"; "run_command"; "signal_handler"; "cleanup"]);
    [never_tac | apply MacOS_filesystem_nfs_stats_emits; names_tac |].
  apply (Hone ["error_logs"; "run_command"; "signal_handler"; "cleanup"]);
    [never_tac | apply MacOS_error_logs_emits; names_tac |].
  exact Hend.
Qed.

Lemma MacOS_time_sleep_takes secs :
  takes_at_least secs (time_sleep MacOS.default_handler secs).
Proof.
  intros s a s' E. unfold time_sleep in E. rewrite bind_unfold in E.
  pose proof (emits_checkpoint _ MacOS_default_handler_emits handler_names (incl_refl _) s)
    as (Hc & _).
  destruct (checkpoint MacOS.default_handler s) as [[] s1 | e s1 | s1]; try discriminate.
  simpl in Hc. destruct (secs <? 0); [discriminate |].
  unfold wait in E. destruct (due _ s1) as [[at_ n] |].
  - rewrite bind_unfold in E. unfold take_signal, MacOS.default_handler in E.
    destruct (n =? SIGINT); discriminate.
  - inversion E; subst. simpl. lia.
Qed.

Lemma MacOS_cycle_takes cfg w :
  takes_at_least (MacOS.CHECK_INTERVAL cfg) (MacOS.cycle cfg w).
Proof.
  assert (Hstep : forall names (m : M unit), emits names m ->
                  forall k : M unit, takes_at_least (MacOS.CHECK_INTERVAL cfg) k ->
                  takes_at_least (MacOS.CHECK_INTERVAL cfg) (m ;; k)).
  { intros names m Hm k Hk.
    apply (takes_bind 0 (MacOS.CHECK_INTERVAL cfg)); [| intros _; exact Hk].
    now apply (takes_none names). }
  unfold MacOS.cycle.
  apply (Hstep ["system_info"; "run_command"; "signal_handler"; "cleanup"]);
    [apply MacOS_system_info_emits; names_tac |].
  apply (Hstep ["cpu_memory_stats"; "run_command"; "signal_handler"; "cleanup"]);
    [apply MacOS_cpu_memory_stats_emits; names_tac |].
  apply (Hstep ["disk_stats"; "run_command"; "signal_handler"; "cleanup"]);
    [apply MacOS_disk_stats_emits; names_tac |].
  apply (Hstep ["process_stats"; "run_command"; "signal_handler"; "cleanup"]);
    [apply MacOS_process_stats_emits; names_tac |].
  apply (Hstep ["network_stats"; "run_command"; "signal_handler"; "cleanup"]);
    [apply MacOS_network_stats_emits; names_tac |].
  apply (Hstep ["filesystem_nfs_stats"; "run_command"; "signal_handler"; "cleanup"]);
    [apply MacOS_filesystem_nfs_stats_emits; names_tac |].
  apply (Hstep ["error_logs"; "run_command"; "signal_handler"; "cleanup"]);
    [apply MacOS_error_logs_emits; names_tac |].
  apply (Hstep ["main"; "signal_handler"; "cleanup"]); [emits_tac |].
  apply MacOS_time_sleep_takes.
Qed.

Lemma MacOS_main_bound cfg w fuel s :
  0 < MacOS.CHECK_INTERVAL cfg ->
  (Z.to_nat (ceil_div (MacOS.RUN_DURATION cfg) (MacOS.CHECK_INTERVAL cfg)) < fuel)%nat ->
  (forall s', MacOS.main cfg w fuel s <> Returned None s') /\
  Z.of_nat (tally sleeping (log (final (MacOS.main cfg w fuel s))))
  <= Z.of_nat (tally sleeping (log s))
     + Z.max 0 (ceil_div (MacOS.RUN_DURATION cfg) (MacOS.CHECK_INTERVAL cfg)).
Proof.
  intros HI Hfuel. unfold MacOS.main, MacOS.setup_logging.
  rewrite bind_unfold. cbn [ret]. rewrite bind_unfold.
  assert (Hsleep : never_by sleeping handler_names) by never_tac.
  pose proof (emits_time_time _ MacOS_default_handler_emits handler_names (incl_refl _) s)
    as H3.
  apply (grows_tally sleeping _ _ _ Hsleep) in H3.
  destruct (time_time MacOS.default_handler s) as [start s3 | e s3 | s3] eqn:E3;
    cbn [final] in H3; [| cbn [final]; split; [discriminate | lia] ..].
  destruct (entered_loop_bound MacOS.default_handler MacOS_default_handler_emits
              sleeping Hsleep
              (MacOS.cycle cfg w) (MacOS.RUN_DURATION cfg) (MacOS.CHECK_INTERVAL cfg) HI
              (MacOS_cycle_writes cfg w) (MacOS_cycle_takes cfg w)
              (MacOS.monitor cfg w) (fun _ _ => eq_refl)
              fuel s Hfuel start s3 E3) as [Hnone Hcount].
  rewrite bind_unfold.
  destruct (MacOS.monitor cfg w fuel start s3) as [[[] |] s4 | e s4 | s4];
    cbn [final] in Hcount;
    [| now elim (Hnone s4) | cbn [final]; split; [discriminate | lia] ..].
  rewrite bind_unfold.
  assert (H5 : writes_at_most sleeping 0
                 (logging_info MacOS.default_handler "main"
                    [Str (lit "macOS performance monitoring completed after the set duration.")]))
    by (apply (writes_logging_log sleeping _ INFO "main"); [emits_tac | never_tac]).
  specialize (H5 s4).
  destruct (logging_info _ _ _ s4) as [[] s5 | e s5 | s5];
    unfold writes_at_most in H5; cbn [final] in H5; cbn [final ret bind];
    (split; [try discriminate | try lia]).
Qed.



(** * How long a call can take, and where it can hang *)

Lemma settles_weaken {A} d d' (m : M A) :
  d <= d' -> settles_within d m -> settles_within d' m.
Proof.
  intros Hd Hm s Hs. destruct (Hm s Hs) as (Hq & Hc & Hb). repeat split; auto. lia.
Qed.

Lemma settles_ret {A} (a : A) : settles_within 0 (ret a).
Proof. intros s Hs. simpl. repeat split; auto; [lia | discriminate]. Qed.

Lemma settles_raise {A} e : settles_within 0 (@raise A e).
Proof. intros s Hs. simpl. repeat split; auto; [lia | discriminate]. Qed.

Lemma settles_bind {A B} a b (m : M A) (k : A -> M B) :
  0 <= b -> settles_within a m -> (forall x, settles_within b (k x)) ->
  settles_within (a + b) (bind m k).
Proof.
  intros Hb Hm Hk s Hs. rewrite bind_unfold.
  destruct (Hm s Hs) as (Hq & Hc & Hnb).
  destruct (m s) as [x s1 | e s1 | s1]; cbn [final] in *.
  - destruct (Hk x s1 Hq) as (Hq' & Hc' & Hnb'). repeat split; auto. lia.
  - repeat split; auto; [lia | discriminate].
  - now elim (Hnb s1).
Qed.

Lemma settles_logging_log on_signal lvl fn m :
  settles_within 0 (logging_log on_signal lvl fn m).
Proof.
  intros s Hs. rewrite logging_log_quiet by exact Hs. simpl.
  repeat split; auto; [lia | discriminate].
Qed.

Lemma settles_logging_info on_signal fn m :
  settles_within 0 (logging_info on_signal fn m).
Proof. apply settles_logging_log. Qed.

(** The AIX [run_command] is over within its timeout. *)
Lemma AIX_run_command_settles h cmd T :
  0 <= T -> settles_within T (AIX.run_command h cmd T).
Proof.
  intros HT s Hs. rewrite AIX_run_command_quiet by assumption.
  destruct (spawn (AIX.os h) cmd (clock s)) as [d rc out err |].
  - destruct (Z.of_N d <=? T) eqn:E.
    + apply Z.leb_le in E. cbv zeta.
      destruct (rc =? 0); [destruct (decode out) |]; simpl;
        (split; [reflexivity | split; [lia | discriminate]]).
    + simpl. split; [reflexivity | split; [lia | discriminate]].
  - simpl. split; [reflexivity | split; [lia | discriminate]].
Qed.

Lemma AIX_four_commands_settle h fn header c1 c2 c3 c4 :
  settles_within 240
    (logging_info AIX.signal_handler fn header ;;
     AIX.run_command h c1 60 ;;
     AIX.run_command h c2 60 ;;
     AIX.run_command h c3 60 ;;
     AIX.run_command h c4 60).
Proof.
  apply (settles_bind 0 240); [lia | apply settles_logging_info | intros _].
  apply (settles_bind 60 180); [lia | apply AIX_run_command_settles; lia | intros _].
  apply (settles_bind 60 120); [lia | apply AIX_run_command_settles; lia | intros _].
  apply (settles_bind 60 60); [lia | apply AIX_run_command_settles; lia | intros _].
  apply AIX_run_command_settles; lia.
Qed.

Lemma AIX_network_stats_settles h : settles_within 180 (AIX.network_stats h).
Proof.
  unfold AIX.network_stats.
  apply (settles_bind 0 180); [lia | apply settles_logging_info | intros _].
  apply (settles_bind 60 120); [lia | apply AIX_run_command_settles; lia | intros _].
  apply (settles_bind 60 60); [lia | apply AIX_run_command_settles; lia | intros _].
  apply AIX_run_command_settles; lia.
Qed.

Lemma AIX_system_info_settles h : settles_within 300 (AIX.system_info h).
Proof.
  unfold AIX.system_info.
  apply (settles_bind 0 300); [lia | apply settles_logging_info | intros _].
  apply (settles_bind 60 240); [lia | apply AIX_run_command_settles; lia | intros _].
  apply (settles_bind 60 180); [lia | apply AIX_run_command_settles; lia | intros _].
  apply (settles_bind 60 120); [lia | apply AIX_run_command_settles; lia | intros _].
  apply (settles_bind 60 60); [lia | apply AIX_run_command_settles; lia | intros _].
  apply AIX_run_command_settles; lia.
Qed.

Lemma AIX_paging_stats_settles h : settles_within 120 (AIX.paging_stats h).
Proof.
  unfold AIX.paging_stats.
  apply (settles_bind 0 120); [lia | apply settles_logging_info | intros _].
  apply (settles_bind 60 60); [lia | apply AIX_run_command_settles; lia | intros _].
  apply AIX_run_command_settles; lia.
Qed.

Lemma AIX_log_monitoring_settles h : settles_within 60 (AIX.log_monitoring h).
Proof.
  unfold AIX.log_monitoring.
  apply (settles_bind 0 60); [lia | apply settles_logging_info | intros _].
  apply AIX_run_command_settles; lia.
Qed.

(** X7.  Under quiet conditions the AIX [run_command] never hangs and never
    holds the script for more than its timeout, whatever the command does;
    the only exception that leaves it is [UnicodeDecodeError], and it logs
    one record (the output, the failure or the timeout) or, when the
    output cannot be decoded, none. *)
Theorem AIX_run_command_bounded h cmd T s :
  quiet s ->
  0 <= T ->
  let o := AIX.run_command h cmd T s in
  (forall s', o <> Blocked s') /\
  clock s <= clock (final o) <= clock s + T /\
  (forall e s', o = Raised e s' -> e = UnicodeDecodeError /\ log s' = log s) /\
  (forall s', o = Returned tt s' -> exists r, log s' = log s ++ [r]).
Proof.
  intros Hs HT o. subst o. rewrite AIX_run_command_quiet by assumption.
  destruct (spawn (AIX.os h) cmd (clock s)) as [d rc out err |].
  - destruct (Z.of_N d <=? T) eqn:E.
    + apply Z.leb_le in E. cbv zeta.
      destruct (rc =? 0); [destruct (decode out) |]; simpl;
        (split; [discriminate |]); (split; [lia |]);
        (split; [intros e s' H; inversion H; subst; auto
                | intros s' H; inversion H; subst; simpl; eauto]).
    + simpl. split; [discriminate |]. split; [lia |].
      split; [discriminate | intros s' H; inversion H; subst; simpl; eauto].
  - simpl. split; [discriminate |]. split; [lia |].
    split; [discriminate | intros s' H; inversion H; subst; simpl; eauto].
Qed.

Lemma AIX_run_command_bounded_witness :
  quiet boot /\ 0 <= 60 /\
  let o := AIX.run_command (AIX.mkHost hung_world (fun _ => [])) (lit "topas") 60 boot in
  (forall s', o <> Blocked s') /\
  clock boot <= clock (final o) <= clock boot + 60 /\
  (forall e s', o = Raised e s' -> e = UnicodeDecodeError /\ log s' = log boot) /\
  (forall s', o = Returned tt s' -> exists r, log s' = log boot ++ [r]).
Proof.
  split; [reflexivity |]. split; [lia |].
  apply (AIX_run_command_bounded (AIX.mkHost hung_world (fun _ => [])) (lit "topas") 60 boot).
  - reflexivity.
  - lia.
Defined.

(** X8.  Under quiet conditions the AIX functions that run their commands
    through [run_command] alone are over within the sum of their timeouts,
    whatever the commands do: [system_info] within 300 seconds,
    [cpu_memory_stats], [process_stats] (with its interactive [topas]) and
    [filesystem_nfs_stats] within 240, [network_stats] within 180,
    [paging_stats] within 120 and [log_monitoring] within 60. *)
Theorem AIX_probes_bounded h :
  settles_within 300 (AIX.system_info h) /\
  settles_within 240 (AIX.cpu_memory_stats h) /\
  settles_within 180 (AIX.network_stats h) /\
  settles_within 240 (AIX.process_stats h) /\
  settles_within 120 (AIX.paging_stats h) /\
  settles_within 240 (AIX.filesystem_nfs_stats h) /\
  settles_within 60 (AIX.log_monitoring h).
Proof.
  split; [apply AIX_system_info_settles |].
  split; [unfold AIX.cpu_memory_stats; apply AIX_four_commands_settle |].
  split; [apply AIX_network_stats_settles |].
  split; [unfold AIX.process_stats; apply AIX_four_commands_settle |].
  split; [apply AIX_paging_stats_settles |].
  split; [unfold AIX.filesystem_nfs_stats; apply AIX_four_commands_settle |].
  apply AIX_log_monitoring_settles.
Qed.

Lemma AIX_probes_bounded_witness :
  clock (final (AIX.process_stats (AIX.mkHost hung_world (fun _ => [])) boot))
  <= clock boot + 240 /\
  forall s', AIX.process_stats (AIX.mkHost hung_world (fun _ => [])) boot <> Blocked s'.
Proof.
  destruct (AIX_probes_bounded (AIX.mkHost hung_world (fun _ => [])))
    as (_ & _ & _ & H & _).
  destruct (H boot eq_refl) as (_ & Hclock & Hnb).
  split; [exact Hclock | exact Hnb].
Defined.

(** ** Where the AIX script can hang *)

Lemma settles_blocks {A} R d (m : M A) : settles_within d m -> blocks_only R m.
Proof.
  intros Hm s Hs. destruct (Hm s Hs) as (Hq & _ & Hnb).
  split; [exact Hq |]. intros s' E. now elim (Hnb s').
Qed.

Lemma blocks_bind {A B} R (m : M A) (k : A -> M B) :
  blocks_only R m -> (forall x, blocks_only R (k x)) -> blocks_only R (bind m k).
Proof.
  intros Hm Hk s Hs. rewrite bind_unfold. destruct (Hm s Hs) as (Hq & Hb).
  destruct (m s) as [x s1 | e s1 | s1]; cbn [final] in *.
  - now apply Hk.
  - split; [exact Hq | discriminate].
  - split; [exact Hq |]. intros s' _. now apply (Hb s1).
Qed.

Lemma blocks_try_except {A} R (m : M A) h :
  blocks_only R m -> (forall e k, h e = Some k -> blocks_only R k) ->
  blocks_only R (try_except m h).
Proof.
  intros Hm Hh s Hs. unfold try_except. destruct (Hm s Hs) as (Hq & Hb).
  destruct (m s) as [x s1 | e s1 | s1]; cbn [final] in *.
  - split; [exact Hq | discriminate].
  - destruct (h e) as [k |] eqn:E.
    + now apply (Hh e k E).
    + split; [exact Hq | discriminate].
  - split; [exact Hq |]. intros s' _. now apply (Hb s1).
Qed.

Lemma blocks_for_each {A} R (xs : list A) body :
  (forall x, blocks_only R (body x)) -> blocks_only R (for_each xs body).
Proof.
  intro Hb. induction xs as [| x xs IH]; simpl.
  - apply (settles_blocks R 0), settles_ret.
  - apply blocks_bind; auto.
Qed.

Lemma blocks_logging_info R on_signal fn m :
  blocks_only R (logging_info on_signal fn m).
Proof. apply (settles_blocks R 0), settles_logging_info. Qed.

Lemma blocks_time_time R on_signal : blocks_only R (time_time on_signal).
Proof.
  intros s Hs. unfold time_time. rewrite bind_unfold, checkpoint_quiet by exact Hs.
  simpl. split; [exact Hs | discriminate].
Qed.

Lemma blocks_time_sleep R on_signal secs : blocks_only R (time_sleep on_signal secs).
Proof.
  intros s Hs. unfold time_sleep. rewrite bind_unfold, checkpoint_quiet by exact Hs.
  destruct (secs <? 0).
  - simpl. split; [exact Hs | discriminate].
  - rewrite wait_quiet by exact Hs. simpl. split; [exact Hs | discriminate].
Qed.

Section AIXHangs.

Variable h : AIX.host.

Let R := AIX_enumeration_hangs h.

Lemma AIX_run_command_blocks c T : 0 <= T -> blocks_only R (AIX.run_command h c T).
Proof. intro HT. apply (settles_blocks R T). now apply AIX_run_command_settles. Qed.

(** A bare [subprocess.run] waits for its command as long as it takes. *)
Lemma AIX_output_lines_blocks cmd :
  AIX_enumeration cmd -> blocks_only R (AIX.output_lines h cmd).
Proof.
  intros Hcmd s Hs. unfold AIX.output_lines, subprocess_run.
  rewrite !bind_unfold, checkpoint_quiet by exact Hs.
  destruct (spawn (AIX.os h) cmd (clock s)) as [d rc out err |] eqn:E.
  - rewrite bind_unfold, wait_quiet by exact Hs. cbn [advance andb ret].
    unfold AIX.decode_utf8. cbn [cp_stdout].
    destruct (decode out); rewrite ?bind_unfold; unfold ret, raise; cbn [final];
      (split; [exact Hs | discriminate]).
  - rewrite wait_forever_quiet by exact Hs. cbn [final]. split; [exact Hs |].
    intros s' _. exists cmd, (clock s). now split.
Qed.

Lemma AIX_first_word_blocks line : blocks_only R (AIX.first_word line).
Proof.
  unfold AIX.first_word. destruct (split line).
  - apply (settles_blocks R 0), settles_raise.
  - apply (settles_blocks R 0), settles_ret.
Qed.

Lemma AIX_disk_stats_blocks : blocks_only R (AIX.disk_stats h).
Proof.
  unfold AIX.disk_stats.
  apply blocks_bind; [apply blocks_logging_info | intros _].
  apply blocks_bind; [apply AIX_run_command_blocks; lia | intros _].
  apply blocks_bind; [apply AIX_output_lines_blocks; now left | intro disks].
  apply blocks_for_each. intro disk.
  apply blocks_bind; [apply AIX_first_word_blocks | intro disk_name].
  apply blocks_bind; [apply blocks_logging_info | intros _].
  apply blocks_bind; [apply AIX_run_command_blocks; lia | intros _].
  apply AIX_run_command_blocks; lia.
Qed.

Lemma AIX_volume_group_stats_blocks : blocks_only R (AIX.volume_group_stats h).
Proof.
  unfold AIX.volume_group_stats.
  apply blocks_bind; [apply blocks_logging_info | intros _].
  apply blocks_bind; [apply AIX_output_lines_blocks; right; now left | intro vgs].
  apply blocks_for_each. intro vg.
  apply blocks_bind; [apply blocks_logging_info | intros _].
  apply blocks_bind; [apply AIX_run_command_blocks; lia | intros _].
  apply blocks_bind; [apply AIX_run_command_blocks; lia | intros _].
  apply blocks_bind; [apply AIX_run_command_blocks; lia | intros _].
  apply blocks_bind;
    [apply AIX_output_lines_blocks; right; right; now exists vg | intro lvs].
  apply blocks_for_each. intro lv.
  apply blocks_bind; [apply AIX_first_word_blocks | intro lv_name].
  apply blocks_bind; [apply blocks_logging_info | intros _].
  apply blocks_bind; [apply AIX_run_command_blocks; lia | intros _].
  apply AIX_run_command_blocks; lia.
Qed.

(** The wait for the two threads hangs only when the thread of
    [disk_stats] does: the thread of [network_stats] always ends. *)
Lemma AIX_parallel_tasks_blocks : blocks_only R (AIX.parallel_tasks h).
Proof.
  intros s Hs.
  split; [now apply (AIX_parallel_tasks_grows h s) |].
  unfold AIX.parallel_tasks, start_and_join. cbv zeta.
  rewrite due_quiet by exact Hs.
  pose proof (AIX_disk_stats_blocks (mkState (clock s) [] None (Worker "disk_stats"))
                eq_refl) as (_ & H1).
  pose proof (AIX_network_stats_settles h
                (mkState (clock s) [] None (Worker "network_stats")) eq_refl)
    as (_ & _ & H2).
  unfold started.
  destruct (AIX.disk_stats h _) as [[] s1 | e1 s1 | s1];
    destruct (AIX.network_stats h _) as [[] s2 | e2 s2 | s2];
    try (intros s' E; discriminate E);
    solve [ intros s' _; now apply (H1 s1) | now elim (H2 s2) ].
Qed.

Lemma AIX_sequential_tasks_blocks : blocks_only R (AIX.sequential_tasks h).
Proof.
  unfold AIX.sequential_tasks.
  apply blocks_bind;
    [unfold AIX.cpu_memory_stats;
     apply (settles_blocks R 240), AIX_four_commands_settle | intros _].
  apply blocks_bind; [apply AIX_volume_group_stats_blocks | intros _].
  apply blocks_bind;
    [unfold AIX.process_stats;
     apply (settles_blocks R 240), AIX_four_commands_settle | intros _].
  apply blocks_bind; [apply (settles_blocks R 120), AIX_paging_stats_settles | intros _].
  apply blocks_bind;
    [unfold AIX.filesystem_nfs_stats;
     apply (settles_blocks R 240), AIX_four_commands_settle | intros _].
  apply (settles_blocks R 60), AIX_log_monitoring_settles.
Qed.

Variable cfg : AIX.config.

Lemma AIX_cycle_blocks : blocks_only R (AIX.cycle cfg h).
Proof.
  unfold AIX.cycle.
  apply blocks_bind; [apply blocks_logging_info | intros _].
  apply blocks_bind; [apply AIX_parallel_tasks_blocks | intros _].
  apply blocks_bind; [apply AIX_sequential_tasks_blocks | intros _].
  apply blocks_bind; [apply blocks_logging_info | intros _].
  apply blocks_time_sleep.
Qed.

Lemma AIX_monitor_blocks fuel start : blocks_only R (AIX.monitor cfg h fuel start).
Proof.
  induction fuel as [| fuel IH]; cbn [AIX.monitor].
  - apply (settles_blocks R 0), settles_ret.
  - apply blocks_bind; [apply blocks_time_time | intro now].
    destruct (now - start <? AIX.RUN_DURATION cfg).
    + apply blocks_bind; [apply AIX_cycle_blocks | intros _; exact IH].
    + apply (settles_blocks R 0), settles_ret.
Qed.

Lemma AIX_program_blocks fuel : blocks_only R (AIX.program cfg h fuel).
Proof.
  unfold AIX.program. apply blocks_try_except.
  - unfold AIX.main.
    apply blocks_bind; [apply blocks_logging_info | intros _].
    apply blocks_bind; [apply (settles_blocks R 300), AIX_system_info_settles | intros _].
    apply blocks_bind; [apply blocks_time_time | intro start].
    apply blocks_bind; [apply AIX_monitor_blocks | intros [[] |]].
    + apply blocks_bind; [apply blocks_logging_info | intros _].
      apply (settles_blocks R 0), settles_ret.
    + apply (settles_blocks R 0), settles_ret.
  - intros e k E. destruct e; inversion E; subst.
    apply blocks_bind.
    + intros s Hs. unfold AIX.cleanup. simpl. split; [exact Hs | discriminate].
    + intros _. apply blocks_bind; [apply blocks_logging_info | intros _].
      apply (settles_blocks R 0), settles_ret.
Qed.

End AIXHangs.

(** X9.  Under quiet conditions the AIX program can hang in one way only:
    one of the commands it runs with a bare [subprocess.run], without
    timeout, to list the disks ([lspv]), the volume groups ([lsvg]) or the
    logical volumes of a group ([lsvg -l ...]) never exits.  No command run
    through [run_command] can hang it. *)
Theorem AIX_hangs_only_in_enumeration cfg h fuel s s' :
  quiet s ->
  AIX.program cfg h fuel s = Blocked s' ->
  exists cmd t,
    (cmd = lit "lspv" \/ cmd = lit "lsvg" \/ exists vg, cmd = lit "lsvg -l " ++ vg) /\
    spawn (AIX.os h) cmd t = NeverExits.
Proof.
  intros Hs E. destruct (AIX_program_blocks h cfg fuel s Hs) as (_ & Hb).
  exact (Hb s' E).
Qed.

Lemma AIX_hangs_only_in_enumeration_witness :
  exists cmd t,
    (cmd = lit "lspv" \/ cmd = lit "lsvg" \/ exists vg, cmd = lit "lsvg -l " ++ vg) /\
    spawn (AIX.os (AIX.mkHost hung_lspv_world (fun _ => []))) cmd t = NeverExits.
Proof.
  apply (AIX_hangs_only_in_enumeration AIX.default_config
           (AIX.mkHost hung_lspv_world (fun _ => [])) 7 boot
           (final (AIX.program AIX.default_config
                     (AIX.mkHost hung_lspv_world (fun _ => [])) 7 boot))).
  - reflexivity.
  - vm_compute. reflexivity.
Defined.

(** ** Signals on macOS *)

Lemma extends_refl s : extends s s.
Proof. exists []. now rewrite app_nil_r. Qed.

Lemma extends_trans s1 s2 s3 : extends s1 s2 -> extends s2 s3 -> extends s1 s3.
Proof.
  intros [m1 H1] [m2 H2]. exists (m1 ++ m2). now rewrite H2, H1, app_assoc.
Qed.

Lemma broken_at_extends {A} at_ n s1 s2 (o : outcome A) :
  extends s1 s2 -> broken_at at_ n s2 o -> broken_at at_ n s1 o.
Proof.
  intros [m1 H1] [m2 H2]. exists (m1 ++ m2). now rewrite H2, H1, app_assoc.
Qed.

(** The call is over in [s], where the signal has not arrived. *)
Lemma breakable_over {A} (m : M A) at_ n s :
  awaiting at_ n (final (m s)) -> extends s (final (m s)) ->
  (forall s', m s <> Blocked s' /\ m s <> Raised KeyboardInterrupt s') ->
  broken_at at_ n s (m s) \/
  (awaiting at_ n (final (m s)) /\ extends s (final (m s)) /\
   forall s', m s <> Blocked s' /\ m s <> Raised KeyboardInterrupt s').
Proof. intros. right. auto. Qed.

Lemma breakable_ret {A} (a : A) : breakable (ret a).
Proof.
  intros at_ n s Hs. apply breakable_over; [exact Hs | apply extends_refl |].
  intro s'. split; discriminate.
Qed.

Lemma breakable_raise {A} e : e <> KeyboardInterrupt -> breakable (@raise A e).
Proof.
  intros He at_ n s Hs. apply breakable_over; [exact Hs | apply extends_refl |].
  intro s'. split; [discriminate |]. unfold raise. congruence.
Qed.

Lemma breakable_emit lvl fn m : breakable (emit lvl fn m).
Proof.
  intros at_ n s Hs. apply breakable_over.
  - exact Hs.
  - now eexists.
  - intro s'. split; discriminate.
Qed.

Lemma breakable_bind {A B} (m : M A) (k : A -> M B) :
  breakable m -> (forall a, breakable (k a)) -> breakable (bind m k).
Proof.
  intros Hm Hk at_ n s Hs. rewrite bind_unfold.
  destruct (Hm at_ n s Hs) as [[more Hstop] | (Hgo & Hext & Hnb)].
  - left. exists more. now rewrite Hstop.
  - destruct (m s) as [a s1 | e s1 | s1]; cbn [final] in *.
    + destruct (Hk a at_ n s1 Hgo) as [Hcut | (Hgo' & Hext' & Hnb')].
      * left. now apply (broken_at_extends at_ n s s1).
      * right. split; [exact Hgo' |]. split; [| exact Hnb'].
        now apply (extends_trans s s1).
    + right. split; [exact Hgo |]. split; [exact Hext |].
      intro s'. split; [discriminate |].
      intro E. apply (proj2 (Hnb s')). congruence.
    + now elim (proj1 (Hnb s1)).
Qed.

(** A [try] whose clauses catch neither [KeyboardInterrupt] nor the end of
    the process. *)
Lemma breakable_try_except {A} (m : M A) h :
  breakable m -> (forall n, h (signal_exception n) = None) ->
  (forall e k, h e = Some k -> breakable k) ->
  breakable (try_except m h).
Proof.
  intros Hm Hsig Hh at_ n s Hs. unfold try_except.
  destruct (Hm at_ n s Hs) as [[more Hstop] | (Hgo & Hext & Hnb)].
  - left. exists more. now rewrite Hstop, Hsig.
  - destruct (m s) as [a s1 | e s1 | s1]; cbn [final] in *.
    + right. split; [exact Hgo |]. split; [exact Hext |].
      intro s'. split; discriminate.
    + destruct (h e) as [k |] eqn:He.
      * destruct (Hh e k He at_ n s1 Hgo) as [Hcut | (Hgo' & Hext' & Hnb')].
        -- left. now apply (broken_at_extends at_ n s s1).
        -- right. split; [exact Hgo' |]. split; [| exact Hnb'].
           now apply (extends_trans s s1).
      * right. split; [exact Hgo |]. split; [exact Hext |].
        intro s'. split; [discriminate |].
        intro E. apply (proj2 (Hnb s')). congruence.
    + now elim (proj1 (Hnb s1)).
Qed.

(** The default action, taken when the signal arrives. *)
Lemma MacOS_take_signal at_ n s :
  thread s = MainThread ->
  take_signal MacOS.default_handler at_ n s
  = Raised (signal_exception n) (mkState at_ (log s) None MainThread).
Proof.
  intro Ht. unfold take_signal, MacOS.default_handler, signal_exception, raise.
  rewrite Ht. now destruct (n =? SIGINT).
Qed.

Lemma breakable_checkpoint : breakable (checkpoint MacOS.default_handler).
Proof.
  intros at_ n s Hs. unfold checkpoint. rewrite (due_awaiting _ at_ n s Hs).
  destruct (at_ <? clock s + 1) eqn:E.
  - left. destruct Hs as (Ht & Hp & Hc).
    apply Z.ltb_lt in E. replace (clock s) with at_ by lia.
    exists []. now rewrite MacOS_take_signal, app_nil_r.
  - right. split; [exact Hs |]. split; [apply extends_refl |].
    intro s'. split; discriminate.
Qed.

Lemma breakable_wait d : breakable (wait MacOS.default_handler d).
Proof.
  intros at_ n s Hs. unfold wait. rewrite (due_awaiting _ at_ n s Hs).
  destruct (at_ <? clock s + d) eqn:E.
  - left. destruct Hs as (Ht & Hp & Hc).
    replace (Z.max (clock s) at_) with at_ by lia.
    rewrite bind_unfold, MacOS_take_signal by exact Ht.
    exists []. now rewrite app_nil_r.
  - apply Z.ltb_ge in E.
    destruct (interruptible_advance (clock s + d) at_ n s Hs E) as (Ha & Hnb).
    right. split; [exact Ha |]. split; [exists []; simpl; now rewrite app_nil_r |].
    intro s'. split; discriminate.
Qed.

Lemma breakable_wait_forever {A} : breakable (@wait_forever MacOS.default_handler A).
Proof.
  intros at_ n s Hs. unfold wait_forever. rewrite (due_awaiting _ at_ n s Hs).
  left. destruct Hs as (Ht & Hp & Hc).
  replace (Z.max (clock s) at_) with at_ by lia.
  rewrite bind_unfold, MacOS_take_signal by exact Ht.
  exists []. now rewrite app_nil_r.
Qed.

Lemma breakable_logging_info fn m :
  breakable (logging_info MacOS.default_handler fn m).
Proof.
  unfold logging_info, logging_log. apply breakable_bind.
  - apply breakable_checkpoint.
  - intros _. apply breakable_emit.
Qed.

Lemma breakable_logging_error fn m :
  breakable (logging_error MacOS.default_handler fn m).
Proof.
  unfold logging_error, logging_log. apply breakable_bind.
  - apply breakable_checkpoint.
  - intros _. apply breakable_emit.
Qed.

Lemma breakable_time_time : breakable (time_time MacOS.default_handler).
Proof.
  unfold time_time. apply breakable_bind; [apply breakable_checkpoint |].
  intros _ at_ n s Hs. right. split; [exact Hs |]. split; [apply extends_refl |].
  intro s'. split; discriminate.
Qed.

Lemma breakable_time_sleep secs : breakable (time_sleep MacOS.default_handler secs).
Proof.
  unfold time_sleep. apply breakable_bind; [apply breakable_checkpoint |].
  intros _. destruct (secs <? 0); [apply breakable_raise; discriminate | apply breakable_wait].
Qed.

Lemma breakable_subprocess_run w cmd check timeout :
  breakable (subprocess_run w MacOS.default_handler cmd check timeout).
Proof.
  unfold subprocess_run. apply breakable_bind; [apply breakable_checkpoint |].
  intros _ at_ n s.
  assert (Hfin : forall d rc out err,
    breakable (wait MacOS.default_handler (Z.of_N d) ;;
               if check && negb (rc =? 0)
               then raise (CalledProcessError rc cmd out err)
               else ret (mkCompleted rc out err))).
  { intros. apply breakable_bind; [apply breakable_wait |].
    intros _. destruct (check && negb (rc =? 0));
      [apply breakable_raise; discriminate | apply breakable_ret]. }
  assert (Hexp : forall T,
    breakable (wait MacOS.default_handler (Z.max 0 T) ;;
               @raise CompletedProcess (TimeoutExpired cmd T))).
  { intros. apply breakable_bind; [apply breakable_wait |].
    intros _. apply breakable_raise; discriminate. }
  destruct (spawn w cmd (clock s)) as [d rc out err |]; destruct timeout as [T |].
  - destruct (Z.of_N d <=? T); [apply Hfin | apply Hexp].
  - apply Hfin.
  - apply Hexp.
  - apply breakable_wait_forever.
Qed.

Section MacOSSignal.

Variable cfg : MacOS.config.
Variable w : world.

Lemma MacOS_decode_breakable b : breakable (MacOS.decode_utf8 b).
Proof.
  unfold MacOS.decode_utf8.
  destruct (decode b); [apply breakable_ret | apply breakable_raise; discriminate].
Qed.

Lemma MacOS_run_command_breakable c : breakable (MacOS.run_command w c).
Proof.
  unfold MacOS.run_command. apply breakable_try_except.
  - apply breakable_bind; [apply breakable_subprocess_run | intro result].
    apply breakable_bind; [apply MacOS_decode_breakable | intro text].
    apply breakable_ret.
  - intro n. unfold signal_exception. now destruct (n =? SIGINT).
  - intros e k E. destruct e; inversion E; subst.
    apply breakable_bind; [apply MacOS_decode_breakable | intro text].
    apply breakable_bind; [apply breakable_logging_error | intros _].
    apply breakable_ret.
Qed.

Lemma MacOS_log_command_breakable caller c : breakable (MacOS.log_command w caller c).
Proof.
  unfold MacOS.log_command.
  apply breakable_bind; [apply MacOS_run_command_breakable | intro value].
  apply breakable_logging_info.
Qed.

Lemma MacOS_system_info_breakable : breakable (MacOS.system_info w).
Proof.
  unfold MacOS.system_info.
  apply breakable_bind; [apply breakable_logging_info | intros _].
  apply breakable_bind; intros; apply MacOS_log_command_breakable.
Qed.

Lemma MacOS_cpu_memory_stats_breakable : breakable (MacOS.cpu_memory_stats w).
Proof.
  unfold MacOS.cpu_memory_stats.
  apply breakable_bind; [apply breakable_logging_info | intros _].
  apply breakable_bind; [apply MacOS_log_command_breakable | intros _].
  apply breakable_bind; [apply MacOS_log_command_breakable | intros _].
  apply breakable_bind; intros; apply MacOS_log_command_breakable.
Qed.

Lemma MacOS_disk_stats_breakable : breakable (MacOS.disk_stats w).
Proof.
  unfold MacOS.disk_stats.
  apply breakable_bind; [apply breakable_logging_info | intros _].
  apply breakable_bind; [apply MacOS_log_command_breakable | intros _].
  apply breakable_bind; intros; apply MacOS_log_command_breakable.
Qed.

Lemma MacOS_process_stats_breakable : breakable (MacOS.process_stats w).
Proof.
  unfold MacOS.process_stats.
  apply breakable_bind; [apply breakable_logging_info | intros _].
  apply breakable_bind; intros; apply MacOS_log_command_breakable.
Qed.

Lemma MacOS_network_stats_breakable : breakable (MacOS.network_stats w).
Proof.
  unfold MacOS.network_stats.
  apply breakable_bind; [apply breakable_logging_info | intros _].
  apply breakable_bind; intros; apply MacOS_log_command_breakable.
Qed.

Lemma MacOS_filesystem_nfs_stats_breakable : breakable (MacOS.filesystem_nfs_stats w).
Proof.
  unfold MacOS.filesystem_nfs_stats.
  apply breakable_bind; [apply breakable_logging_info | intros _].
  apply breakable_bind; intros; apply MacOS_log_command_breakable.
Qed.

Lemma MacOS_error_logs_breakable : breakable (MacOS.error_logs w).
Proof.
  unfold MacOS.error_logs.
  apply breakable_bind; [apply breakable_logging_info | intros _].
  apply MacOS_log_command_breakable.
Qed.

Lemma MacOS_cycle_breakable : breakable (MacOS.cycle cfg w).
Proof.
  unfold MacOS.cycle.
  apply breakable_bind; [apply MacOS_system_info_breakable | intros _].
  apply breakable_bind; [apply MacOS_cpu_memory_stats_breakable | intros _].
  apply breakable_bind; [apply MacOS_disk_stats_breakable | intros _].
  apply breakable_bind; [apply MacOS_process_stats_breakable | intros _].
  apply breakable_bind; [apply MacOS_network_stats_breakable | intros _].
  apply breakable_bind; [apply MacOS_filesystem_nfs_stats_breakable | intros _].
  apply breakable_bind; [apply MacOS_error_logs_breakable | intros _].
  apply breakable_bind; [apply breakable_logging_info | intros _].
  apply breakable_time_sleep.
Qed.

Lemma MacOS_monitor_breakable fuel start : breakable (MacOS.monitor cfg w fuel start).
Proof.
  induction fuel as [| fuel IH]; cbn [MacOS.monitor].
  - apply breakable_ret.
  - apply breakable_bind; [apply breakable_time_time | intro now].
    destruct (now - start <? MacOS.RUN_DURATION cfg).
    + apply breakable_bind; [apply MacOS_cycle_breakable | intros _; exact IH].
    + apply breakable_ret.
Qed.

Lemma MacOS_main_breakable fuel : breakable (MacOS.main cfg w fuel).
Proof.
  unfold MacOS.main, MacOS.setup_logging.
  apply breakable_bind; [apply breakable_ret | intros _].
  apply breakable_bind; [apply breakable_time_time | intro start].
  apply breakable_bind; [apply MacOS_monitor_breakable | intros [[] |]].
  - apply breakable_bind; [apply breakable_logging_info | intros _].
    apply breakable_ret.
  - apply breakable_ret.
Qed.

End MacOSSignal.



(** ** The partitions of the Linux [disk_stats] *)

Lemma tally_one what r :
  tally what [r] = if what (funcName r) (msg r) then 1%nat else 0%nat.
Proof. unfold tally. cbn [filter]. now destruct (what (funcName r) (msg r)). Qed.

(** Decides, record by record, which of the records just written count. *)
Ltac count_records what :=
  rewrite ?tally_app, ?tally_one; cbn [funcName msg];
  repeat match goal with
         | |- context [what ?f ?m] =>
           let b := eval vm_compute in (what f m) in change (what f m) with b
         end;
  cbv beta iota.

Section Partitions.

Variable h : Linux.host.
Variable body : Linux.sdiskpart -> M unit.

(** One turn of the loop returns and counts its partition on one side. *)
Hypothesis turn : forall p s,
  quiet s ->
  exists s',
    body p s = Returned tt s' /\ quiet s' /\ clock s' = clock s /\
    tally disk_named (log s')
    = (tally disk_named (log s) + if readable h (clock s) p then 1 else 0)%nat /\
    tally permission_denied (log s')
    = (tally permission_denied (log s) + if readable h (clock s) p then 0 else 1)%nat.

Lemma Linux_partitions_counted ps s :
  quiet s ->
  exists s',
    for_each ps body s = Returned tt s' /\ quiet s' /\ clock s' = clock s /\
    tally disk_named (log s')
    = (tally disk_named (log s) + List.length (filter (readable h (clock s)) ps))%nat /\
    tally permission_denied (log s')
    = (tally permission_denied (log s)
       + List.length (filter (fun p => negb (readable h (clock s) p)) ps))%nat.
Proof.
  revert s. induction ps as [| p ps IH]; intros s Hs.
  - exists s. cbn [for_each filter List.length].
    split; [reflexivity |]. split; [exact Hs |]. split; [reflexivity |]. split; lia.
  - cbn [for_each]. rewrite bind_unfold.
    destruct (turn p s Hs) as (s1 & -> & Hq1 & Hc1 & Hn1 & Hd1).
    destruct (IH s1 Hq1) as (s2 & -> & Hq2 & Hc2 & Hn2 & Hd2).
    exists s2. rewrite Hc1 in *. cbn [filter].
    destruct (readable h (clock s) p); cbn [negb List.length];
      repeat split; auto; lia.
Qed.

End Partitions.

(** X11.  The Linux [disk_stats] reports every partition, whether it can
    be read or not: a [PermissionError] of [psutil.disk_usage] costs the
    partition its report and nothing else.  Under quiet conditions the call
    logs "Disk <device>:" once for each partition that can be read and
    "Permission denied for <mountpoint>" once for each that cannot. *)
Theorem Linux_disk_stats_visits_every_partition h s :
  quiet s ->
  let partitions := Linux.psutil_disk_partitions h (clock s) in
  let l := log (final (Linux.disk_stats h s)) in
  tally disk_named l
  = (tally disk_named (log s)
     + List.length (filter (readable h (clock s)) partitions))%nat /\
  tally permission_denied l
  = (tally permission_denied (log s)
     + List.length (filter (fun p => negb (readable h (clock s) p)) partitions))%nat.
Proof.
  intros Hs. cbv zeta.
  assert (H : exists s1,
    tally disk_named (log s1)
    = (tally disk_named (log s)
       + List.length (filter (readable h (clock s))
                        (Linux.psutil_disk_partitions h (clock s))))%nat /\
    tally permission_denied (log s1)
    = (tally permission_denied (log s)
       + List.length (filter (fun p => negb (readable h (clock s) p))
                        (Linux.psutil_disk_partitions h (clock s))))%nat /\
    grows ("run_command" :: handler_names) s1 (final (Linux.disk_stats h s))).
  { destruct s as [c l pend t]. unfold quiet in Hs. cbn in Hs. subst pend.
    unfold Linux.disk_stats. rewrite bind_unfold.
    unfold logging_info at 1. rewrite logging_log_quiet by reflexivity.
    cbn [emit clock log pending thread].
    unfold Linux.sample at 1. rewrite !bind_unfold, checkpoint_quiet by reflexivity.
    cbn [clock]. rewrite bind_unfold.
    match goal with
    | |- context [for_each ?ps ?b] =>
      assert (Hturn : forall p s,
        quiet s ->
        exists s',
          b p s = Returned tt s' /\ quiet s' /\ clock s' = clock s /\
          tally disk_named (log s')
          = (tally disk_named (log s) + if readable h (clock s) p then 1 else 0)%nat /\
          tally permission_denied (log s')
          = (tally permission_denied (log s)
             + if readable h (clock s) p then 0 else 1)%nat)
    end.
    { intros p [c1 l1 pend1 t1] Hs1. unfold quiet in Hs1. cbn in Hs1. subst pend1.
      unfold readable, try_except, Linux.disk_usage, Linux.sample.
      rewrite !bind_unfold, checkpoint_quiet by reflexivity. cbn [clock].
      destruct (Linux.psutil_disk_usage h (Linux.mountpoint p) c1) as [usage |].
      - unfold ret. rewrite !bind_unfold.
        repeat (unfold logging_info at 1; rewrite logging_log_quiet by reflexivity;
                cbn [emit clock log pending thread]).
        eexists. split; [reflexivity |]. split; [reflexivity |]. split; [reflexivity |].
        cbn [log].
        split; [count_records disk_named | count_records permission_denied]; lia.
      - unfold raise. unfold logging_warning. rewrite logging_log_quiet by reflexivity.
        cbn [emit clock log pending thread].
        eexists. split; [reflexivity |]. split; [reflexivity |]. split; [reflexivity |].
        cbn [log].
        split; [count_records disk_named | count_records permission_denied]; lia. }
    match goal with
    | |- context [for_each ?ps ?b ?s0] =>
      destruct (Linux_partitions_counted h b Hturn ps s0 eq_refl)
        as (s1 & -> & Hq1 & Hc1 & Hn1 & Hd1)
    end.
    cbn [clock log] in Hc1, Hn1, Hd1.
    rewrite tally_app, tally_one in Hn1, Hd1. cbn [funcName msg] in Hn1, Hd1.
    change (disk_named "disk_stats" [Str (lit "Disk Usage Stats:")]) with false in Hn1.
    change (permission_denied "disk_stats" [Str (lit "Disk Usage Stats:")])
      with false in Hd1.
    cbv beta iota in Hn1, Hd1.
    exists s1. cbn [clock log]. split; [lia |]. split; [lia |].
    assert (Htail : emits ("run_command" :: handler_names)
              (found <- shutil_which (Linux.os h) Linux.signal_handler (lit "iostat") ;;
               if found then Linux.run_command h (lit "iostat -xm 1 5")
               else Linux.run_command h (lit "vmstat 1 5"))).
    { apply emits_bind.
      - apply emits_shutil_which; [apply Linux_signal_handler_emits | names_tac].
      - intros []; apply Linux_run_command_emits; names_tac. }
    exact (Htail s1). }
  destruct H as (s1 & Hn & Hd & Hg).
  split.
  - rewrite (grows_tally disk_named ("run_command" :: handler_names) s1);
      [exact Hn | unfold handler_names; never_tac | exact Hg].
  - rewrite (grows_tally permission_denied ("run_command" :: handler_names) s1);
      [exact Hd | unfold handler_names; never_tac | exact Hg].
Qed.

Lemma Linux_disk_stats_visits_every_partition_witness :
  let partitions := Linux.psutil_disk_partitions guarded_host (clock boot) in
  let l := log (final (Linux.disk_stats guarded_host boot)) in
  tally disk_named l
  = (tally disk_named (log boot)
     + List.length (filter (readable guarded_host (clock boot)) partitions))%nat /\
  tally permission_denied l
  = (tally permission_denied (log boot)
     + List.length (filter (fun p => negb (readable guarded_host (clock boot) p))
                      partitions))%nat.
Proof.
  apply (Linux_disk_stats_visits_every_partition guarded_host boot). reflexivity.
Defined.

(** ** The exceptions of the AIX script *)

Section JoinRaises.

Variable on_signal : Z -> M unit.
Variable P : exn -> Prop.
Hypothesis on_signal_raises : forall signum, raises_only P (on_signal signum).

(** What its threads raise never reaches the caller of [join]: only the
    handler of a signal raises there. *)
Lemma raises_start_and_join sched target1 body1 target2 body2 :
  raises_only P (start_and_join on_signal sched target1 body1 target2 body2).
Proof.
  intros s e s' E. unfold start_and_join in E. cbv zeta in E.
  destruct (due _ s) as [[at_ signum] |].
  - revert E. apply raises_bind; [apply on_signal_raises |].
    intros _ s1 e1 s1' E1.
    destruct (started target1 body1 s); destruct (started target2 body2 s);
      discriminate E1.
  - destruct (started target1 body1 s); destruct (started target2 body2 s);
      discriminate E.
Qed.

End JoinRaises.

Section AIXRaises.

Variable cfg : AIX.config.
Variable h : AIX.host.
Variable P : exn -> Prop.
Hypothesis exit_allowed : P (SystemExit 1).
Hypothesis decode_allowed : P UnicodeDecodeError.

Lemma AIX_signal_handler_raises signum : raises_only P (AIX.signal_handler signum).
Proof.
  intros s e s' E. unfold AIX.signal_handler, AIX.cleanup, exit in E. cbn in E.
  inversion E; subst. exact exit_allowed.
Qed.

Hint Resolve AIX_signal_handler_raises : raises.

Lemma AIX_decode_raises b : raises_only P (AIX.decode_utf8 b).
Proof. unfold AIX.decode_utf8. raises_tac. Qed.

Hint Resolve AIX_decode_raises : raises.

(** [run_command] catches the [TimeoutExpired] and the [CalledProcessError]
    of its command. *)
Lemma AIX_run_command_raises c T : raises_only P (AIX.run_command h c T).
Proof.
  unfold AIX.run_command.
  apply (raises_try_except
           (fun e => P e \/ (true = true /\ is_CalledProcessError e)
                     \/ (Some T <> None /\ is_TimeoutExpired e))).
  - apply raises_bind.
    + apply raises_subprocess_run. auto with raises.
    + intro result. eapply raises_weaken; [intros e He; left; exact He |]. raises_tac.
  - intros e [He | [[_ He] | [_ He]]] Hh; auto.
    + destruct e; try contradiction. discriminate.
    + destruct e; try contradiction. discriminate.
  - intros e k Hk. destruct e; inversion Hk; subst; raises_tac.
Qed.

Hint Resolve AIX_run_command_raises : raises.

Lemma AIX_system_info_raises : raises_only P (AIX.system_info h).
Proof. unfold AIX.system_info. raises_tac. Qed.

Lemma AIX_cpu_memory_stats_raises : raises_only P (AIX.cpu_memory_stats h).
Proof. unfold AIX.cpu_memory_stats. raises_tac. Qed.

Lemma AIX_process_stats_raises : raises_only P (AIX.process_stats h).
Proof. unfold AIX.process_stats. raises_tac. Qed.

Lemma AIX_paging_stats_raises : raises_only P (AIX.paging_stats h).
Proof. unfold AIX.paging_stats. raises_tac. Qed.

Lemma AIX_filesystem_nfs_stats_raises : raises_only P (AIX.filesystem_nfs_stats h).
Proof. unfold AIX.filesystem_nfs_stats. raises_tac. Qed.

Lemma AIX_log_monitoring_raises : raises_only P (AIX.log_monitoring h).
Proof. unfold AIX.log_monitoring. raises_tac. Qed.

(** The threads of [parallel_tasks] keep their exceptions to themselves. *)
Lemma AIX_parallel_tasks_raises : raises_only P (AIX.parallel_tasks h).
Proof.
  intros s e s' E. unfold AIX.parallel_tasks in E.
  eapply (raises_start_and_join AIX.signal_handler P AIX_signal_handler_raises); eauto.
Qed.

Hint Resolve AIX_system_info_raises AIX_cpu_memory_stats_raises AIX_process_stats_raises
  AIX_paging_stats_raises AIX_filesystem_nfs_stats_raises AIX_log_monitoring_raises
  AIX_parallel_tasks_raises : raises.

Hypothesis index_allowed : P IndexError.

Lemma AIX_output_lines_raises cmd : raises_only P (AIX.output_lines h cmd).
Proof.
  unfold AIX.output_lines. apply raises_bind.
  - eapply raises_weaken; [| apply raises_subprocess_run; auto with raises].
    intros e [He | [[Hc _] | [Hn _]]]; [exact He | discriminate | now elim Hn].
  - intro result. raises_tac.
Qed.

Lemma AIX_first_word_raises line : raises_only P (AIX.first_word line).
Proof. unfold AIX.first_word. raises_tac. Qed.

Hint Resolve AIX_output_lines_raises AIX_first_word_raises : raises.

Lemma AIX_volume_group_stats_raises : raises_only P (AIX.volume_group_stats h).
Proof. unfold AIX.volume_group_stats. raises_tac. Qed.

Hint Resolve AIX_volume_group_stats_raises : raises.

Hypothesis value_allowed : P ValueError.

Lemma AIX_cycle_raises : raises_only P (AIX.cycle cfg h).
Proof. unfold AIX.cycle, AIX.sequential_tasks. raises_tac. Qed.

Hint Resolve AIX_cycle_raises : raises.

Lemma AIX_monitor_raises fuel start : raises_only P (AIX.monitor cfg h fuel start).
Proof. induction fuel as [| fuel IH]; cbn [AIX.monitor]; raises_tac. Qed.

Hint Resolve AIX_monitor_raises : raises.

Lemma AIX_main_raises fuel : raises_only P (AIX.main cfg h fuel).
Proof. unfold AIX.main. raises_tac. Qed.

End AIXRaises.

Lemma AIX_main_fatal cfg h fuel : raises_only AIX_fatal (AIX.main cfg h fuel).
Proof. apply AIX_main_raises; unfold AIX_fatal; tauto. Qed.

Lemma AIX_program_is_main cfg h fuel s :
  AIX.program cfg h fuel s = AIX.main cfg h fuel s.
Proof.
  unfold AIX.program. apply (try_except_unused AIX_fatal).
  - apply AIX_main_fatal.
  - intros e [-> | [-> | [-> | ->]]]; reflexivity.
Qed.

(** X12.  Four exceptions, and no other, can end the AIX program:
    [UnicodeDecodeError] (a command prints bytes that are not UTF-8),
    [IndexError] ([lv.split()[0]] on an empty line of [lsvg -l]),
    [ValueError] (a negative [CHECK_INTERVAL] reaches [time.sleep]) and
    [SystemExit(1)] (the signal handler); each of them does occur.  A
    command that fails or times out never ends it, and neither does an
    exception in the thread of [disk_stats] or [network_stats]: only the
    signal handler raises in [parallel_tasks]. *)
Theorem AIX_program_exceptions :
  (forall cfg h fuel s e s',
     AIX.program cfg h fuel s = Raised e s' ->
     e = UnicodeDecodeError \/ e = IndexError \/ e = ValueError \/ e = SystemExit 1) /\
  (forall h s e s', AIX.parallel_tasks h s = Raised e s' -> e = SystemExit 1) /\
  (exists s', AIX.program AIX.default_config (AIX.mkHost AIX_latin1_world (fun _ => []))
                7 boot
              = Raised UnicodeDecodeError s') /\
  (exists s', AIX.program AIX.default_config (AIX.mkHost blank_line_world (fun _ => []))
                7 boot
              = Raised IndexError s') /\
  (exists s', AIX.program (AIX.mkConfig 30 (-1)) (AIX.mkHost instant_world (fun _ => []))
                7 boot
              = Raised ValueError s') /\
  (exists s', AIX.program AIX.default_config (AIX.mkHost instant_world (fun _ => []))
                7 (boot_with_signal 3 SIGTERM)
              = Raised (SystemExit 1) s') /\
  (exists s', AIX.program AIX.default_config (AIX.mkHost blank_disk_world (fun _ => []))
                7 boot
              = Returned (Some tt) s').
Proof.
  split.
  { intros cfg h fuel s e s' E. rewrite AIX_program_is_main in E.
    exact (AIX_main_fatal cfg h fuel s e s' E). }
  split.
  { intros h s e s' E.
    exact (AIX_parallel_tasks_raises h (fun e => e = SystemExit 1) eq_refl s e s' E). }
  repeat split; eexists; vm_compute; reflexivity.
Qed.

(** ** The order of the records of a pass *)

Lemma in_order_app p1 p2 l1 l2 :
  in_order p1 l1 -> in_order p2 l2 -> in_order (p1 ++ p2) (l1 ++ l2).
Proof.
  revert l1. induction p1 as [| p r IH]; intros l1 H1 H2; cbn [in_order app] in *.
  - now subst l1.
  - destruct H1 as (mine & later & -> & Hmine & Hlater).
    exists mine, (later ++ l2). rewrite app_assoc. repeat split; auto.
Qed.

Lemma ordered_app {A B} names p1 p2 (m : M A) (k : M B) :
  emits names m -> ordered p1 m -> ordered p2 k -> ordered (p1 ++ p2) (m ;; k).
Proof.
  intros He Hm Hk s. rewrite bind_unfold.
  destruct (Hm s) as (mine & Hlog & Hthread & Hmine).
  destruct (He s) as (_ & Hsame & _).
  destruct (m s) as [a s1 | e s1 | s1]; cbn [final] in *.
  - destruct (Hk s1) as (later & Hlog' & Hthread' & Hlater).
    exists (mine ++ later). split; [now rewrite Hlog', Hlog, app_assoc |]. split.
    + apply Forall_app. split; auto. now rewrite Hsame in Hthread'.
    + now apply in_order_app.
  - exists mine. repeat split; auto.
    rewrite <- (app_nil_r mine). apply in_order_app; [exact Hmine | apply in_order_nil].
  - exists mine. repeat split; auto.
    rewrite <- (app_nil_r mine). apply in_order_app; [exact Hmine | apply in_order_nil].
Qed.

Lemma Linux_collect_ordered cfg h :
  ordered ["cpu_memory_stats"; "disk_stats"; "network_stats"; "process_stats";
           "paging_stats"; "filesystem_stats"; "nfs_stats"; "check_nfs_mounts";
           "log_monitoring"]
    (Linux.collect cfg h).
Proof.
  unfold Linux.collect.
  apply ordered_bind; [apply Linux_cpu_memory_stats_emits; names_tac |].
  apply ordered_bind; [apply Linux_disk_stats_emits; names_tac |].
  apply ordered_bind; [apply Linux_network_stats_emits; names_tac |].
  apply ordered_bind; [apply Linux_process_stats_emits; names_tac |].
  apply ordered_bind; [apply Linux_paging_stats_emits; names_tac |].
  apply ordered_bind; [apply Linux_filesystem_stats_emits; names_tac |].
  apply ordered_bind; [apply Linux_nfs_stats_emits; names_tac |].
  apply ordered_bind; [apply Linux_check_nfs_mounts_emits; names_tac |].
  apply ordered_last. apply Linux_log_monitoring_emits; names_tac.
Qed.

(** X13.  The records of a Linux pass come in the order of the calls in
    the source: what [main] writes to open the pass, then a block for each
    of the nine collection functions, from [cpu_memory_stats] to
    [log_monitoring], then what [main] writes before it sleeps.  A block
    holds the records of its function, of [run_command] and of the signal
    handler; it is empty when the pass ended before its function ran.  All
    the records are written in the thread of the caller. *)
Theorem Linux_pass_in_source_order cfg h s :
  exists added,
    log (final (Linux.cycle cfg h s)) = log s ++ added /\
    Forall (fun r => threadName r = thread s) added /\
    in_order Linux_pass_sequence added.
Proof.
  assert (H : ordered Linux_pass_sequence (Linux.cycle cfg h)); [| exact (H s)].
  unfold Linux.cycle, Linux_pass_sequence.
  apply ordered_bind; [apply emits_logging_info; emits_tac |].
  apply (ordered_app Linux_probe_names
           ["cpu_memory_stats"; "disk_stats"; "network_stats"; "process_stats";
            "paging_stats"; "filesystem_stats"; "nfs_stats"; "check_nfs_mounts";
            "log_monitoring"] ["main"]).
  - apply Linux_collect_emits.
  - apply Linux_collect_ordered.
  - apply ordered_last.
    apply emits_bind; [apply emits_logging_info; emits_tac | intros _].
    apply emits_time_sleep; emits_tac.
Qed.

(** X14.  The records of a macOS pass come in the order of the calls in
    the source: a block for each of the seven collection functions, from
    [system_info] to [error_logs], then the record [main] writes before it
    sleeps.  A block holds the records of its function and the error
    records of [run_command]; it is empty when the pass ended before its
    function ran. *)
Theorem MacOS_pass_in_source_order cfg w s :
  exists added,
    log (final (MacOS.cycle cfg w s)) = log s ++ added /\
    Forall (fun r => threadName r = thread s) added /\
    in_order MacOS_pass_sequence added.
Proof.
  assert (H : ordered MacOS_pass_sequence (MacOS.cycle cfg w)); [| exact (H s)].
  unfold MacOS.cycle, MacOS_pass_sequence.
  apply ordered_bind; [apply MacOS_system_info_emits; names_tac |].
  apply ordered_bind; [apply MacOS_cpu_memory_stats_emits; names_tac |].
  apply ordered_bind; [apply MacOS_disk_stats_emits; names_tac |].
  apply ordered_bind; [apply MacOS_process_stats_emits; names_tac |].
  apply ordered_bind; [apply MacOS_network_stats_emits; names_tac |].
  apply ordered_bind; [apply MacOS_filesystem_nfs_stats_emits; names_tac |].
  apply ordered_bind; [apply MacOS_error_logs_emits; names_tac |].
  apply ordered_last.
  apply emits_bind; [apply emits_logging_info; emits_tac | intros _].
  apply emits_time_sleep; emits_tac.
Qed.

(** X15.  On Linux [system_info] runs once, before the loop: when no
    signal is on its way, a run of the program adds exactly one
    "System Info:" record to the log, whatever the duration, the interval,
    the host and the number of passes, and however the run ends. *)
Theorem Linux_system_info_logged_once cfg h fuel s :
  quiet s ->
  tally system_info_header (log (final (Linux.program cfg h fuel s)))
  = (tally system_info_header (log s) + 1)%nat.
Proof.
  intro Hs. rewrite Linux_program_is_main. now apply Linux_system_info_once.
Qed.

Lemma Linux_system_info_logged_once_witness :
  tally system_info_header
    (log (final (Linux.program Linux.default_config (idle_psutil sampling_world) 7 boot)))
  = (tally system_info_header (log boot) + 1)%nat.
Proof.
  apply (Linux_system_info_logged_once Linux.default_config (idle_psutil sampling_world)
           7 boot).
  reflexivity.
Defined.
